(** * pmempool output.c: printing functions of the pool inspection tool

    A shallow embedding of [src/tools/pmempool/output.c].  The module keeps
    four file-scope variables (verbosity level, column width, output stream
    and prefix); every printing function reads them and appends to a stream.
    The embedding passes that state explicitly and records each formatted
    write, in order, together with the stream it went to. *)

From Stdlib Require Import ZArith List String Ascii Bool Lia.
From Stdlib Require Import Strings.Byte.
Import ListNotations.

Local Open Scope Z_scope.

(** ** Characters and C strings *)

Definition NUL : ascii := "000"%char.
Definition LF : ascii := "010"%char.
Definition nl : string := String LF EmptyString.

(** A [char] array of fixed capacity. *)
Definition cbuf := list ascii.

Definition is_nul (c : ascii) : bool := Ascii.eqb c NUL.

(** The C string held by an array: the characters before the first NUL. *)
Fixpoint c_str (buf : cbuf) : string :=
  match buf with
  | [] => EmptyString
  | c :: rest => if is_nul c then EmptyString else String c (c_str rest)
  end.

Fixpoint repeat_char (c : ascii) (k : nat) : string :=
  match k with
  | O => EmptyString
  | S k' => String c (repeat_char c k')
  end.

Definition slen (s : string) : Z := Z.of_nat (String.length s).

(** ** printf conversions *)

Definition digit_char (d : Z) : ascii :=
  match String.get (Z.to_nat d) "0123456789abcdef" with
  | Some c => c
  | None => "?"%char
  end.

(** Digits of [v] in base [base], most significant first; [fuel] bounds the
    number of digits (20 decimal or 16 hexadecimal digits hold any 64-bit
    value). *)
Fixpoint digits (base : Z) (fuel : nat) (v : Z) (acc : string) : string :=
  match fuel with
  | O => acc
  | S fuel' =>
      let acc' := String (digit_char (v mod base)) acc in
      if v / base =? 0 then acc' else digits base fuel' (v / base) acc'
  end.

Definition two64 : Z := 2 ^ 64.
Definition two63 : Z := 2 ^ 63.
Definition two32 : Z := 2 ^ 32.

(** [%lu]: an unsigned long argument in decimal. *)
Definition fmt_lu (v : Z) : string := digits 10 20 (v mod two64) EmptyString.

(** [%ld]: the same 64 bits read as a signed long. *)
Definition fmt_ld (v : Z) : string :=
  let u := v mod two64 in
  if u <? two63 then digits 10 20 u EmptyString
  else String "-"%char (digits 10 20 (two64 - u) EmptyString).

(** [%lx] and [%x]: unsigned long and unsigned int in lowercase hexadecimal. *)
Definition fmt_lx (v : Z) : string := digits 16 16 (v mod two64) EmptyString.
Definition fmt_x (v : Z) : string := digits 16 8 (v mod two32) EmptyString.

(** The [0] flag with a minimum field width. *)
Definition pad_zero (w : nat) (s : string) : string :=
  (repeat_char "0"%char (w - String.length s) ++ s)%string.

(** The [-] flag with a minimum field width: left-justified, space filled. *)
Definition pad_right (w : nat) (s : string) : string :=
  (s ++ repeat_char " "%char (w - String.length s))%string.

Definition fmt_08lx (v : Z) : string := pad_zero 8 (fmt_lx v).
Definition fmt_08x (v : Z) : string := pad_zero 8 (fmt_x v).
Definition fmt_02x (v : Z) : string := pad_zero 2 (fmt_x v).

(** ** Streams and the module state *)

Inductive FILE : Type :=
| stdout
| stderr
| stream (id : nat).

(** One formatted write: the stream and the bytes handed to it. *)
Definition write := (FILE * string)%type.

Record out_state : Type := mk_out_state {
  out_vlevel : Z;
  out_column_width : Z;
  out_fh : option FILE;          (* [None] is the NULL pointer *)
  out_prefix : option string;    (* [None] is the NULL pointer *)
  written : list write           (* every write so far, oldest first *)
}.

(** The state at program start: statics are zero, the column width is 20. *)
Definition out_init : out_state :=
  mk_out_state 0 20 None None [].

Definition set_written (st : out_state) (w : list write) : out_state :=
  mk_out_state (out_vlevel st) (out_column_width st) (out_fh st)
    (out_prefix st) w.

(** Sequencing of steps that may have no result. *)
Notation "' p <- e ;; k" :=
  (match e with Some p => k | None => None end)
  (at level 61, p pattern, e at next level, right associativity).

(** [fprintf(fh, ...)] where the conversions expand to [s]: appends [s] to
    the stream and returns the number of bytes; a NULL stream is an error.
    Writes are taken to succeed. *)
Definition fprintf (st : out_state) (fh : option FILE) (s : string)
  : option (Z * out_state) :=
  match fh with
  | None => None
  | Some f => Some (slen s, set_written st (written st ++ [(f, s)]))
  end.

(** The bytes a stream received, in order. *)
Fixpoint stream_bytes (f : FILE) (w : list write) : string :=
  match w with
  | [] => EmptyString
  | (g, s) :: rest =>
      match f, g with
      | stdout, stdout | stderr, stderr => (s ++ stream_bytes f rest)%string
      | stream a, stream b =>
          if Nat.eqb a b then (s ++ stream_bytes f rest)%string
          else stream_bytes f rest
      | _, _ => stream_bytes f rest
      end
  end.

(** ** Configuration and gated printers *)

(** A C truth value. *)
Definition truthy (v : Z) : bool := negb (v =? 0).
Definition c_bool (b : bool) : Z := if b then 1 else 0.

Definition outv_check (st : out_state) (vlevel : Z) : Z :=
  c_bool (vlevel <=? out_vlevel st).

Definition out_set_col_width (st : out_state) (col_width : Z) : out_state :=
  mk_out_state (out_vlevel st) col_width (out_fh st) (out_prefix st)
    (written st).

Definition out_set_vlevel (st : out_state) (vlevel : Z) : out_state :=
  mk_out_state vlevel (out_column_width st)
    (match out_fh st with None => Some stdout | Some f => Some f end)
    (out_prefix st) (written st).

Definition out_set_prefix (st : out_state) (prefix : option string)
  : out_state :=
  mk_out_state (out_vlevel st) (out_column_width st) (out_fh st) prefix
    (written st).

Definition out_set_stream (st : out_state) (fh : option FILE) : out_state :=
  mk_out_state (out_vlevel st) (out_column_width st) fh (out_prefix st)
    (written st).

(** [out_err]: [msg] is the expansion of the caller's format and arguments. *)
Definition out_err (st : out_state) (msg : string) : option out_state :=
  '(_, st1) <- fprintf st (Some stderr) "error: " ;;
  '(_, st2) <- fprintf st1 (Some stderr) msg ;;
  Some st2.

Definition _out_prefix (st : out_state) : option out_state :=
  match out_prefix st with
  | Some p =>
      '(_, st1) <- fprintf st (out_fh st) (p ++ ": ") ;;
      Some st1
  | None => Some st
  end.

(** [outv]: [msg] is the expansion of the caller's format and arguments. *)
Definition outv (st : out_state) (vlevel : Z) (msg : string)
  : option out_state :=
  if truthy (outv_check st vlevel) then
    'st1 <- _out_prefix st ;;
    '(_, st2) <- fprintf st1 (out_fh st1) msg ;;
    Some st2
  else Some st.

(** [outv_field]: [%-*s : ] with the column width, the value, a newline. *)
Definition outv_field (st : out_state) (vlevel : Z) (field msg : string)
  : option out_state :=
  if truthy (outv_check st vlevel) then
    'st1 <- _out_prefix st ;;
    '(_, st2) <- fprintf st1 (out_fh st1)
                   (pad_right (Z.to_nat (out_column_width st1)) field ++ " : ") ;;
    '(_, st3) <- fprintf st2 (out_fh st2) msg ;;
    '(_, st4) <- fprintf st3 (out_fh st3) nl ;;
    Some st4
  else Some st.

(** ** Size strings *)

Definition STR_MAX : Z := 256.

(** What a [snprintf] into a static [STR_MAX] array leaves for the caller:
    at most [STR_MAX - 1] characters, read back as a C string. *)
Definition str_buff_result (s : string) : string :=
  c_str (firstn (Z.to_nat (STR_MAX - 1)) (list_ascii_of_string s)).

(** The [double] values met in [out_get_size_str].  A value is kept as
    [d_num * 2 ^ d_exp] with [d_num] an integer of at most 53 bits.  The
    function only converts a 64-bit integer and divides by 1024, which is
    exact in binary floating point: it lowers the exponent and leaves the
    significand alone. *)
Record double : Type := mk_double { d_num : Z; d_exp : Z }.

(** Conversion from [uint64_t]: round to nearest, ties to even, when the
    integer has more than 53 significant bits. *)
Definition double_of_u64 (v : Z) : double :=
  let bits := if v =? 0 then 0 else Z.log2 v + 1 in
  if bits <=? 53 then mk_double v 0
  else
    let sh := bits - 53 in
    let q := Z.shiftr v sh in
    let r := v - Z.shiftl q sh in
    let half := Z.shiftl 1 (sh - 1) in
    let up := (half <? r) || ((r =? half) && Z.odd q) in
    mk_double (if up then q + 1 else q) sh.

Definition double_div_1024 (d : double) : double :=
  mk_double (d_num d) (d_exp d - 10).

(** [d >= 1024]. *)
Definition double_ge_1024 (d : double) : bool :=
  if 0 <=? d_exp d then 1024 <=? d_num d * 2 ^ d_exp d
  else 1024 * 2 ^ (- d_exp d) <=? d_num d.

(** [%.1f] of a non-negative value: the exact value rounded to one decimal,
    ties to even. *)
Definition fmt_1f (d : double) : string :=
  let tenths :=
    if 0 <=? d_exp d then d_num d * 10 * 2 ^ d_exp d
    else
      let den := 2 ^ (- d_exp d) in
      let x := d_num d * 10 in
      let q := x / den in
      let r := x mod den in
      if (den <? 2 * r) || ((2 * r =? den) && Z.odd q) then q + 1 else q in
  (digits 10 20 (tenths / 10) EmptyString ++ "." ++
   digits 10 1 (tenths mod 10) EmptyString)%string.

Definition units : list ascii :=
  ["K"%char; "M"%char; "G"%char; "T"%char; NUL].

(** [sizeof (units) / sizeof (units[0])]: the terminator is counted. *)
Definition nunits : Z := Z.of_nat (List.length units).

(** The loop [while (csize >= 1024 && i < nunits)].  It runs at most
    [nunits + 1] times because [i] starts at -1 and grows by one. *)
Fixpoint size_loop (fuel : nat) (csize dsize : double) (i : Z)
  : double * double * Z :=
  match fuel with
  | O => (csize, dsize, i)
  | S fuel' =>
      if double_ge_1024 csize && (i <? nunits) then
        size_loop fuel' (double_div_1024 csize) (double_div_1024 dsize) (i + 1)
      else (csize, dsize, i)
  end.

Definition out_get_size_str (size : Z) (human : Z) : string :=
  if negb (truthy human) then
    str_buff_result (fmt_ld size)
  else
    let i := -1 in
    let dsize := double_of_u64 size in
    let csize := double_of_u64 size in
    let '(_, dsize, i) := size_loop (Z.to_nat (nunits + 1)) csize dsize i in
    if (0 <=? i) && (i <? nunits) then
      if human =? 1 then
        str_buff_result
          (fmt_1f dsize ++ String (nth (Z.to_nat i) units NUL) EmptyString)
      else
        str_buff_result
          (fmt_1f dsize ++ String (nth (Z.to_nat i) units NUL) EmptyString
             ++ " [" ++ fmt_lu size ++ "]")
    else
      str_buff_result (fmt_ld size).

(** ** Row assemblers of the hex dump *)

Definition HEXDUMP_ROW_WIDTH : Z := 16.
Definition HEXDUMP_ROW_HEX_LEN : Z := HEXDUMP_ROW_WIDTH * 3 + 1 + 1.
Definition HEXDUMP_ROW_ASCII_LEN : Z := HEXDUMP_ROW_WIDTH + 1.
Definition SEPARATOR_CHAR : ascii := "-"%char.

Definition byte_val (b : byte) : Z := Z.of_N (Byte.to_N b).
Definition char_of_byte (b : byte) : ascii := ascii_of_byte b.

Definition blen {A : Type} (l : list A) : Z := Z.of_nat (List.length l).

(** [size_t] subtraction. *)
Definition size_sub (a b : Z) : Z := (a - b) mod two64.

(** Overwrite [buf] from index [pos] with the characters [w]. *)
Definition store_chars (buf : cbuf) (pos : nat) (w : list ascii) : cbuf :=
  firstn pos buf ++ w ++ skipn (pos + List.length w) buf.

(** [snprintf(buf + pos, n, ...)] where the conversions expand to [s]:
    with [n = 0] nothing is stored; otherwise at most [n - 1] characters
    and a terminating NUL are stored.  The return value is the length of
    [s] in both cases.  A store outside the array has no defined result. *)
Definition snprintf (buf : cbuf) (pos n : Z) (s : string)
  : option (cbuf * Z) :=
  if n =? 0 then Some (buf, slen s)
  else
    let w := firstn (Z.to_nat (n - 1)) (list_ascii_of_string s) ++ [NUL] in
    if (0 <=? pos) && (pos + blen w <=? blen buf) then
      Some (store_chars buf (Z.to_nat pos) w, slen s)
    else None.

(** [isprint] in the C locale. *)
Definition isprint (c : ascii) : bool :=
  let v := Z.of_N (N_of_ascii c) in (32 <=? v) && (v <=? 126).

Definition out_get_printable_ascii (c : ascii) : ascii :=
  if isprint c then c else "."%char.

(** The [for] loop of [out_get_ascii_str] over the bytes still to convert. *)
Fixpoint ascii_loop (str : cbuf) (str_len : Z) (datap : list byte) (c : Z)
  : option (cbuf * Z) :=
  match datap with
  | [] => Some (str, c)
  | b :: rest =>
      let pch := out_get_printable_ascii (char_of_byte b) in
      '(str1, r) <- snprintf str c (size_sub str_len c)
                      (String pch EmptyString) ;;
      ascii_loop str1 str_len rest (c + r)
  end.

(** [datap] holds the [len] bytes to convert. *)
Definition out_get_ascii_str (str : cbuf) (str_len : Z) (datap : list byte)
  : option (cbuf * Z) :=
  if str_len <? blen datap then Some (str, -1)
  else ascii_loop str str_len datap 0.

(** The [for] loop of [out_get_hex_str]; [i] is the index of the head of
    [datap] in the row. *)
Fixpoint hex_loop (str : cbuf) (str_len : Z) (datap : list byte) (i c : Z)
  : option (cbuf * Z) :=
  match datap with
  | [] => Some (str, c)
  | b :: rest =>
      '(str1, c1) <-
        (if truthy i && (i mod 8 =? 0)
         then
           '(str1, r) <- snprintf str c (size_sub str_len c) " " ;;
           Some (str1, c + r)
         else Some (str, c)) ;;
      '(str2, r) <- snprintf str1 c1 (size_sub str_len c1)
                      (fmt_02x (byte_val b) ++ " ") ;;
      hex_loop str2 str_len rest (i + 1) (c1 + r)
  end.

Definition out_get_hex_str (str : cbuf) (str_len : Z) (datap : list byte)
  : option (cbuf * Z) :=
  if str_len <? 3 * blen datap + 1 then Some (str, -1)
  else hex_loop str str_len datap 0 0.

Definition zero_buf (k : Z) : cbuf := repeat NUL (Z.to_nat k).

(** ** The hex dump *)

(** Local variables of [outv_hexdump].  [curr] and [prev] index the dumped
    region and never exceed its length. *)
Record hd_vars : Type := mk_hd_vars {
  hd_row_hex_str : cbuf;
  hd_row_ascii_str : cbuf;
  hd_curr : nat;
  hd_prev : nat;
  hd_repeated : Z;
  hd_n : Z
}.

(** [memcmp] of the first [k] bytes of two regions: the difference of the
    first pair of bytes that differ, or zero. *)
Fixpoint memcmp (p q : list byte) (k : nat) {struct k} : Z :=
  match k with
  | O => 0
  | S k' =>
      match p, q with
      | a :: p', b :: q' =>
          if Byte.eqb a b then memcmp p' q' k' else byte_val a - byte_val b
      | _, _ => 0
      end
  end.

(** [size_t] addition. *)
Definition size_add (a b : Z) : Z := (a + b) mod two64.

(** The text of the row [fprintf]:
    ["%08lx  %-*s|%-*s|\n"] with the offset, the hex field width and string,
    the ASCII field width and string. *)
Definition row_text (off : Z) (hex_w : Z) (hex : string) (ascii_w : Z)
  (asc : string) : string :=
  (fmt_08lx off ++ "  " ++ pad_right (Z.to_nat hex_w) hex ++ "|" ++
   pad_right (Z.to_nat ascii_w) asc ++ "|" ++ nl)%string.

(** The branch of the loop body that prints a row; [row] is the
    [curr_len] bytes at [datap + curr].  The three sizes are the macros
    [HEXDUMP_ROW_HEX_LEN], [HEXDUMP_ROW_ASCII_LEN] and [HEXDUMP_ROW_WIDTH]
    in the program. *)
Definition hexdump_row (hex_len ascii_len width : Z) (st : out_state)
  (v : hd_vars) (row : list byte) (offset : Z)
  : option (hd_vars * out_state) :=
  let repeated := 0 in
  '(hex_str, rh) <- out_get_hex_str (hd_row_hex_str v) hex_len row ;;
  '(ascii_str, ra) <- out_get_ascii_str (hd_row_ascii_str v) ascii_len row ;;
  if truthy ra && truthy rh then
    '(n, st1) <- fprintf st (out_fh st)
                   (row_text (size_add (Z.of_nat (hd_curr v)) offset)
                      hex_len (c_str hex_str) width (c_str ascii_str)) ;;
    Some (mk_hd_vars hex_str ascii_str (hd_curr v) (hd_curr v) repeated n,
          st1)
  else
    Some (mk_hd_vars hex_str ascii_str (hd_curr v) (hd_curr v) repeated
            (hd_n v), st).

(** The branch of the loop body for a row equal to the last printed one. *)
Definition hexdump_star (st : out_state) (v : hd_vars)
  : option (hd_vars * out_state) :=
  if negb (truthy (hd_repeated v)) then
    '(_, st1) <- fprintf st (out_fh st) ("*" ++ nl) ;;
    Some (mk_hd_vars (hd_row_hex_str v) (hd_row_ascii_str v) (hd_curr v)
            (hd_prev v) 1 (hd_n v), st1)
  else Some (v, st).

Definition row_width : nat := Z.to_nat HEXDUMP_ROW_WIDTH.

(** The test [len != curr_len && curr && !memcmp(...)]. *)
Definition same_as_prev (datap : list byte) (len curr_len curr prev : nat)
  : bool :=
  negb (Nat.eqb len curr_len) && negb (Nat.eqb curr 0) &&
  negb (truthy (memcmp (skipn prev datap) (skipn curr datap) curr_len)).

Definition advance (v : hd_vars) (curr_len : nat) : hd_vars :=
  mk_hd_vars (hd_row_hex_str v) (hd_row_ascii_str v) (hd_curr v + curr_len)
    (hd_prev v) (hd_repeated v) (hd_n v).

(** The loop [while (len)]; each turn lowers [len] by at least one, so
    [fuel = len] is enough.  With that much fuel [None] can only come from a
    write to a NULL stream or a store outside a row buffer. *)
Fixpoint hexdump_loop (fuel : nat) (datap : list byte) (offset : Z)
  (len : nat) (v : hd_vars) (st : out_state) : option (hd_vars * out_state) :=
  match len with
  | O => Some (v, st)
  | S _ =>
      match fuel with
      | O => None
      | S fuel' =>
          let curr_len := Nat.min len row_width in
          '(v1, st1) <-
            (if same_as_prev datap len curr_len (hd_curr v) (hd_prev v)
             then hexdump_star st v
             else
               hexdump_row HEXDUMP_ROW_HEX_LEN HEXDUMP_ROW_ASCII_LEN
                 HEXDUMP_ROW_WIDTH st v
                 (firstn curr_len (skipn (hd_curr v) datap)) offset) ;;
          hexdump_loop fuel' datap offset (len - curr_len)
            (advance v1 curr_len) st1
      end
  end.

(** The loop [while (--n) fprintf(out_fh, "%c", SEPARATOR_CHAR)].  From a
    positive [n] it stops after [n - 1] turns; from a negative one the
    counter would run past [INT_MIN], which has no defined result. *)
Fixpoint sep_loop (fuel : nat) (st : out_state) (n : Z) : option out_state :=
  match fuel with
  | O => None
  | S fuel' =>
      let n1 := n - 1 in
      if truthy n1 then
        '(_, st1) <- fprintf st (out_fh st)
                       (String SEPARATOR_CHAR EmptyString) ;;
        sep_loop fuel' st1 n1
      else Some st
  end.

(** [addr] is the region of [len] bytes to dump. *)
Definition outv_hexdump (st : out_state) (vlevel : Z) (addr : list byte)
  (offset : Z) (sep : Z) : option out_state :=
  let len := List.length addr in
  if negb (truthy (outv_check st vlevel)) || Nat.eqb len 0 then Some st
  else
    let v :=
      mk_hd_vars (zero_buf HEXDUMP_ROW_HEX_LEN) (zero_buf HEXDUMP_ROW_ASCII_LEN)
        0 0 0 0 in
    '(v1, st1) <- hexdump_loop len addr offset len v st ;;
    if truthy sep && truthy (hd_n v1) then
      'st2 <- sep_loop (Z.to_nat (hd_n v1)) st1 (hd_n v1) ;;
      '(_, st3) <- fprintf st2 (out_fh st2) nl ;;
      Some st3
    else Some st1.

(** The state after [out_set_vlevel(0)] at program start: verbosity 0,
    standard output, no prefix. *)
Definition st0 : out_state := out_set_vlevel out_init 0.

(** The bytes on standard output after a call. *)
Definition dumped (r : option out_state) : option string :=
  match r with
  | Some st => Some (stream_bytes stdout (written st))
  | None => None
  end.

(** ** Checksum strings *)

(** The [uint64_t] objects in memory, by address. *)
Definition memory := Z -> Z.

Definition load64 (m : memory) (p : Z) : Z := m p mod two64.

Definition store64 (m : memory) (p v : Z) : memory :=
  fun q => if q =? p then v mod two64 else m q.

(** The cast [(uint32_t)]. *)
Definition u32 (v : Z) : Z := v mod two32.

Section Checksum.

(** [util_validate_checksum] is defined in common.c; here it is any
    function of the memory and its three arguments that returns the
    verdict together with the memory it leaves. *)
Variable util_validate_checksum : memory -> Z -> Z -> Z -> Z * memory.

Definition out_get_checksum (m : memory) (addr len csump : Z)
  : string * memory :=
  let csum := load64 m csump in
  let '(valid, m1) := util_validate_checksum m addr len csump in
  let str :=
    if truthy valid then
      str_buff_result ("0x" ++ fmt_08x (u32 csum) ++ " [OK]")
    else
      str_buff_result
        ("0x" ++ fmt_08x (u32 csum) ++ " [wrong! should be: 0x" ++
         fmt_08x (u32 (load64 m1 csump)) ++ "]") in
  (str, store64 m1 csump csum).

End Checksum.

(** Modelled from the spec: [util_validate_checksum] of common.c, as far as
    the spec describes it.  It reports whether the stored checksum is the
    expected one and, when it is not, leaves the expected value in its
    place.  [expected] stands for the checksum of the buffer. *)
Definition validate_against (expected : Z) (m : memory) (addr len csump : Z)
  : Z * memory :=
  if load64 m csump =? expected mod two64 then (1, m)
  else (0, store64 m csump expected).

(** The checksum string as the specification words it: the stored and the
    expected 64-bit values themselves, in [08x] form. *)
Definition checksum_text (valid : bool) (stored expected : Z) : string :=
  if valid then ("0x" ++ fmt_08lx stored ++ " [OK]")%string
  else ("0x" ++ fmt_08lx stored ++ " [wrong! should be: 0x" ++
        fmt_08lx expected ++ "]")%string.

(** A memory of zeros. *)
Definition mem0 : memory := fun _ => 0.


(** ** The lines of a dump *)

(** What [out_get_hex_str] assembles when nothing is cut short: every byte
    as two digits and a space, one more space before each eighth byte but
    the first. *)
Fixpoint hex_text (datap : list byte) (i : Z) : string :=
  match datap with
  | [] => EmptyString
  | b :: rest =>
      let gap := if truthy i && (i mod 8 =? 0) then " "%string
                 else EmptyString in
      (gap ++ (fmt_02x (byte_val b) ++ " ") ++ hex_text rest (i + 1))%string
  end.

(** What [out_get_ascii_str] assembles when nothing is cut short. *)
Fixpoint ascii_text (datap : list byte) : string :=
  match datap with
  | [] => EmptyString
  | b :: rest =>
      String (out_get_printable_ascii (char_of_byte b)) (ascii_text rest)
  end.

Definition star_line : string := ("*" ++ nl)%string.

(** The row at [curr] when [len] bytes are left. *)
Definition row_at (datap : list byte) (curr len : nat) : list byte :=
  firstn (Nat.min len row_width) (skipn curr datap).

(** The line written for the row at [curr]. *)
Definition row_line (datap : list byte) (offset : Z) (curr len : nat)
  : string :=
  row_text (size_add (Z.of_nat curr) offset)
    HEXDUMP_ROW_HEX_LEN (hex_text (row_at datap curr len) 0)
    HEXDUMP_ROW_WIDTH (ascii_text (row_at datap curr len)).

(** The writes of the separator rule for a last row of [n] bytes. *)
Definition sep_writes (fh : FILE) (sep n : Z) : list write :=
  if truthy sep && truthy n then
    repeat (fh, String SEPARATOR_CHAR EmptyString) (Z.to_nat (n - 1)) ++
    [(fh, nl)]
  else [].

Definition on_stream (fh : FILE) (lines : list string) : list write :=
  map (fun s => (fh, s)) lines.

(** *** The row format in the words of the specification *)

Fixpoint join_tokens (tokens : list string) : string :=
  match tokens with
  | [] => EmptyString
  | [t] => t
  | t :: rest => (t ++ " " ++ join_tokens rest)%string
  end.

(** Two-digit tokens separated by single spaces, with one extra space
    between the 8th and the 9th token. *)
Definition spec_hex_column (row : list byte) : string :=
  let tokens := map (fun b => fmt_02x (byte_val b)) row in
  if (8 <? List.length row)%nat then
    (join_tokens (firstn 8 tokens) ++ "  " ++ join_tokens (skipn 8 tokens))%string
  else join_tokens tokens.

(** One character per byte, a dot for a byte that is not printable. *)
Definition spec_ascii_column (row : list byte) : string :=
  string_of_list_ascii
    (map (fun b => if isprint (char_of_byte b) then char_of_byte b
                   else "."%char) row).

(** The row the program writes, told with the columns above: offset in at
    least eight zero-padded hex digits, two spaces, the hex column padded
    to 49, one space, a bar, the ASCII column padded to 16, a bar, a
    newline. *)
Definition spec_row (off : Z) (row : list byte) : string :=
  (pad_zero 8 (fmt_lx off) ++ "  " ++
   pad_right (16 * 3 + 1) (spec_hex_column row) ++ " " ++ "|" ++
   pad_right 16 (spec_ascii_column row) ++ "|" ++ nl)%string.

(** The full row format as the specification writes it,
    [<offset:08x>  <hex padded 49>|<ascii padded 16>|] and a newline: the
    bar comes right after the 49 characters of the hex column, one space
    after the last token of a full row. *)
Definition claimed_row (off : Z) (row : list byte) : string :=
  (pad_zero 8 (fmt_lx off) ++ "  " ++
   pad_right (16 * 3 + 1) (spec_hex_column row) ++ "|" ++
   pad_right 16 (spec_ascii_column row) ++ "|" ++ nl)%string.

(** A line that is a formatted row of the dump of [datap]. *)
Definition is_row_line (datap : list byte) (offset : Z) (s : string) : Prop :=
  exists curr : nat,
    (curr < List.length datap)%nat /\
    (Nat.modulo curr 16 = 0)%nat /\
    s = spec_row (size_add (Z.of_nat curr) offset)
          (firstn 16 (skipn curr datap)).

(** No character of the string is NUL. *)
Fixpoint no_nul (s : string) : bool :=
  match s with
  | EmptyString => true
  | String c rest => negb (is_nul c) && no_nul rest
  end.

(** The write [_out_prefix] makes on stream [fh]. *)
Definition prefix_writes (st : out_state) (fh : FILE) : list write :=
  match out_prefix st with
  | Some p => [(fh, (p ++ ": ")%string)]
  | None => []
  end.

(** Where the last row of a region starts. *)
Definition last_start (datap : list byte) : nat :=
  (16 * ((List.length datap - 1) / 16))%nat.

(** Every star in the list comes right after a formatted row. *)
Definition stars_follow_rows (datap : list byte) (offset : Z)
  (lines : list string) : Prop :=
  forall pre post,
    lines = pre ++ star_line :: post ->
    exists pre' r, pre = pre' ++ [r] /\ is_row_line datap offset r.

(** The first and the last line of the dump of a region. *)
Definition first_row (datap : list byte) (offset : Z) : string :=
  spec_row (size_add 0 offset) (firstn 16 datap).

Definition last_row (datap : list byte) (offset : Z) : string :=
  spec_row (size_add (Z.of_nat (last_start datap)) offset)
    (skipn (last_start datap) datap).

(** What holds of the first and the last line while the loop runs. *)
Definition first_last_inv (datap : list byte) (offset : Z)
  (len curr prev : nat) (rep n : Z)
  (out : list string) : Prop :=
  (curr + len = List.length datap)%nat /\
  ((0 < len)%nat -> Nat.modulo curr 16 = 0%nat) /\
  (curr = 0%nat -> out = []) /\
  ((0 < curr)%nat -> exists rest, out = first_row datap offset :: rest) /\
  (len = 0%nat -> exists pre, out = pre ++ [last_row datap offset] /\ n = slen (last_row datap offset)).

(** A line of a dump: the star or a formatted row. *)
Definition is_dump_line (datap : list byte) (offset : Z) (s : string) : Prop :=
  s = star_line \/ is_row_line datap offset s.

(** What holds of the lines written so far while the loop runs. *)
Definition shape_inv (datap : list byte) (offset : Z)
  (len curr prev : nat) (rep n : Z) (out : list string) : Prop :=
  (curr + len = List.length datap)%nat /\
  ((0 < len)%nat -> Nat.modulo curr 16 = 0%nat) /\
  (curr = 0%nat -> out = []) /\
  ((0 < curr)%nat ->
   exists r rest, out = r :: rest /\ is_row_line datap offset r) /\
  Forall (is_dump_line datap offset) out /\
  stars_follow_rows datap offset out /\
  ((0 < curr)%nat -> rep = 0 ->
   exists pre r, out = pre ++ [r] /\ is_row_line datap offset r).

(** What holds while the loop runs over [16 * k] copies of one byte. *)
Definition run_inv (b : byte) (k : nat) (offset : Z)
  (len curr prev : nat) (rep n : Z) (out : list string) : Prop :=
  let first := spec_row (size_add 0 offset) (repeat b 16) in
  let last :=
    spec_row (size_add (Z.of_nat (16 * (k - 1))) offset) (repeat b 16) in
  (exists j : nat, curr = (16 * j)%nat) /\
  (curr + len = 16 * k)%nat /\
  ((curr = 0%nat /\ out = []) \/
   (curr = 16%nat /\ out = [first] /\ rep = 0) \/
   ((32 <= curr)%nat /\ (0 < len)%nat /\ out = [first; star_line] /\
    rep <> 0) \/
   (len = 0%nat /\ out = [first; star_line; last] /\ n = slen last)).

(** ** The dump as a function of the rows *)

(** The number of rows of a region and its [i]-th row. *)
Definition row_count (datap : list byte) : nat :=
  ((List.length datap + 15) / 16)%nat.

Definition nth_row (datap : list byte) (i : nat) : list byte :=
  firstn 16 (skipn (16 * i) datap).

Fixpoint bytes_eqb (p q : list byte) : bool :=
  match p, q with
  | [], [] => true
  | a :: p', b :: q' => Byte.eqb a b && bytes_eqb p' q'
  | _, _ => false
  end.

(** The lines of a dump, row by row: [i] is the index of the next row, [k]
    the number of rows left, [elided] tells whether the row before was
    replaced by the star or dropped.  A row that is neither the first nor
    the last and equals the row before it is not written; the star is
    written for the first such row of a run. *)
Fixpoint dump_lines (datap : list byte) (offset : Z) (i k : nat)
  (elided : bool) : list string :=
  match k with
  | O => []
  | S k' =>
      if Nat.ltb 0 i && Nat.ltb 0 k' &&
         bytes_eqb (nth_row datap (i - 1)) (nth_row datap i)
      then
        (if elided then [] else [star_line]) ++
        dump_lines datap offset (S i) k' true
      else
        spec_row (size_add (Z.of_nat (16 * i)) offset) (nth_row datap i) ::
        dump_lines datap offset (S i) k' false
  end.

(** All rows from the [i]-th on, none left out. *)
Definition all_rows (datap : list byte) (offset : Z) (i k : nat)
  : list string :=
  map (fun j => spec_row (size_add (Z.of_nat (16 * j)) offset)
                  (nth_row datap j))
    (seq i k).

(** What holds while the loop runs, in terms of [dump_lines]. *)
Definition lines_inv (datap : list byte) (offset : Z)
  (len curr prev : nat) (rep n : Z) (out : list string) : Prop :=
  (curr + len = List.length datap)%nat /\
  ((0 < len)%nat -> Nat.modulo curr 16 = 0%nat) /\
  out ++ dump_lines datap offset (curr / 16) ((len + 15) / 16) (truthy rep) =
    dump_lines datap offset 0 (row_count datap) false /\
  ((0 < curr)%nat -> (0 < len)%nat ->
   (prev + 16 <= curr)%nat /\
   firstn 16 (skipn prev datap) = nth_row datap (curr / 16 - 1)) /\
  (len = 0%nat -> n = slen (last_row datap offset)).

(** The text [_out_prefix] puts in front of a line. *)
Definition prefix_text (st : out_state) : string :=
  match out_prefix st with
  | Some p => (p ++ ": ")%string
  | None => EmptyString
  end.

(** The double that holds [n] after [t] divisions by 1024. *)
Definition scaled (n : Z) (t : nat) : double :=
  mk_double n (- (10 * Z.of_nat t)).

(** The unit letters of [out_get_size_str] in the order it picks them. *)
Definition unit_letters : list ascii :=
  ["K"%char; "M"%char; "G"%char; "T"%char].

(** ** BTT map entries *)

(** [~] on an [unsigned int]. *)
Definition u32_not (v : Z) : Z := Z.lxor (u32 v) (two32 - 1).

Section BttMap.

(** The map entry constants come from the BTT layout header, which is not
    part of this file; they are unsigned 32-bit constants. *)
Variable BTT_MAP_ENTRY_LBA_MASK : Z.
Variable BTT_MAP_ENTRY_ZERO : Z.
Variable BTT_MAP_ENTRY_ERROR : Z.
Variable BTT_MAP_ENTRY_NORMAL : Z.

Definition out_get_btt_map_entry (map : Z) : string :=
  let flags := Z.land (u32 map) (u32_not BTT_MAP_ENTRY_LBA_MASK) in
  let is_init := flags =? 0 in
  let is_zero := flags =? u32 BTT_MAP_ENTRY_ZERO in
  let is_error := flags =? u32 BTT_MAP_ENTRY_ERROR in
  let is_normal := flags =? u32 BTT_MAP_ENTRY_NORMAL in
  let lba := Z.land (u32 map) (u32 BTT_MAP_ENTRY_LBA_MASK) in
  str_buff_result
    ("0x" ++ fmt_08x lba ++ " state: " ++
     (if is_init then "init"
      else if is_zero then "zero"
      else if is_error then "error"
      else if is_normal then "normal" else "unknown")).

End BttMap.

(** * Concrete runs *)

Example fmt_samples :
  fmt_08lx 256 = "00000100"%string /\ fmt_02x 10 = "0a"%string /\
  fmt_lu 1536 = "1536"%string /\ fmt_ld (-1) = "-1"%string /\
  fmt_08lx two32 = "100000000"%string.
Proof. vm_compute. repeat split. Qed.

Example outv_prefix_run :
  let st := out_set_stream (out_set_prefix (out_set_vlevel out_init 1)
                              (Some "pmempool"%string)) (Some stderr) in
  outv st 1 "done" =
    Some (set_written st [(stderr, "pmempool: "%string);
                          (stderr, "done"%string)]) /\
  outv st 2 "more" = Some st /\
  outv out_init 0 "lost" = None.
Proof. vm_compute. repeat split. Qed.

Example size_samples :
  out_get_size_str 1536 1 = "1.5K"%string /\
  out_get_size_str 1536 2 = "1.5K [1536]"%string /\
  out_get_size_str 1023 1 = "1023"%string /\
  out_get_size_str 1024 1 = "1.0K"%string /\
  out_get_size_str 1587 1 = "1.5K"%string /\
  out_get_size_str 1588 1 = "1.6K"%string /\
  out_get_size_str (2 ^ 50) 1 = "1.0"%string /\
  out_get_size_str (2 ^ 60) 1 = "1152921504606846976"%string /\
  out_get_size_str (2 ^ 64 - 1) 0 = "-1"%string.
Proof. vm_compute. repeat split. Qed.

Example assemblers_run :
  (match out_get_hex_str (zero_buf 50) 50 [x48; x65; x6c; x6c; x6f; x0a] with
   | Some (b, r) => Some (c_str b, r) | None => None end)
  = Some ("48 65 6c 6c 6f 0a "%string, 18) /\
  (match out_get_ascii_str (zero_buf 17) 17 [x48; x65; x6c; x6c; x6f; x0a] with
   | Some (b, r) => Some (c_str b, r) | None => None end)
  = Some ("Hello."%string, 6) /\
  (match out_get_hex_str (zero_buf 50) 50 (repeat xff 16) with
   | Some (b, r) => Some (c_str b, r) | None => None end)
  = Some ("ff ff ff ff ff ff ff ff  ff ff ff ff ff ff ff ff "%string, 49) /\
  (match out_get_hex_str (zero_buf 10) 10 (repeat xff 16) with
   | Some (b, r) => Some (c_str b, r) | None => None end)
  = Some (""%string, -1).
Proof. vm_compute. repeat split. Qed.

Example hexdump_hello :
  dumped (outv_hexdump st0 0 [x48; x65; x6c; x6c; x6f; x0a] 256 0) =
  Some ("00000100  48 65 6c 6c 6f 0a                                 |Hello.          |" ++ nl)%string.
Proof. vm_compute. reflexivity. Qed.

Example hexdump_ff48 :
  dumped (outv_hexdump st0 0 (repeat xff 48) 0 0) =
  Some ("00000000  ff ff ff ff ff ff ff ff  ff ff ff ff ff ff ff ff  |................|" ++ nl ++
        "*" ++ nl ++
        "00000020  ff ff ff ff ff ff ff ff  ff ff ff ff ff ff ff ff  |................|" ++ nl)%string.
Proof. vm_compute. reflexivity. Qed.

Example hexdump_zero17 :
  dumped (outv_hexdump st0 0 (repeat x00 17) 0 1) =
  Some ("00000000  00 00 00 00 00 00 00 00  00 00 00 00 00 00 00 00  |................|" ++ nl ++
        "00000010  00                                                |.               |" ++ nl ++
        "------------------------------------------------------------------------------" ++ nl)%string.
Proof. vm_compute. reflexivity. Qed.

Example checksum_samples :
  fst (out_get_checksum (validate_against 4660) (store64 mem0 8 4660) 0 64 8)
    = "0x00001234 [OK]"%string /\
  fst (out_get_checksum (validate_against 4660) (store64 mem0 8 1) 0 64 8)
    = "0x00000001 [wrong! should be: 0x00001234]"%string /\
  load64 (snd (out_get_checksum (validate_against 4660) (store64 mem0 8 1)
                 0 64 8)) 8 = 1.
Proof. vm_compute. repeat split. Qed.

(** * Strings and buffers *)

Lemma length_append (s t : string) :
  String.length (s ++ t) = (String.length s + String.length t)%nat.
Proof. induction s as [|c s IH]; simpl; [reflexivity | now rewrite IH]. Qed.

Lemma chars_append (s t : string) :
  list_ascii_of_string (s ++ t) =
  list_ascii_of_string s ++ list_ascii_of_string t.
Proof. induction s as [|c s IH]; simpl; [reflexivity | now rewrite IH]. Qed.

Lemma chars_length (s : string) :
  List.length (list_ascii_of_string s) = String.length s.
Proof. induction s as [|c s IH]; simpl; [reflexivity | now rewrite IH]. Qed.

Lemma append_assoc (s t u : string) : ((s ++ t) ++ u = s ++ (t ++ u))%string.
Proof. induction s as [|c s IH]; simpl; [reflexivity | now rewrite IH]. Qed.

Lemma repeat_char_length (c : ascii) (k : nat) :
  String.length (repeat_char c k) = k.
Proof. induction k as [|k IH]; simpl; [reflexivity | now rewrite IH]. Qed.

Lemma no_nul_append (s t : string) :
  no_nul (s ++ t) = no_nul s && no_nul t.
Proof.
  induction s as [|c s IH]; simpl; [reflexivity |].
  now rewrite IH, andb_assoc.
Qed.

(** Reading back a string that was stored with its terminator. *)
Lemma c_str_stored (s : string) (tail : cbuf) :
  no_nul s = true ->
  c_str (list_ascii_of_string s ++ NUL :: tail) = s.
Proof.
  induction s as [|c s IH]; simpl; intros H; [reflexivity |].
  apply andb_true_iff in H as [Hc Hs].
  apply negb_true_iff in Hc. rewrite Hc. now rewrite IH.
Qed.

Lemma store_chars_at_end (pre tail w : list ascii) :
  (List.length w <= List.length tail)%nat ->
  store_chars (pre ++ tail) (List.length pre) w =
  pre ++ w ++ skipn (List.length w) tail.
Proof.
  intros Hw. unfold store_chars.
  rewrite firstn_app, firstn_all, Nat.sub_diag, firstn_O, app_nil_r.
  rewrite skipn_app, (skipn_all2 pre) by lia.
  simpl. do 2 f_equal. f_equal. lia.
Qed.


Lemma snprintf_fits (pre tail : cbuf) (cap : Z) (s : string) :
  blen (pre ++ tail) = cap -> cap < two64 ->
  slen s + 1 <= blen tail ->
  snprintf (pre ++ tail) (blen pre) (size_sub cap (blen pre)) s =
  Some ((pre ++ list_ascii_of_string s) ++
        NUL :: skipn (String.length s + 1) tail, slen s).
Proof.
  unfold snprintf, size_sub. unfold blen, slen. intros Hcap Hlt Hfit.
  rewrite length_app in Hcap. cbv zeta.
  rewrite <- Hcap.
  replace (Z.of_nat (List.length pre + List.length tail) - Z.of_nat (List.length pre))
    with (Z.of_nat (List.length tail)) by lia.
  rewrite Z.mod_small by (unfold two64 in *; lia).
  destruct (Z.of_nat (List.length tail) =? 0) eqn:E; [lia |].
  rewrite firstn_all2 by (rewrite chars_length; lia).
    rewrite !length_app, chars_length. simpl List.length.
  destruct ((0 <=? Z.of_nat (List.length pre)) &&
            (Z.of_nat (List.length pre) + Z.of_nat (String.length s + 1) <=?
             Z.of_nat (List.length pre + List.length tail))) eqn:E2.
  - rewrite Nat2Z.id. rewrite store_chars_at_end.
    + rewrite length_app, chars_length. simpl List.length.
      rewrite <- !app_assoc. simpl. reflexivity.
    + rewrite length_app, chars_length. simpl. lia.
  - apply andb_false_iff in E2 as [E2 | E2]; apply Z.leb_gt in E2; lia.
Qed.

Lemma slen_append (s t : string) : slen (s ++ t) = slen s + slen t.
Proof. unfold slen. rewrite length_append. lia. Qed.

Lemma blen_app {A : Type} (l r : list A) : blen (l ++ r) = blen l + blen r.
Proof. unfold blen. rewrite length_app. lia. Qed.

Lemma blen_chars (s : string) : blen (list_ascii_of_string s) = slen s.
Proof. unfold blen, slen. now rewrite chars_length. Qed.

Lemma slen_nonneg (s : string) : 0 <= slen s.
Proof. unfold slen. lia. Qed.

Lemma blen_skipn {A : Type} (k : nat) (l : list A) :
  Z.of_nat k <= blen l -> blen (skipn k l) = blen l - Z.of_nat k.
Proof. unfold blen. rewrite length_skipn. lia. Qed.

Lemma snprintf_room (pre tail : cbuf) (cap : Z) (s : string) :
  blen (pre ++ tail) = cap -> cap < two64 ->
  slen s + 1 <= blen tail ->
  exists tail',
    snprintf (pre ++ tail) (blen pre) (size_sub cap (blen pre)) s =
    Some ((pre ++ list_ascii_of_string s) ++ NUL :: tail', slen s) /\
    blen tail' = blen tail - slen s - 1.
Proof.
  intros Hlen Hcap Hfit. exists (skipn (String.length s + 1) tail).
  split; [now apply snprintf_fits |].
  rewrite blen_skipn; unfold slen in *; lia.
Qed.

(** The ASCII loop with room left: the text is stored after what the array
    already holds and stays terminated. *)
Lemma ascii_loop_fits (cap : Z) (row : list byte) :
  cap < two64 ->
  forall pre tail : cbuf,
    blen (pre ++ tail) = cap ->
    slen (ascii_text row) + 1 <= blen tail ->
    exists tail',
      ascii_loop (pre ++ tail) cap row (blen pre) =
      Some ((pre ++ list_ascii_of_string (ascii_text row)) ++ tail',
            blen pre + slen (ascii_text row)) /\
      blen tail' = blen tail - slen (ascii_text row) /\
      (row <> [] \/ hd_error tail = Some NUL -> hd_error tail' = Some NUL).
Proof.
  intros Hcap. induction row as [|b rest IH]; intros pre tail Hlen Hfit.
  - exists tail. simpl. rewrite app_nil_r, Z.add_0_r.
    repeat split; [unfold slen; simpl; lia | intros [H | H]; congruence].
  - simpl ascii_text in *. simpl ascii_loop.
    set (pch := out_get_printable_ascii (char_of_byte b)) in *.
    assert (Hs : slen (String pch (ascii_text rest)) = 1 + slen (ascii_text rest))
      by (unfold slen; simpl String.length; lia).
    rewrite Hs in Hfit. pose proof (slen_nonneg (ascii_text rest)) as Hnn.
    destruct (snprintf_room pre tail cap (String pch EmptyString) Hlen Hcap)
      as (t1 & Hsn & Hl1); [unfold slen; simpl; lia |].
    rewrite Hsn. simpl list_ascii_of_string.
    assert (Hs1 : slen (String pch "") = 1) by reflexivity.
    rewrite Hs1 in *.
    replace (blen pre + 1) with (blen (pre ++ [pch]))
      by (rewrite blen_app; reflexivity).
    assert (Hb : blen (NUL :: t1) = blen t1 + 1)
      by (unfold blen; simpl List.length; lia).
    destruct (IH (pre ++ [pch]) (NUL :: t1)) as (tail' & Hrun & Hl & Hd).
    + rewrite <- Hlen, !blen_app, Hb. unfold blen at 2. simpl. lia.
    + lia.
    + exists tail'. rewrite Hrun. repeat split.
      * rewrite <- !app_assoc. cbn [app list_ascii_of_string].
        rewrite blen_app, Hs. change (blen [pch]) with 1.
        f_equal. f_equal. lia.
      * lia.
      * intros _. apply Hd. right. reflexivity.
Qed.

Lemma blen_cons {A : Type} (a : A) (l : list A) : blen (a :: l) = blen l + 1.
Proof. unfold blen. simpl List.length. lia. Qed.

(** The hex loop with room left. *)
Lemma hex_loop_fits (cap : Z) (row : list byte) :
  cap < two64 ->
  forall (i : Z) (pre tail : cbuf),
    blen (pre ++ tail) = cap ->
    slen (hex_text row i) + 1 <= blen tail ->
    exists tail',
      hex_loop (pre ++ tail) cap row i (blen pre) =
      Some ((pre ++ list_ascii_of_string (hex_text row i)) ++ tail',
            blen pre + slen (hex_text row i)) /\
      blen tail' = blen tail - slen (hex_text row i) /\
      (row <> [] \/ hd_error tail = Some NUL -> hd_error tail' = Some NUL).
Proof.
  intros Hcap. induction row as [|b rest IH]; intros i pre tail Hlen Hfit.
  - exists tail. simpl. rewrite app_nil_r, Z.add_0_r.
    repeat split; [unfold slen; simpl; lia | intros [H | H]; congruence].
  - cbn [hex_text hex_loop] in *. cbv zeta in Hfit |- *.
    set (tok := (fmt_02x (byte_val b) ++ " ")%string) in *.
    pose proof (slen_nonneg (hex_text rest (i + 1))) as Hnn.
    pose proof (slen_nonneg tok) as Hnt.
    assert (Hstep : forall pre tail,
      blen (pre ++ tail) = cap ->
      slen tok + slen (hex_text rest (i + 1)) + 1 <= blen tail ->
      exists tail',
        match snprintf (pre ++ tail) (blen pre) (size_sub cap (blen pre)) tok with
        | Some (str2, r) => hex_loop str2 cap rest (i + 1) (blen pre + r)
        | None => None
        end =
        Some ((pre ++ list_ascii_of_string (tok ++ hex_text rest (i + 1))) ++ tail',
              blen pre + slen (tok ++ hex_text rest (i + 1))) /\
        blen tail' = blen tail - slen (tok ++ hex_text rest (i + 1)) /\
        hd_error tail' = Some NUL).
    { clear pre tail Hlen Hfit. intros pre tail Hlen Hfit.
      destruct (snprintf_room pre tail cap tok Hlen Hcap) as (t1 & Hsn & Hl1);
        [lia |].
      rewrite Hsn.
      replace (blen pre + slen tok)
        with (blen (pre ++ list_ascii_of_string tok))
        by (rewrite blen_app, blen_chars; reflexivity).
      destruct (IH (i + 1) (pre ++ list_ascii_of_string tok) (NUL :: t1))
        as (tail' & Hrun & Hl & Hd).
      - rewrite <- Hlen, !blen_app, blen_cons, blen_chars. lia.
      - rewrite blen_cons. lia.
      - exists tail'. rewrite Hrun. rewrite slen_append, chars_append.
        repeat split.
        + rewrite blen_app, blen_chars, <- !app_assoc. do 2 f_equal. lia.
        + rewrite Hl, blen_cons. lia.
        + apply Hd. right. reflexivity. }
    destruct (truthy i && (i mod 8 =? 0)) eqn:Egap.
    + rewrite slen_append in Hfit.
      change (slen " ") with 1 in Hfit. rewrite slen_append in Hfit.
      destruct (snprintf_room pre tail cap " " Hlen Hcap) as (t1 & Hsn & Hl1);
        [change (slen " ") with 1; lia |].
      rewrite Hsn. change (slen " ") with 1 in *.
      replace (blen pre + 1)
        with (blen (pre ++ list_ascii_of_string " "))
        by (rewrite blen_app; reflexivity).
      destruct (Hstep (pre ++ list_ascii_of_string " ") (NUL :: t1))
        as (tail' & Hrun & Hl & Hd).
      * rewrite <- Hlen, !blen_app, blen_cons. change (blen (list_ascii_of_string " ")) with 1. lia.
      * rewrite blen_cons. lia.
      * exists tail'. rewrite Hrun.
        rewrite (slen_append " "), (chars_append " ").
        change (slen " ") with 1.
        repeat split.
        -- rewrite blen_app, <- !app_assoc.
           change (blen (list_ascii_of_string " ")) with 1.
           do 2 f_equal. lia.
        -- rewrite Hl, blen_cons. lia.
        -- intros _. exact Hd.
    + change (EmptyString ++ tok ++ hex_text rest (i + 1))%string
        with (tok ++ hex_text rest (i + 1))%string in *.
      rewrite slen_append in Hfit.
      destruct (Hstep pre tail Hlen) as (tail' & Hrun & Hl & Hd); [lia |].
      exists tail'. rewrite Hrun. repeat split; [exact Hl | intros _; exact Hd].
Qed.

(** * Tokens and columns *)

Lemma fmt_02x_form (b : byte) :
  fmt_02x (byte_val b) =
  String (digit_char (byte_val b / 16))
    (String (digit_char (byte_val b mod 16)) EmptyString).
Proof. destruct b; reflexivity. Qed.

Lemma fmt_02x_no_nul (b : byte) : no_nul (fmt_02x (byte_val b)) = true.
Proof. destruct b; reflexivity. Qed.

Lemma printable_not_nul (b : byte) :
  is_nul (out_get_printable_ascii (char_of_byte b)) = false.
Proof. destruct b; reflexivity. Qed.

Lemma hex_text_no_nul (row : list byte) :
  forall i, no_nul (hex_text row i) = true.
Proof.
  induction row as [|b rest IH]; intros i; [reflexivity |].
  cbn [hex_text]. cbv zeta. rewrite !no_nul_append, fmt_02x_no_nul, IH.
  destruct (truthy i && (i mod 8 =? 0)); reflexivity.
Qed.

Lemma ascii_text_no_nul (row : list byte) : no_nul (ascii_text row) = true.
Proof.
  induction row as [|b rest IH]; [reflexivity |].
  cbn [ascii_text no_nul]. now rewrite printable_not_nul, IH.
Qed.

Lemma ascii_text_length (row : list byte) :
  String.length (ascii_text row) = List.length row.
Proof. induction row as [|b rest IH]; simpl; [reflexivity | now rewrite IH]. Qed.

Lemma ascii_text_spec (row : list byte) :
  ascii_text row = spec_ascii_column row.
Proof.
  unfold spec_ascii_column.
  induction row as [|b rest IH]; [reflexivity |].
  cbn [ascii_text map string_of_list_ascii]. now rewrite IH.
Qed.

(** Rows of one to sixteen bytes, by their length. *)
Ltac by_row_length row :=
  do 17 (try (destruct row as [|? row];
              [ try (cbn [List.length] in *; lia) | ]));
  try (cbn [List.length] in *; lia).

Lemma hex_text_spec (row : list byte) :
  (1 <= List.length row <= 16)%nat ->
  hex_text row 0 = (spec_hex_column row ++ " ")%string.
Proof.
  intros H. by_row_length row; unfold spec_hex_column;
    cbn [map hex_text]; rewrite !fmt_02x_form; reflexivity.
Qed.

Lemma hex_text_length (row : list byte) :
  (1 <= List.length row <= 16)%nat ->
  String.length (hex_text row 0) =
  (3 * List.length row + (if (8 <? List.length row)%nat then 1 else 0))%nat.
Proof.
  intros H. by_row_length row;
    cbn [hex_text]; rewrite !fmt_02x_form; reflexivity.
Qed.

(** * One printed row *)

Lemma out_get_hex_str_row (str : cbuf) (row : list byte) :
  blen str = HEXDUMP_ROW_HEX_LEN ->
  (1 <= List.length row <= 16)%nat ->
  exists str',
    out_get_hex_str str HEXDUMP_ROW_HEX_LEN row =
    Some (str', slen (hex_text row 0)) /\
    blen str' = HEXDUMP_ROW_HEX_LEN /\
    c_str str' = hex_text row 0 /\
    0 < slen (hex_text row 0).
Proof.
  intros Hlen Hrow. unfold out_get_hex_str.
  pose proof (hex_text_length row Hrow) as Htl.
  assert (Hsl : slen (hex_text row 0) <= 49).
  { unfold slen. rewrite Htl. destruct (8 <? List.length row)%nat; lia. }
  assert (Hpos : 0 < slen (hex_text row 0)).
  { unfold slen. rewrite Htl. lia. }
  destruct (HEXDUMP_ROW_HEX_LEN <? 3 * blen row + 1) eqn:E.
  - apply Z.ltb_lt in E. unfold blen in E. change HEXDUMP_ROW_HEX_LEN with 50 in E.
    lia.
  - destruct (hex_loop_fits HEXDUMP_ROW_HEX_LEN row eq_refl 0 [] str)
      as (tail' & Hrun & Hl & Hd).
    + exact Hlen.
    + rewrite Hlen. change HEXDUMP_ROW_HEX_LEN with 50. lia.
    + cbn [app] in Hrun. change (blen (@nil ascii)) with 0 in Hrun.
      rewrite Hrun. rewrite Z.add_0_l.
      destruct tail' as [|c t]; [discriminate Hd; left; destruct row; simpl in *; [lia | discriminate] |].
      assert (c = NUL).
      { assert (Some c = Some NUL) by (apply Hd; left; destruct row; simpl in *; [lia | discriminate]).
        congruence. }
      subst c. eexists. split; [reflexivity |]. repeat split.
      * rewrite blen_app, blen_chars, Hl, Hlen. lia.
      * apply c_str_stored, hex_text_no_nul.
      * exact Hpos.
Qed.

Lemma out_get_ascii_str_row (str : cbuf) (row : list byte) :
  blen str = HEXDUMP_ROW_ASCII_LEN ->
  (1 <= List.length row <= 16)%nat ->
  exists str',
    out_get_ascii_str str HEXDUMP_ROW_ASCII_LEN row =
    Some (str', blen row) /\
    blen str' = HEXDUMP_ROW_ASCII_LEN /\
    c_str str' = ascii_text row.
Proof.
  intros Hlen Hrow. unfold out_get_ascii_str.
  assert (Hsl : slen (ascii_text row) = blen row)
    by (unfold slen, blen; now rewrite ascii_text_length).
  destruct (HEXDUMP_ROW_ASCII_LEN <? blen row) eqn:E.
  - apply Z.ltb_lt in E. unfold blen in E.
    change HEXDUMP_ROW_ASCII_LEN with 17 in E. lia.
  - destruct (ascii_loop_fits HEXDUMP_ROW_ASCII_LEN row eq_refl [] str)
      as (tail' & Hrun & Hl & Hd).
    + exact Hlen.
    + rewrite Hlen, Hsl. unfold blen. change HEXDUMP_ROW_ASCII_LEN with 17. lia.
    + cbn [app] in Hrun. change (blen (@nil ascii)) with 0 in Hrun.
      rewrite Hrun, Z.add_0_l, Hsl.
      assert (Hne : row <> []) by (destruct row; simpl in *; [lia | discriminate]).
      destruct tail' as [|c t]; [discriminate Hd; now left |].
      assert (c = NUL) by (assert (Some c = Some NUL) by (apply Hd; now left); congruence).
      subst c. eexists. split; [reflexivity |]. split.
      * rewrite blen_app, blen_chars, Hl, Hlen. lia.
      * apply c_str_stored, ascii_text_no_nul.
Qed.

(** A row of one to sixteen bytes is always written, as [row_text] of the
    two assembled columns, and [n] becomes its byte count. *)
Lemma hexdump_row_prints (st : out_state) (fh : FILE) (v : hd_vars)
  (row : list byte) (offset : Z) :
  out_fh st = Some fh ->
  blen (hd_row_hex_str v) = HEXDUMP_ROW_HEX_LEN ->
  blen (hd_row_ascii_str v) = HEXDUMP_ROW_ASCII_LEN ->
  (1 <= List.length row <= 16)%nat ->
  exists hb ab,
    hexdump_row HEXDUMP_ROW_HEX_LEN HEXDUMP_ROW_ASCII_LEN HEXDUMP_ROW_WIDTH
      st v row offset =
    Some (mk_hd_vars hb ab (hd_curr v) (hd_curr v) 0
            (slen (row_text (size_add (Z.of_nat (hd_curr v)) offset)
                     HEXDUMP_ROW_HEX_LEN (hex_text row 0)
                     HEXDUMP_ROW_WIDTH (ascii_text row))),
          set_written st
            (written st ++
             [(fh, row_text (size_add (Z.of_nat (hd_curr v)) offset)
                     HEXDUMP_ROW_HEX_LEN (hex_text row 0)
                     HEXDUMP_ROW_WIDTH (ascii_text row))])) /\
    blen hb = HEXDUMP_ROW_HEX_LEN /\ blen ab = HEXDUMP_ROW_ASCII_LEN.
Proof.
  intros Hfh Hh Ha Hrow. unfold hexdump_row.
  destruct (out_get_hex_str_row _ row Hh Hrow) as (hb & Ehex & Hhb & Chex & Hpos).
  destruct (out_get_ascii_str_row _ row Ha Hrow) as (ab & Easc & Hab & Casc).
  rewrite Ehex, Easc, Chex, Casc.
  assert (Et : truthy (blen row) && truthy (slen (hex_text row 0)) = true).
  { unfold truthy. apply andb_true_iff. split; apply negb_true_iff, Z.eqb_neq;
      unfold blen; lia. }
  rewrite Et, Hfh. cbn [fprintf]. exists hb, ab. repeat split; assumption.
Qed.

Lemma repeat_char_snoc (c : ascii) (k : nat) :
  (repeat_char c k ++ String c EmptyString)%string = String c (repeat_char c k).
Proof. induction k as [|k IH]; simpl; [reflexivity | now rewrite IH]. Qed.

Lemma pad_right_snoc (w : nat) (s : string) :
  pad_right (S w) (s ++ " ") = (pad_right w s ++ " ")%string.
Proof.
  unfold pad_right. rewrite length_append. cbn [String.length].
  replace (S w - (String.length s + 1))%nat with (w - String.length s)%nat by lia.
  rewrite !append_assoc. f_equal. cbn [append].
  now rewrite repeat_char_snoc.
Qed.

(** The text the code writes for a row is [spec_row]. *)
Lemma row_text_spec (off : Z) (row : list byte) :
  (1 <= List.length row <= 16)%nat ->
  row_text off HEXDUMP_ROW_HEX_LEN (hex_text row 0)
    HEXDUMP_ROW_WIDTH (ascii_text row) = spec_row off row.
Proof.
  intros Hrow. unfold row_text, spec_row, fmt_08lx.
  rewrite (hex_text_spec row Hrow), ascii_text_spec.
  change (Z.to_nat HEXDUMP_ROW_HEX_LEN) with (S 49).
  change (Z.to_nat HEXDUMP_ROW_WIDTH) with 16%nat.
  change (16 * 3 + 1)%nat with 49%nat.
  rewrite pad_right_snoc, !append_assoc. reflexivity.
Qed.

Lemma row_at_length (datap : list byte) (curr len : nat) :
  (0 < len)%nat -> (curr + len = List.length datap)%nat ->
  (1 <= List.length (row_at datap curr len) <= 16)%nat.
Proof.
  intros Hpos Hlen. unfold row_at, row_width.
  rewrite length_firstn, length_skipn.
  change (Z.to_nat HEXDUMP_ROW_WIDTH) with 16%nat. lia.
Qed.

(** * The dump loop *)

Section LoopRule.

Variable datap : list byte.
Variable offset : Z.
Variable fh : FILE.

(** A property of the remaining length, [curr], [prev], [repeated], [n]
    and the lines written so far. *)
Variable Inv : nat -> nat -> nat -> Z -> Z -> list string -> Prop.

Hypothesis Inv_step :
  forall (len curr prev : nat) (rep n : Z) (out : list string),
    Inv len curr prev rep n out ->
    (0 < len)%nat -> (curr + len = List.length datap)%nat ->
    let curr_len := Nat.min len row_width in
    if same_as_prev datap len curr_len curr prev then
      if negb (truthy rep)
      then Inv (len - curr_len) (curr + curr_len) prev 1 n
             (out ++ [star_line])
      else Inv (len - curr_len) (curr + curr_len) prev rep n out
    else
      Inv (len - curr_len) (curr + curr_len) curr 0
        (slen (row_line datap offset curr len))
        (out ++ [row_line datap offset curr len]).

(** The loop ends, writes only to the stream, and carries the property
    from its first turn to its exit. *)
Lemma hexdump_loop_rule (fuel : nat) :
  forall (len : nat) (v : hd_vars) (st : out_state) (out : list string),
    (len <= fuel)%nat ->
    out_fh st = Some fh ->
    blen (hd_row_hex_str v) = HEXDUMP_ROW_HEX_LEN ->
    blen (hd_row_ascii_str v) = HEXDUMP_ROW_ASCII_LEN ->
    (hd_curr v + len = List.length datap)%nat ->
    Inv len (hd_curr v) (hd_prev v) (hd_repeated v) (hd_n v) out ->
    exists v' lines,
      hexdump_loop fuel datap offset len v st =
      Some (v', set_written st (written st ++ on_stream fh lines)) /\
      Inv 0 (hd_curr v') (hd_prev v') (hd_repeated v') (hd_n v')
        (out ++ lines).
Proof.
  induction fuel as [|fuel IH]; intros len v st out Hfuel Hfh Hh Ha Hlen HI.
  - assert (len = 0%nat) by lia. subst len. exists v, [].
    cbn [hexdump_loop on_stream map]. rewrite !app_nil_r.
    split; [destruct st; reflexivity | exact HI].
  - destruct len as [|len'].
    + exists v, []. cbn [hexdump_loop on_stream map]. rewrite !app_nil_r.
      split; [destruct st; reflexivity | exact HI].
    + remember (S len') as len eqn:Elen.
      assert (Hpos : (0 < len)%nat) by lia.
      pose proof (Inv_step len _ _ _ _ out HI Hpos Hlen) as Hstep.
      cbv zeta in Hstep.
      rewrite Elen. cbn [hexdump_loop]. rewrite <- Elen.
      set (curr_len := Nat.min len row_width) in *.
      assert (Hcl : (1 <= curr_len <= 16)%nat).
      { unfold curr_len, row_width.
        change (Z.to_nat HEXDUMP_ROW_WIDTH) with 16%nat. lia. }
      destruct (same_as_prev datap len curr_len (hd_curr v) (hd_prev v)).
      * unfold hexdump_star.
        destruct (negb (truthy (hd_repeated v))).
        -- rewrite Hfh. cbn [fprintf].
           edestruct (IH (len - curr_len)%nat
                        (advance (mk_hd_vars (hd_row_hex_str v)
                                    (hd_row_ascii_str v) (hd_curr v)
                                    (hd_prev v) 1 (hd_n v)) curr_len)
                        (set_written st (written st ++ [(fh, ("*" ++ nl)%string)]))
                        (out ++ [star_line]))
             as (v' & lines & Hrun & HI'); try eassumption;
             [lia | cbn; lia |].
           exists v', (star_line :: lines). rewrite Hrun.
           cbn [written set_written on_stream map].
           rewrite <- !app_assoc in *. split; [reflexivity | exact HI'].
        -- edestruct (IH (len - curr_len)%nat (advance v curr_len) st out)
             as (v' & lines & Hrun & HI'); try eassumption;
             [lia | cbn; lia |].
           exists v', lines. rewrite Hrun. split; [reflexivity | exact HI'].
      * pose proof (row_at_length datap (hd_curr v) len Hpos Hlen) as Hrow.
        destruct (hexdump_row_prints st fh v (row_at datap (hd_curr v) len)
                    offset Hfh Hh Ha Hrow) as (hb & ab & Erow & Hhb & Hab).
        unfold row_line, row_at in Hstep, Erow. fold curr_len in Hstep, Erow.
        rewrite Erow. clear Erow.
        set (line := row_text _ _ _ _ _) in *.
        edestruct (IH (len - curr_len)%nat
                     (advance (mk_hd_vars hb ab (hd_curr v) (hd_curr v) 0
                                 (slen line)) curr_len)
                     (set_written st (written st ++ [(fh, line)]))
                     (out ++ [line]))
          as (v' & lines & Hrun & HI'); try eassumption;
          [lia | cbn; lia |].
        exists v', (line :: lines).
        rewrite Hrun. cbn [written set_written on_stream map].
        rewrite <- !app_assoc in *. split; [reflexivity |].
        unfold row_line, row_at. fold curr_len. exact HI'.
Qed.

End LoopRule.

Lemma set_written_twice (st : out_state) (w1 w2 : list write) :
  set_written (set_written st w1) w2 = set_written st w2.
Proof. reflexivity. Qed.

Lemma set_written_same (st : out_state) : set_written st (written st) = st.
Proof. destruct st; reflexivity. Qed.

Lemma sep_loop_unfold (fuel : nat) (st : out_state) (n : Z) :
  sep_loop (S fuel) st n =
  if truthy (n - 1) then
    match fprintf st (out_fh st) (String SEPARATOR_CHAR EmptyString) with
    | None => None
    | Some (_, st1) => sep_loop fuel st1 (n - 1)
    end
  else Some st.
Proof. reflexivity. Qed.

(** The separator loop from a positive count writes [n - 1] dashes. *)
Lemma sep_loop_runs (fh : FILE) (k : nat) :
  forall st : out_state,
    out_fh st = Some fh ->
    sep_loop (S k) st (Z.of_nat k + 1) =
    Some (set_written st
            (written st ++ repeat (fh, String SEPARATOR_CHAR EmptyString) k)).
Proof.
  induction k as [|k IH]; intros st Hfh.
  - cbn. rewrite app_nil_r. now rewrite set_written_same.
  - rewrite sep_loop_unfold.
    replace (Z.of_nat (S k) + 1 - 1) with (Z.of_nat k + 1) by lia.
    assert (Ht : truthy (Z.of_nat k + 1) = true)
      by (unfold truthy; apply negb_true_iff, Z.eqb_neq; lia).
    rewrite Ht, Hfh. cbn [fprintf]. rewrite IH by exact Hfh.
    cbn [written set_written repeat]. rewrite set_written_twice.
    rewrite <- app_assoc. reflexivity.
Qed.

Section DumpRule.

Variable datap : list byte.
Variable offset : Z.
Variable fh : FILE.
Variable Inv : nat -> nat -> nat -> Z -> Z -> list string -> Prop.

Hypothesis Inv_step :
  forall (len curr prev : nat) (rep n : Z) (out : list string),
    Inv len curr prev rep n out ->
    (0 < len)%nat -> (curr + len = List.length datap)%nat ->
    let curr_len := Nat.min len row_width in
    if same_as_prev datap len curr_len curr prev then
      if negb (truthy rep)
      then Inv (len - curr_len) (curr + curr_len) prev 1 n
             (out ++ [star_line])
      else Inv (len - curr_len) (curr + curr_len) prev rep n out
    else
      Inv (len - curr_len) (curr + curr_len) curr 0
        (slen (row_line datap offset curr len))
        (out ++ [row_line datap offset curr len]).

Hypothesis Inv_init : Inv (List.length datap) 0 0 0 0 [].

(** A dump with the gate open: it returns, its writes are the lines of
    the loop followed by the separator rule, and the property holds of
    what the loop leaves. *)
Lemma outv_hexdump_rule (st : out_state) (vlevel : Z) :
  out_fh st = Some fh ->
  vlevel <= out_vlevel st ->
  datap <> [] ->
  exists (lines : list string) (curr prev : nat) (rep n : Z),
    (forall sep : Z,
       outv_hexdump st vlevel datap offset sep =
       Some (set_written st
               (written st ++ on_stream fh lines ++ sep_writes fh sep n))) /\
    Inv 0 curr prev rep n lines.
Proof.
  intros Hfh Hgate Hne.
  assert (Hg : truthy (outv_check st vlevel) = true).
  { unfold outv_check. apply Z.leb_le in Hgate. now rewrite Hgate. }
  assert (E0 : Nat.eqb (List.length datap) 0 = false).
  { apply Nat.eqb_neq. destruct datap; [congruence | discriminate]. }
  destruct (hexdump_loop_rule datap offset fh
              (fun len curr prev rep n out =>
                 Inv len curr prev rep n out /\ 0 <= n))
    with (fuel := List.length datap) (len := List.length datap)
         (v := mk_hd_vars (zero_buf HEXDUMP_ROW_HEX_LEN)
                 (zero_buf HEXDUMP_ROW_ASCII_LEN) 0 0 0 0)
         (st := st) (out := @nil string)
    as (v' & lines & Hrun & HI & Hn).
  - intros len curr prev rep n out [HI Hn] Hpos Hlen.
    pose proof (Inv_step len curr prev rep n out HI Hpos Hlen) as Hs.
    cbv zeta in *.
    destruct (same_as_prev datap len (Nat.min len row_width) curr prev).
    + destruct (negb (truthy rep)); split; assumption.
    + split; [assumption | apply slen_nonneg].
  - lia.
  - exact Hfh.
  - reflexivity.
  - reflexivity.
  - reflexivity.
  - split; [exact Inv_init | cbn [hd_n]; lia].
  - cbn [app] in HI.
    exists lines, (hd_curr v'), (hd_prev v'), (hd_repeated v'), (hd_n v').
    split; [| exact HI].
    intros sep. unfold outv_hexdump. rewrite Hg, E0. cbn [negb orb].
    rewrite Hrun. unfold sep_writes.
    destruct (truthy sep && truthy (hd_n v')) eqn:Es.
    + apply andb_true_iff in Es as [_ Hn1].
      apply negb_true_iff, Z.eqb_neq in Hn1.
      replace (Z.to_nat (hd_n v')) with (S (Z.to_nat (hd_n v' - 1))) by lia.
      replace (hd_n v') with (Z.of_nat (Z.to_nat (hd_n v' - 1)) + 1) at 2 by lia.
      rewrite (sep_loop_runs fh) by exact Hfh.
      cbn [out_fh set_written written]. rewrite Hfh. cbn [fprintf].
      cbn [written set_written]. rewrite <- !app_assoc. reflexivity.
    + rewrite app_nil_r. reflexivity.
Qed.

End DumpRule.

(** * Digits *)

Lemma digit_char_not_nul (d : Z) : is_nul (digit_char d) = false.
Proof.
  unfold digit_char. generalize (Z.to_nat d). intros k.
  do 17 (destruct k as [|k]; [reflexivity |]). reflexivity.
Qed.

Lemma digits_no_nul (base : Z) (fuel : nat) :
  forall (v : Z) (acc : string),
    no_nul acc = true -> no_nul (digits base fuel v acc) = true.
Proof.
  induction fuel as [|fuel IH]; intros v acc Hacc; [exact Hacc |].
  cbn [digits]. cbv zeta.
  assert (H1 : no_nul (String (digit_char (v mod base)) acc) = true)
    by (cbn [no_nul]; now rewrite digit_char_not_nul, Hacc).
  destruct (v / base =? 0); [exact H1 | now apply IH].
Qed.

(** A value below [16 ^ k] takes at most [k] hex digits. *)
Lemma hex_digits_length (k : nat) :
  forall (fuel : nat) (v : Z) (acc : string),
    0 <= v < 16 ^ Z.of_nat (S k) ->
    (1 <= String.length (digits 16 fuel v acc) - String.length acc <= S k)%nat
    \/ fuel = 0%nat.
Proof.
  induction k as [|k IH]; intros fuel v acc Hv.
  - destruct fuel as [|fuel]; [now right | left].
    cbn [digits]. cbv zeta.
    change (16 ^ Z.of_nat 1) with 16 in Hv.
    rewrite Z.div_small by lia. change (0 =? 0) with true.
    cbn [String.length]. lia.
  - destruct fuel as [|fuel]; [now right | left].
    cbn [digits]. cbv zeta.
    destruct (v / 16 =? 0) eqn:E; [cbn [String.length]; lia |].
    assert (Hq : 0 <= v / 16 < 16 ^ Z.of_nat (S k)).
    { split; [apply Z.div_pos; lia |].
      apply Z.div_lt_upper_bound; [lia |].
      replace (Z.of_nat (S (S k))) with (Z.of_nat (S k) + 1) in Hv by lia.
      rewrite Z.pow_add_r in Hv by lia. lia. }
    destruct (IH fuel (v / 16) (String (digit_char (v mod 16)) acc) Hq)
      as [H | H].
    + cbn [String.length] in H. lia.
    + subst fuel. cbn [digits String.length]. lia.
Qed.

Lemma digits_length_le (base : Z) (fuel : nat) :
  forall (v : Z) (acc : string),
    (String.length (digits base fuel v acc) <= fuel + String.length acc)%nat.
Proof.
  induction fuel as [|fuel IH]; intros v acc; [cbn [digits]; lia |].
  cbn [digits]. cbv zeta. destruct (v / base =? 0); [cbn [String.length]; lia |].
  specialize (IH (v / base) (String (digit_char (v mod base)) acc)).
  cbn [String.length] in IH. lia.
Qed.

Lemma no_nul_repeat_char (c : ascii) (k : nat) :
  is_nul c = false -> no_nul (repeat_char c k) = true.
Proof.
  intros Hc. induction k as [|k IH]; [reflexivity |].
  cbn [repeat_char no_nul]. now rewrite Hc, IH.
Qed.

Lemma pad_zero_no_nul (w : nat) (s : string) :
  no_nul s = true -> no_nul (pad_zero w s) = true.
Proof.
  intros Hs. unfold pad_zero.
  now rewrite no_nul_append, no_nul_repeat_char, Hs.
Qed.

Lemma pad_zero_length (w : nat) (s : string) :
  String.length (pad_zero w s) = Nat.max w (String.length s).
Proof. unfold pad_zero. rewrite length_append, repeat_char_length. lia. Qed.

Lemma pad_right_length (w : nat) (s : string) :
  String.length (pad_right w s) = Nat.max w (String.length s).
Proof. unfold pad_right. rewrite length_append, repeat_char_length. lia. Qed.

Lemma fmt_08x_no_nul (v : Z) : no_nul (fmt_08x v) = true.
Proof. unfold fmt_08x, fmt_x. apply pad_zero_no_nul. now apply digits_no_nul. Qed.

Lemma fmt_08x_length (v : Z) : String.length (fmt_08x v) = 8%nat.
Proof.
  unfold fmt_08x, fmt_x. rewrite pad_zero_length.
  destruct (hex_digits_length 7 8 (v mod two32) EmptyString) as [H | H];
    [| | discriminate].
  - change (16 ^ Z.of_nat 8) with two32. apply Z.mod_pos_bound. reflexivity.
  - cbn [String.length] in H. lia.
Qed.

(** Below [2 ^ 32] the offset field has exactly eight digits. *)
Lemma fmt_08lx_length (v : Z) :
  0 <= v < two32 -> String.length (fmt_08lx v) = 8%nat.
Proof.
  intros Hv. unfold fmt_08lx, fmt_lx. rewrite pad_zero_length.
  rewrite Z.mod_small by (unfold two32, two64 in *; lia).
  destruct (hex_digits_length 7 16 v EmptyString) as [H | H];
    [| | discriminate].
  - change (16 ^ Z.of_nat 8) with two32. exact Hv.
  - cbn [String.length] in H. lia.
Qed.

(** A C string with no NUL inside and short enough for the static array is
    returned as it is. *)
Lemma c_str_chars (s : string) :
  no_nul s = true -> c_str (list_ascii_of_string s) = s.
Proof.
  induction s as [|c s IH]; cbn; intros H; [reflexivity |].
  apply andb_true_iff in H as [Hc Hs].
  apply negb_true_iff in Hc. now rewrite Hc, IH.
Qed.

Lemma str_buff_result_id (s : string) :
  no_nul s = true -> (String.length s <= 255)%nat -> str_buff_result s = s.
Proof.
  intros Hn Hl. unfold str_buff_result.
  rewrite firstn_all2 by (rewrite chars_length; change (Z.to_nat (STR_MAX - 1)) with 255%nat; lia).
  now apply c_str_chars.
Qed.

(** * Gated printing *)

Lemma app_grows {A : Type} (l r : list A) : r <> [] -> l ++ r <> l.
Proof.
  intros Hr H. apply (f_equal (@List.length A)) in H.
  rewrite length_app in H. destruct r; [congruence | cbn in H; lia].
Qed.

(** C8: [outv] writes to the configured stream exactly when
    [outv_check] holds, that is when the configured verbosity is at least
    the argument; it then writes the prefix followed by a colon and a
    space, when a prefix is set, and the message.  With the gate closed it
    writes nothing and leaves the whole state as it was. *)
Theorem outv_writes_iff_gate_open (st : out_state) (fh : FILE) (vlevel : Z)
  (msg : string) :
  out_fh st = Some fh ->
  (truthy (outv_check st vlevel) = true <-> vlevel <= out_vlevel st) /\
  exists st',
    outv st vlevel msg = Some st' /\
    (written st' <> written st <-> vlevel <= out_vlevel st) /\
    (vlevel <= out_vlevel st ->
     st' = set_written st (written st ++ prefix_writes st fh ++ [(fh, msg)])) /\
    (out_vlevel st < vlevel -> st' = st).
Proof.
  intros Hfh.
  assert (Hg : truthy (outv_check st vlevel) = true <-> vlevel <= out_vlevel st).
  { unfold outv_check. destruct (vlevel <=? out_vlevel st) eqn:E.
    - apply Z.leb_le in E. cbn. tauto.
    - apply Z.leb_gt in E. cbn. split; [discriminate | lia]. }
  split; [exact Hg |].
  unfold outv. destruct (truthy (outv_check st vlevel)) eqn:Eg.
  - assert (Hle : vlevel <= out_vlevel st) by now apply Hg.
    unfold _out_prefix, prefix_writes.
    destruct (out_prefix st) as [p |] eqn:Ep.
    + rewrite Hfh. cbn [fprintf out_fh set_written]. rewrite Hfh.
      cbn [fprintf written set_written].
      eexists. split; [reflexivity |]. cbn [written set_written].
      rewrite <- app_assoc. split; [| split].
      * split; [intros _; exact Hle | intros _; apply app_grows; discriminate].
      * intros _. reflexivity.
      * intros; lia.
    + rewrite Hfh. cbn [fprintf].
      eexists. split; [reflexivity |]. cbn [written set_written app].
      split; [| split].
      * split; [intros _; exact Hle | intros _; apply app_grows; discriminate].
      * intros _. reflexivity.
      * intros; lia.
  - assert (Hgt : out_vlevel st < vlevel).
    { destruct (Z.lt_ge_cases (out_vlevel st) vlevel) as [H | H]; [exact H |].
      apply Hg in H. congruence. }
    exists st. split; [reflexivity |]. split; [| split].
    + split; [intros H; now elim H | intros; lia].
    + intros; lia.
    + intros _. reflexivity.
Qed.

Lemma outv_writes_iff_gate_open_witness :
  out_fh st0 = Some stdout /\
  outv st0 0 "pool" = Some (set_written st0 [(stdout, "pool"%string)]).
Proof.
  split; [reflexivity |].
  destruct (outv_writes_iff_gate_open st0 stdout 0 "pool" eq_refl)
    as (_ & st' & Hrun & _ & Hopen & _).
  rewrite Hrun. f_equal. apply Hopen. cbn. lia.
Defined.

(** * Size strings *)

Lemma fmt_lu_plain (v : Z) :
  no_nul (fmt_lu v) = true /\ (String.length (fmt_lu v) <= 255)%nat.
Proof.
  unfold fmt_lu. split; [now apply digits_no_nul |].
  pose proof (digits_length_le 10 20 (v mod two64) EmptyString) as H.
  cbn [String.length] in H. lia.
Qed.

(** Below [2 ^ 63] the bytes mode prints the size itself. *)
Lemma out_get_size_str_bytes_small (size : Z) :
  0 <= size < two63 -> out_get_size_str size 0 = fmt_lu size.
Proof.
  intros Hs. unfold out_get_size_str. cbn [truthy Z.eqb negb].
  assert (E : fmt_ld size = fmt_lu size).
  { unfold fmt_ld, fmt_lu. cbv zeta.
    rewrite Z.mod_small by (unfold two63, two64 in *; lia).
    destruct (size <? two63) eqn:E; [reflexivity | apply Z.ltb_ge in E; lia]. }
  rewrite E. apply str_buff_result_id; apply fmt_lu_plain.
Qed.

(** C7: in bytes mode the size goes through [%ld], so a size of
    [2 ^ 63] or more is printed as a negative number: the largest size
    comes out as [-1] and not as its decimal representation. *)
Theorem out_get_size_str_bytes_signed :
  out_get_size_str (two64 - 1) 0 = "-1"%string /\
  fmt_lu (two64 - 1) = "18446744073709551615"%string /\
  out_get_size_str (two64 - 1) 0 <> fmt_lu (two64 - 1).
Proof. vm_compute. repeat split. discriminate. Qed.

(** The sizes the specification works out. *)
Lemma out_get_size_str_examples :
  out_get_size_str 1023 1 = "1023"%string /\
  out_get_size_str 1024 1 = "1.0K"%string /\
  out_get_size_str 1536 1 = "1.5K"%string /\
  out_get_size_str 1536 2 = "1.5K [1536]"%string /\
  out_get_size_str (1024 ^ 0) 1 = "1"%string /\
  out_get_size_str (1024 ^ 1) 1 = "1.0K"%string /\
  out_get_size_str (1024 ^ 2) 1 = "1.0M"%string /\
  out_get_size_str (1024 ^ 3) 1 = "1.0G"%string /\
  out_get_size_str (1024 ^ 4) 1 = "1.0T"%string.
Proof. vm_compute. repeat split. Qed.

(** C6: the unit array counts its terminator as a fifth unit, so the
    loop divides a size of [1024 ^ 5] five times and the chosen unit is the
    NUL character: the string ends after the number and carries no unit
    letter.  From [1024 ^ 6] on no unit is left and the size is printed in
    decimal. *)
Theorem out_get_size_str_past_tera :
  nunits = 5 /\
  size_loop 6 (double_of_u64 (1024 ^ 5)) (double_of_u64 (1024 ^ 5)) (-1) =
    (mk_double (1024 ^ 5) (-50), mk_double (1024 ^ 5) (-50), 4) /\
  nth 4 units NUL = NUL /\
  out_get_size_str (1024 ^ 5) 1 = "1.0"%string /\
  out_get_size_str (1024 ^ 5) 2 = "1.0"%string /\
  out_get_size_str (1024 ^ 5 - 1) 1 = "1024.0T"%string /\
  out_get_size_str (1024 ^ 6) 1 = "1152921504606846976"%string.
Proof. vm_compute. repeat split. Qed.

(** * Checksum strings *)

Lemma load_store_same (m : memory) (p v : Z) :
  load64 (store64 m p v) p = v mod two64.
Proof.
  unfold load64, store64. rewrite Z.eqb_refl.
  apply Z.mod_mod. unfold two64. lia.
Qed.

Lemma load64_idem (m : memory) (p : Z) : load64 m p mod two64 = load64 m p.
Proof. unfold load64. apply Z.mod_mod. unfold two64. lia. Qed.

Lemma checksum_text32_plain (valid : bool) (stored expected : Z) :
  str_buff_result
    (if valid then ("0x" ++ fmt_08x (u32 stored) ++ " [OK]")%string
     else ("0x" ++ fmt_08x (u32 stored) ++ " [wrong! should be: 0x" ++
           fmt_08x (u32 expected) ++ "]")%string) =
  (if valid then ("0x" ++ fmt_08x (u32 stored) ++ " [OK]")%string
   else ("0x" ++ fmt_08x (u32 stored) ++ " [wrong! should be: 0x" ++
         fmt_08x (u32 expected) ++ "]")%string).
Proof.
  apply str_buff_result_id.
  - destruct valid; rewrite !no_nul_append, !fmt_08x_no_nul; reflexivity.
  - destruct valid; rewrite !length_append, !fmt_08x_length; cbn; lia.
Qed.

(** C5: whatever the validator answers and whatever it leaves in
    memory, after [out_get_checksum] the 64-bit value at [csump] is the one
    it held before the call.  The string shows the low 32 bits of that
    stored value in eight hex digits followed by [[OK]] when the validator
    reports valid, and otherwise followed by the low 32 bits of the value
    the validator left behind. *)
Theorem out_get_checksum_restores
  (util_validate_checksum : memory -> Z -> Z -> Z -> Z * memory)
  (m : memory) (addr len csump : Z) :
  let stored := load64 m csump in
  let valid := fst (util_validate_checksum m addr len csump) in
  let expected := load64 (snd (util_validate_checksum m addr len csump)) csump in
  load64 (snd (out_get_checksum util_validate_checksum m addr len csump)) csump
    = stored /\
  fst (out_get_checksum util_validate_checksum m addr len csump) =
    (if truthy valid then ("0x" ++ fmt_08x (u32 stored) ++ " [OK]")%string
     else ("0x" ++ fmt_08x (u32 stored) ++ " [wrong! should be: 0x" ++
           fmt_08x (u32 expected) ++ "]")%string) /\
  String.length (fmt_08x (u32 stored)) = 8%nat /\
  String.length (fmt_08x (u32 expected)) = 8%nat.
Proof.
  cbv zeta. unfold out_get_checksum.
  destruct (util_validate_checksum m addr len csump) as [valid m1].
  cbn [fst snd]. split; [| split; [| split]].
  - rewrite load_store_same. apply load64_idem.
  - pose proof (checksum_text32_plain (truthy valid) (load64 m csump)
                  (load64 m1 csump)) as H.
    destruct (truthy valid); exact H.
  - apply fmt_08x_length.
  - apply fmt_08x_length.
Qed.

(** A stored checksum of [2 ^ 32] that the validator accepts: the string
    shows eight zeros, not the stored value. *)
Lemma out_get_checksum_cuts_to_32_bits :
  let m := store64 mem0 8 two32 in
  load64 m 8 = two32 /\
  fst (validate_against two32 m 0 64 8) = 1 /\
  fst (out_get_checksum (validate_against two32) m 0 64 8)
    = "0x00000000 [OK]"%string /\
  checksum_text true (load64 m 8) two32 = "0x100000000 [OK]"%string /\
  fst (out_get_checksum (validate_against two32) m 0 64 8)
    <> checksum_text true (load64 m 8) two32.
Proof. vm_compute. repeat split. discriminate. Qed.

(** * Lines of a dump *)

Lemma row_at_full (datap : list byte) (curr len : nat) :
  (curr + len = List.length datap)%nat ->
  row_at datap curr len = firstn 16 (skipn curr datap).
Proof.
  intros Hlen. unfold row_at, row_width.
  change (Z.to_nat HEXDUMP_ROW_WIDTH) with 16%nat.
  destruct (Nat.le_gt_cases len 16) as [H | H].
  - rewrite Nat.min_l by exact H.
    rewrite !firstn_all2; [reflexivity | |]; rewrite length_skipn; lia.
  - rewrite Nat.min_r by lia. reflexivity.
Qed.

Lemma row_line_spec (datap : list byte) (offset : Z) (curr len : nat) :
  (0 < len)%nat -> (curr + len = List.length datap)%nat ->
  row_line datap offset curr len =
  spec_row (size_add (Z.of_nat curr) offset) (firstn 16 (skipn curr datap)).
Proof.
  intros Hpos Hlen. unfold row_line.
  rewrite row_text_spec by now apply row_at_length.
  now rewrite row_at_full.
Qed.

Lemma row_line_is_row (datap : list byte) (offset : Z) (curr len : nat) :
  (0 < len)%nat -> (curr + len = List.length datap)%nat ->
  (Nat.modulo curr 16 = 0)%nat ->
  is_row_line datap offset (row_line datap offset curr len).
Proof.
  intros Hpos Hlen Hmod. exists curr.
  split; [lia | split; [exact Hmod | now apply row_line_spec]].
Qed.

Lemma spec_row_long (off : Z) (row : list byte) :
  (49 <= String.length (spec_row off row))%nat.
Proof.
  unfold spec_row. rewrite !length_append, pad_right_length. lia.
Qed.

Lemma spec_row_not_star (off : Z) (row : list byte) :
  spec_row off row <> star_line.
Proof.
  intros H. pose proof (spec_row_long off row) as Hl.
  rewrite H in Hl. cbn in Hl. lia.
Qed.

Lemma is_row_line_not_star (datap : list byte) (offset : Z) (s : string) :
  is_row_line datap offset s -> s <> star_line.
Proof. intros (curr & _ & _ & ->). apply spec_row_not_star. Qed.

(** The widths of the fields of a row. *)
Lemma spec_row_widths (off : Z) (row : list byte) :
  (1 <= List.length row <= 16)%nat ->
  String.length (pad_right (16 * 3 + 1) (spec_hex_column row)) = 49%nat /\
  String.length (pad_right 16 (spec_ascii_column row)) = 16%nat /\
  (0 <= off < two32 ->
   String.length (pad_zero 8 (fmt_lx off)) = 8%nat /\
   String.length (spec_row off row) = 79%nat).
Proof.
  intros Hrow.
  assert (Hh : (String.length (spec_hex_column row) <= 48)%nat).
  { pose proof (hex_text_length row Hrow) as H.
    rewrite (hex_text_spec row Hrow), length_append in H. cbn [String.length] in H.
    destruct (8 <? List.length row)%nat; lia. }
  assert (Ha : (String.length (spec_ascii_column row) <= 16)%nat).
  { rewrite <- ascii_text_spec, ascii_text_length. lia. }
  assert (H1 : String.length (pad_right (16 * 3 + 1) (spec_hex_column row)) = 49%nat)
    by (rewrite pad_right_length; lia).
  assert (H2 : String.length (pad_right 16 (spec_ascii_column row)) = 16%nat)
    by (rewrite pad_right_length; lia).
  split; [exact H1 | split; [exact H2 |]].
  intros Hoff. pose proof (fmt_08lx_length off Hoff) as H8.
  unfold fmt_08lx in H8. split; [exact H8 |].
  unfold spec_row. rewrite !length_append, H1, H2, H8. reflexivity.
Qed.

Lemma same_as_prev_true (datap : list byte) (len curr prev : nat) :
  same_as_prev datap len (Nat.min len row_width) curr prev = true ->
  (16 < len)%nat /\ (0 < curr)%nat.
Proof.
  unfold same_as_prev, row_width.
  change (Z.to_nat HEXDUMP_ROW_WIDTH) with 16%nat.
  intros H. apply andb_true_iff in H as [H _].
  apply andb_true_iff in H as [H1 H2].
  apply negb_true_iff, Nat.eqb_neq in H1, H2. lia.
Qed.

Lemma firstn_skipn_last (datap : list byte) (curr len : nat) :
  (0 < len <= 16)%nat -> (curr + len = List.length datap)%nat ->
  (Nat.modulo curr 16 = 0)%nat ->
  curr = last_start datap /\ firstn 16 (skipn curr datap) = skipn curr datap.
Proof.
  intros Hl Hlen Hmod. split.
  - unfold last_start. rewrite <- Hlen.
    pose proof (Nat.div_mod_eq curr 16) as Hc. rewrite Hmod in Hc.
    assert (Hq : ((curr + len - 1) / 16 = curr / 16)%nat).
    { symmetry. apply (Nat.div_unique _ 16 _ (len - 1)); lia. }
    rewrite Hq. lia.
  - apply firstn_all2. rewrite length_skipn. lia.
Qed.

Lemma first_last_step (datap : list byte) (offset : Z)
  (len curr prev : nat) (rep n : Z) (out : list string) :
  first_last_inv datap offset len curr prev rep n out ->
  (0 < len)%nat -> (curr + len = List.length datap)%nat ->
  let curr_len := Nat.min len row_width in
  if same_as_prev datap len curr_len curr prev then
    if negb (truthy rep)
    then first_last_inv datap offset (len - curr_len) (curr + curr_len) prev 1 n
           (out ++ [star_line])
    else first_last_inv datap offset (len - curr_len) (curr + curr_len) prev rep n out
  else
    first_last_inv datap offset (len - curr_len) (curr + curr_len) curr 0
      (slen (row_line datap offset curr len))
      (out ++ [row_line datap offset curr len]).
Proof.
  intros (_ & Hmod & Hnil & Hhead & _) Hpos Hlen. cbv zeta.
  specialize (Hmod Hpos).
  destruct (same_as_prev datap len (Nat.min len row_width) curr prev) eqn:Es.
  - apply same_as_prev_true in Es as [Hbig Hcurr].
    destruct (Hhead Hcurr) as [rest Hout].
    unfold row_width. change (Z.to_nat HEXDUMP_ROW_WIDTH) with 16%nat.
    rewrite Nat.min_r by lia.
    assert (Hm : Nat.modulo (curr + 16) 16 = 0%nat).
    { rewrite <- Nat.Div0.add_mod_idemp_l, Hmod. reflexivity. }
    destruct (negb (truthy rep)); (split; [lia | split; [| split; [| split]]]);
      try (intros; lia); try (intros _; exact Hm).
    + intros _. exists (rest ++ [star_line]). now rewrite Hout.
    + intros _. exists rest. exact Hout.
  - rewrite (row_line_spec datap offset curr len Hpos Hlen).
    unfold row_width. change (Z.to_nat HEXDUMP_ROW_WIDTH) with 16%nat.
    split; [lia | split; [| split; [| split]]].
    + intros Hrest. rewrite Nat.min_r by lia.
      rewrite <- Nat.Div0.add_mod_idemp_l, Hmod. reflexivity.
    + intros; lia.
    + intros _. destruct curr as [|curr'].
      * specialize (Hnil eq_refl). subst out. exists []. reflexivity.
      * destruct (Hhead ltac:(lia)) as [rest Hout].
        exists (rest ++ [spec_row (size_add (Z.of_nat (S curr')) offset)
                           (firstn 16 (skipn (S curr') datap))]).
        now rewrite Hout.
    + intros Hend.
      destruct (firstn_skipn_last datap curr len) as [Hc Hf]; [lia | lia | exact Hmod |].
      rewrite Hf. unfold last_row. rewrite <- Hc.
      exists out. split; reflexivity.
Qed.

(** A dump with the gate open starts with the first row and ends, before
    the separator, with the last row; the separator is sized by the last
    row. *)
Lemma outv_hexdump_first_last (datap : list byte) (offset : Z)
  (st : out_state) (fh : FILE) (vlevel : Z) :
  out_fh st = Some fh ->
  vlevel <= out_vlevel st ->
  datap <> [] ->
  exists (rest pre : list string),
    first_row datap offset :: rest = pre ++ [last_row datap offset] /\
    forall sep : Z,
      outv_hexdump st vlevel datap offset sep =
      Some (set_written st
              (written st ++ on_stream fh (first_row datap offset :: rest) ++
               sep_writes fh sep (slen (last_row datap offset)))).
Proof.
  intros Hfh Hgate Hne.
  destruct (outv_hexdump_rule datap offset fh (first_last_inv datap offset)
              (first_last_step datap offset))
    with (st := st) (vlevel := vlevel)
    as (lines & curr & prev & rep & n & Hrun & HI); try assumption.
  - split; [lia | split; [| split; [| split]]]; try (intros; lia).
    + intros _. reflexivity.
    + intros _. reflexivity.
    + intros H. destruct datap; [congruence | discriminate].
  - destruct HI as (Hcurr & _ & _ & Hhead & Hlast).
    destruct (Hlast eq_refl) as (pre & Hout & Hn). subst n.
    assert (Hpos : (0 < curr)%nat)
      by (destruct datap; [congruence | cbn [List.length] in Hcurr; lia]).
    destruct (Hhead Hpos) as [rest Hrest].
    rewrite Hrest in Hout, Hrun. exists rest, pre.
    split; [exact Hout | exact Hrun].
Qed.

Lemma snoc_split {A : Type} (out p q : list A) (x y : A) :
  out ++ [x] = p ++ y :: q ->
  (q = [] /\ p = out /\ x = y) \/
  (exists q', q = q' ++ [x] /\ out = p ++ y :: q').
Proof.
  revert q. apply (rev_ind (fun q => out ++ [x] = p ++ y :: q -> _)).
  - intros H. left. apply app_inj_tail in H as [H1 H2]. auto.
  - intros z q _ H. right. exists q.
    change (p ++ y :: q ++ [z]) with (p ++ (y :: q) ++ [z]) in H.
    rewrite app_assoc in H. apply app_inj_tail in H as [H1 H2].
    subst. auto.
Qed.

Lemma stars_follow_rows_nil (datap : list byte) (offset : Z) :
  stars_follow_rows datap offset [].
Proof. intros pre post H. destruct pre; discriminate. Qed.

Lemma stars_follow_rows_row (datap : list byte) (offset : Z)
  (out : list string) (r : string) :
  stars_follow_rows datap offset out ->
  r <> star_line ->
  stars_follow_rows datap offset (out ++ [r]).
Proof.
  intros Hout Hr pre post H.
  apply snoc_split in H as [(_ & _ & H) | (q' & _ & H)];
    [congruence | now apply (Hout pre q')].
Qed.

Lemma stars_follow_rows_star (datap : list byte) (offset : Z)
  (out : list string) (r : string) :
  stars_follow_rows datap offset (out ++ [r]) ->
  is_row_line datap offset r ->
  stars_follow_rows datap offset ((out ++ [r]) ++ [star_line]).
Proof.
  intros Hout Hr pre post H.
  apply snoc_split in H as [(_ & H & _) | (q' & _ & H)].
  - subst pre. exists out, r. auto.
  - now apply (Hout pre q').
Qed.

Lemma shape_step (datap : list byte) (offset : Z)
  (len curr prev : nat) (rep n : Z) (out : list string) :
  shape_inv datap offset len curr prev rep n out ->
  (0 < len)%nat -> (curr + len = List.length datap)%nat ->
  let curr_len := Nat.min len row_width in
  if same_as_prev datap len curr_len curr prev then
    if negb (truthy rep)
    then shape_inv datap offset (len - curr_len) (curr + curr_len) prev 1 n
           (out ++ [star_line])
    else shape_inv datap offset (len - curr_len) (curr + curr_len) prev rep n
           out
  else
    shape_inv datap offset (len - curr_len) (curr + curr_len) curr 0
      (slen (row_line datap offset curr len))
      (out ++ [row_line datap offset curr len]).
Proof.
  intros (_ & Hmod & Hnil & Hhead & Hall & Hstars & Hlast) Hpos Hlen.
  cbv zeta. specialize (Hmod Hpos).
  destruct (same_as_prev datap len (Nat.min len row_width) curr prev) eqn:Es.
  - apply same_as_prev_true in Es as [Hbig Hcurr].
    destruct (Hhead Hcurr) as (r0 & rest & Hout & Hr0).
    unfold row_width. change (Z.to_nat HEXDUMP_ROW_WIDTH) with 16%nat.
    rewrite Nat.min_r by lia.
    assert (Hm : Nat.modulo (curr + 16) 16 = 0%nat).
    { rewrite <- Nat.Div0.add_mod_idemp_l, Hmod. reflexivity. }
    destruct (negb (truthy rep)) eqn:Er.
    + assert (Hrep : rep = 0).
      { unfold truthy in Er. rewrite negb_involutive in Er.
        now apply Z.eqb_eq in Er. }
      destruct (Hlast Hcurr Hrep) as (pre & r & Hpre & Hr).
      split; [lia |]. split; [intros _; exact Hm |].
      split; [intros; lia |].
      split; [intros _; exists r0, (rest ++ [star_line]); now rewrite Hout |].
      split; [apply Forall_app; split; [exact Hall | apply Forall_cons; [left; reflexivity | constructor]] |].
      split; [| intros _ H; discriminate H].
      rewrite Hpre in *. now apply stars_follow_rows_star.
    + assert (Hrep : rep <> 0).
      { unfold truthy in Er. rewrite negb_involutive in Er.
        now apply Z.eqb_neq in Er. }
      split; [lia |]. split; [intros _; exact Hm |].
      split; [intros; lia |].
      split; [intros _; exists r0, rest; auto |].
      split; [exact Hall |]. split; [exact Hstars |].
      intros _ H. congruence.
  - pose proof (row_line_is_row datap offset curr len Hpos Hlen Hmod) as Hrow.
    unfold row_width. change (Z.to_nat HEXDUMP_ROW_WIDTH) with 16%nat.
    split; [lia |]. split.
    { intros Hrest. rewrite Nat.min_r by lia.
      rewrite <- Nat.Div0.add_mod_idemp_l, Hmod. reflexivity. }
    split; [intros; lia |]. split.
    { intros _. destruct curr as [|curr'].
      - specialize (Hnil eq_refl). subst out. eexists _, []. split; [reflexivity | exact Hrow].
      - destruct (Hhead ltac:(lia)) as (r0 & rest & Hout & Hr0).
        exists r0, (rest ++ [row_line datap offset (S curr') len]).
        split; [now rewrite Hout | exact Hr0]. }
    split; [apply Forall_app; split; [exact Hall | apply Forall_cons; [right; exact Hrow | constructor]] |].
    split.
    { apply stars_follow_rows_row; [exact Hstars |].
      now apply (is_row_line_not_star datap offset). }
    intros _ _. exists out, (row_line datap offset curr len). auto.
Qed.

(** A dump with the gate open: every line is the star or a formatted row,
    the first line is a row, and every star comes right after a row. *)
Lemma outv_hexdump_shape (datap : list byte) (offset : Z) (st : out_state)
  (fh : FILE) (vlevel : Z) :
  out_fh st = Some fh ->
  vlevel <= out_vlevel st ->
  datap <> [] ->
  exists (first : string) (rest : list string) (n : Z),
    (forall sep : Z,
       outv_hexdump st vlevel datap offset sep =
       Some (set_written st
               (written st ++ on_stream fh (first :: rest) ++
                sep_writes fh sep n))) /\
    is_row_line datap offset first /\
    Forall (is_dump_line datap offset) (first :: rest) /\
    stars_follow_rows datap offset (first :: rest).
Proof.
  intros Hfh Hgate Hne.
  destruct (outv_hexdump_rule datap offset fh (shape_inv datap offset)
              (shape_step datap offset))
    with (st := st) (vlevel := vlevel)
    as (lines & curr & prev & rep & n & Hrun & HI); try assumption.
  - split; [lia |]. split; [intros _; reflexivity |].
    split; [intros _; reflexivity |]. split; [intros H; inversion H |].
    split; [constructor |]. split; [apply stars_follow_rows_nil |].
    intros H; inversion H.
  - destruct HI as (Hcurr & _ & _ & Hhead & Hall & Hstars & _).
    assert (Hpos : (0 < curr)%nat)
      by (destruct datap; [congruence | cbn [List.length] in Hcurr; lia]).
    destruct (Hhead Hpos) as (r & rest & Hout & Hr).
    rewrite Hout in *. exists r, rest, n. auto.
Qed.

(** * A region of equal bytes *)

Lemma skipn_repeat_byte (b : byte) (c m : nat) :
  skipn c (repeat b m) = repeat b (m - c).
Proof.
  revert m. induction c as [|c IH]; intros m.
  - now rewrite Nat.sub_0_r.
  - destruct m as [|m]; [reflexivity | cbn [repeat skipn]; apply IH].
Qed.

Lemma firstn_repeat_byte (b : byte) (a m : nat) :
  firstn a (repeat b m) = repeat b (Nat.min a m).
Proof.
  revert m. induction a as [|a IH]; intros m; [reflexivity |].
  destruct m as [|m]; [reflexivity |].
  cbn [repeat firstn Nat.min]. now rewrite IH.
Qed.

Lemma byte_eqb_refl (b : byte) : Byte.eqb b b = true.
Proof. destruct b; reflexivity. Qed.

Lemma memcmp_repeat (b : byte) (c : nat) :
  forall x y : nat, memcmp (repeat b x) (repeat b y) c = 0.
Proof.
  induction c as [|c IH]; intros x y; [reflexivity |].
  destruct x as [|x], y as [|y]; try reflexivity.
  cbn [repeat memcmp]. rewrite byte_eqb_refl. apply IH.
Qed.

Lemma same_as_prev_repeat (b : byte) (m len curr prev : nat) :
  same_as_prev (repeat b m) len (Nat.min len row_width) curr prev =
  negb (Nat.eqb len (Nat.min len row_width)) && negb (Nat.eqb curr 0).
Proof.
  unfold same_as_prev. rewrite !skipn_repeat_byte, memcmp_repeat.
  cbn [truthy Z.eqb negb]. now rewrite andb_true_r.
Qed.

Lemma row_line_repeat (b : byte) (m : nat) (offset : Z) (curr len : nat) :
  (16 <= len)%nat -> (curr + len = m)%nat ->
  row_line (repeat b m) offset curr len =
  spec_row (size_add (Z.of_nat curr) offset) (repeat b 16).
Proof.
  intros Hl Hm. rewrite row_line_spec by (rewrite ?repeat_length; lia).
  rewrite skipn_repeat_byte, firstn_repeat_byte.
  now replace (Nat.min 16 (m - curr)) with 16%nat by lia.
Qed.

Lemma run_step (b : byte) (k : nat) (offset : Z)
  (len curr prev : nat) (rep n : Z) (out : list string) :
  (3 <= k)%nat ->
  run_inv b k offset len curr prev rep n out ->
  (0 < len)%nat -> (curr + len = List.length (repeat b (16 * k)))%nat ->
  let curr_len := Nat.min len row_width in
  if same_as_prev (repeat b (16 * k)) len curr_len curr prev then
    if negb (truthy rep)
    then run_inv b k offset (len - curr_len) (curr + curr_len) prev 1 n
           (out ++ [star_line])
    else run_inv b k offset (len - curr_len) (curr + curr_len) prev rep n out
  else
    run_inv b k offset (len - curr_len) (curr + curr_len) curr 0
      (slen (row_line (repeat b (16 * k)) offset curr len))
      (out ++ [row_line (repeat b (16 * k)) offset curr len]).
Proof.
  intros Hk ([j Hj] & Hsum & Hcases) Hpos _. cbv zeta.
  rewrite same_as_prev_repeat.
  assert (H16 : (16 <= len)%nat) by lia.
  rewrite (row_line_repeat b (16 * k) offset curr len H16 Hsum).
  unfold row_width. change (Z.to_nat HEXDUMP_ROW_WIDTH) with 16%nat.
  rewrite Nat.min_r by lia.
  assert (Hj' : exists j' : nat, (curr + 16 = 16 * j')%nat)
    by (exists (S j); lia).
  clear j Hj. unfold run_inv. cbv zeta.
  destruct Hcases as [(H0 & Hout) | [(Hc & Hout & Hrep) |
                        [(Hc & _ & Hout & Hrep) | (Hl & _)]]];
    [| | | lia].
  - (* first row *)
    subst curr out. change (Nat.eqb 0 0) with true.
    cbn [negb app]. rewrite andb_false_r.
    split; [exact Hj' |]. split; [lia |].
    right. left. repeat split.
  - (* second row: the star *)
    subst curr out rep.
    replace (Nat.eqb len 16) with false by (symmetry; apply Nat.eqb_neq; lia).
    change (Nat.eqb 16 0) with false.
    cbn [negb andb truthy Z.eqb app].
    split; [exact Hj' |]. split; [lia |].
    right. right. left. repeat split; [lia | lia | discriminate].
  - (* later rows *)
    subst out.
    replace (Nat.eqb curr 0) with false by (symmetry; apply Nat.eqb_neq; lia).
    assert (Ht : negb (truthy rep) = false).
    { unfold truthy. rewrite negb_involutive. now apply Z.eqb_neq. }
    rewrite Ht. cbn [negb andb]. rewrite andb_true_r.
    destruct (Nat.eqb len 16) eqn:El.
    + apply Nat.eqb_eq in El. subst len. cbn [negb app].
      split; [exact Hj' |]. split; [lia |].
      right. right. right.
      replace curr with (16 * (k - 1))%nat by lia.
      repeat split.
    + apply Nat.eqb_neq in El. cbn [negb].
      split; [exact Hj' |]. split; [lia |].
      right. right. left. repeat split; [lia | lia | exact Hrep].
Qed.

(** * The claims on the hex dump *)

Lemma outv_hexdump_closed (st : out_state) (vlevel : Z) (datap : list byte)
  (offset sep : Z) :
  out_vlevel st < vlevel \/ datap = [] ->
  outv_hexdump st vlevel datap offset sep = Some st.
Proof.
  intros H. unfold outv_hexdump, outv_check.
  destruct H as [H | H].
  - apply Z.leb_gt in H. rewrite H. reflexivity.
  - subst datap. cbn [List.length Nat.eqb]. now rewrite orb_true_r.
Qed.

(** C1: for a region of [16 * k] equal bytes with [k >= 3] and the gate
    open, the dump writes exactly the first row in full, the line made of a
    star and a newline, and the last row in full; the rows in between
    write nothing.  The separator rule, when asked for, follows. *)
Theorem hexdump_equal_rows_elided (st : out_state) (fh : FILE) (vlevel : Z)
  (b : byte) (k : nat) (offset sep : Z) :
  out_fh st = Some fh ->
  vlevel <= out_vlevel st ->
  (3 <= k)%nat ->
  let first := spec_row (size_add 0 offset) (repeat b 16) in
  let last :=
    spec_row (size_add (Z.of_nat (16 * (k - 1))) offset) (repeat b 16) in
  outv_hexdump st vlevel (repeat b (16 * k)) offset sep =
  Some (set_written st
          (written st ++ [(fh, first); (fh, star_line); (fh, last)] ++
           sep_writes fh sep (slen last))).
Proof.
  intros Hfh Hgate Hk. cbv zeta.
  destruct (outv_hexdump_rule (repeat b (16 * k)) offset fh
              (run_inv b k offset)
              (fun len curr prev rep n out HI =>
                 run_step b k offset len curr prev rep n out Hk HI))
    with (st := st) (vlevel := vlevel)
    as (lines & curr & prev & rep & n & Hrun & HI); try assumption.
  - unfold run_inv. cbv zeta. rewrite repeat_length.
    split; [exists 0%nat; reflexivity |]. split; [lia |]. left. auto.
  - intros H. apply (f_equal (@List.length byte)) in H.
    rewrite repeat_length in H. cbn [List.length] in H. lia.
  - rewrite Hrun. destruct HI as (_ & Hsum & Hcases).
    destruct Hcases as [(H0 & _) | [(H0 & _) | [(_ & H0 & _) | (_ & Hout & Hn)]]];
      try lia.
    subst lines n. reflexivity.
Qed.

Lemma hexdump_equal_rows_elided_witness :
  out_fh st0 = Some stdout /\ 0 <= out_vlevel st0 /\ (3 <= 4)%nat /\
  outv_hexdump st0 0 (repeat xff (16 * 4)) 0 0 =
  Some (set_written st0
          (written st0 ++
           [(stdout, spec_row (size_add 0 0) (repeat xff 16));
            (stdout, star_line);
            (stdout, spec_row (size_add (Z.of_nat (16 * (4 - 1))) 0)
                       (repeat xff 16))] ++
           sep_writes stdout 0
             (slen (spec_row (size_add (Z.of_nat (16 * (4 - 1))) 0)
                      (repeat xff 16))))).
Proof.
  assert (H1 : out_fh st0 = Some stdout) by reflexivity.
  assert (H2 : 0 <= out_vlevel st0) by (cbn; lia).
  assert (H3 : (3 <= 4)%nat) by lia.
  split; [exact H1 |]. split; [exact H2 |]. split; [exact H3 |].
  exact (hexdump_equal_rows_elided st0 stdout 0 xff 4 0 0 H1 H2 H3).
Defined.

(** C2: with the gate open and a region that is not empty, the first
    line written is the first row in full and the last line written before
    the separator is the last row in full, also when that row is short and
    whatever the bytes before it are; neither is the star. *)
Theorem hexdump_first_and_last_row_printed (st : out_state) (fh : FILE)
  (vlevel : Z) (datap : list byte) (offset : Z) :
  out_fh st = Some fh ->
  vlevel <= out_vlevel st ->
  datap <> [] ->
  let first := spec_row (size_add 0 offset) (firstn 16 datap) in
  let last :=
    spec_row (size_add (Z.of_nat (last_start datap)) offset)
      (skipn (last_start datap) datap) in
  exists (rest pre : list string),
    first :: rest = pre ++ [last] /\
    first <> star_line /\ last <> star_line /\
    (1 <= List.length (skipn (last_start datap) datap) <= 16)%nat /\
    forall sep : Z,
      outv_hexdump st vlevel datap offset sep =
      Some (set_written st
              (written st ++ on_stream fh (first :: rest) ++
               sep_writes fh sep (slen last))).
Proof.
  intros Hfh Hgate Hne. cbv zeta.
  destruct (outv_hexdump_first_last datap offset st fh vlevel Hfh Hgate Hne)
    as (rest & pre & Heq & Hrun).
  exists rest, pre. unfold first_row, last_row in *.
  split; [exact Heq |].
  split; [apply spec_row_not_star |]. split; [apply spec_row_not_star |].
  split; [| exact Hrun].
  rewrite length_skipn. unfold last_start.
  assert (Hl : (0 < List.length datap)%nat)
    by (destruct datap; [congruence | cbn; lia]).
  pose proof (Nat.div_mod_eq (List.length datap - 1) 16) as Hd.
  pose proof (Nat.mod_upper_bound (List.length datap - 1) 16) as Hm.
  lia.
Qed.

Lemma hexdump_first_and_last_row_printed_witness :
  out_fh st0 = Some stdout /\ 0 <= out_vlevel st0 /\
  repeat x00 17 <> [] /\
  exists (rest pre : list string),
    spec_row (size_add 0 0) (firstn 16 (repeat x00 17)) :: rest =
    pre ++ [spec_row (size_add (Z.of_nat (last_start (repeat x00 17))) 0)
              (skipn (last_start (repeat x00 17)) (repeat x00 17))].
Proof.
  assert (H1 : out_fh st0 = Some stdout) by reflexivity.
  assert (H2 : 0 <= out_vlevel st0) by (cbn; lia).
  assert (H3 : repeat x00 17 <> []) by discriminate.
  split; [exact H1 |]. split; [exact H2 |]. split; [exact H3 |].
  destruct (hexdump_first_and_last_row_printed st0 stdout 0 (repeat x00 17) 0
              H1 H2 H3) as (rest & pre & Heq & _).
  exists rest, pre. exact Heq.
Defined.

(** * The width of a row *)

Lemma digits_length_ge (base : Z) (fuel : nat) :
  forall (v : Z) (acc : string),
    (String.length acc <= String.length (digits base fuel v acc))%nat.
Proof.
  induction fuel as [|fuel IH]; intros v acc; [cbn [digits]; lia |].
  cbn [digits]. cbv zeta.
  destruct (v / base =? 0); [cbn [String.length]; lia |].
  specialize (IH (v / base) (String (digit_char (v mod base)) acc)).
  cbn [String.length] in IH. lia.
Qed.

(** A value of [16 ^ k] or more takes more than [k] hex digits. *)
Lemma hex_digits_lower (k : nat) :
  forall (fuel : nat) (v : Z) (acc : string),
    16 ^ Z.of_nat k <= v -> (k < fuel)%nat ->
    (k + 1 + String.length acc <= String.length (digits 16 fuel v acc))%nat.
Proof.
  induction k as [|k IH]; intros fuel v acc Hv Hf.
  - destruct fuel as [|fuel]; [lia |].
    cbn [digits]. cbv zeta.
    destruct (v / 16 =? 0); [cbn [String.length]; lia |].
    pose proof (digits_length_ge 16 fuel (v / 16)
                  (String (digit_char (v mod 16)) acc)) as H.
    cbn [String.length] in H. lia.
  - destruct fuel as [|fuel]; [lia |].
    cbn [digits]. cbv zeta.
    replace (Z.of_nat (S k)) with (Z.of_nat k + 1) in Hv by lia.
    rewrite Z.pow_add_r in Hv by lia. change (16 ^ 1) with 16 in Hv.
    assert (Hp : 0 < 16 ^ Z.of_nat k) by (apply Z.pow_pos_nonneg; lia).
    assert (Hq : 16 ^ Z.of_nat k <= v / 16)
      by (apply Z.div_le_lower_bound; lia).
    destruct (v / 16 =? 0) eqn:E; [apply Z.eqb_eq in E; lia |].
    specialize (IH fuel (v / 16) (String (digit_char (v mod 16)) acc) Hq
                  ltac:(lia)).
    cbn [String.length] in IH. lia.
Qed.

(** The offset label has eight digits below [2 ^ 32] and nine to sixteen
    from there on. *)
Lemma label_length (off : Z) :
  0 <= off < two64 ->
  (8 <= String.length (pad_zero 8 (fmt_lx off)) <= 16)%nat /\
  (String.length (pad_zero 8 (fmt_lx off)) = 8%nat <-> off < two32).
Proof.
  intros Hoff. rewrite pad_zero_length. unfold fmt_lx.
  rewrite Z.mod_small by exact Hoff.
  assert (Hup : (String.length (digits 16 16 off EmptyString) <= 16)%nat).
  { pose proof (digits_length_le 16 16 off EmptyString) as H.
    cbn [String.length] in H. lia. }
  split; [lia |]. split.
  - intros H8. destruct (Z.lt_ge_cases off two32) as [Hlt | Hge]; [exact Hlt |].
    pose proof (hex_digits_lower 8 16 off EmptyString Hge ltac:(lia)) as H.
    cbn [String.length] in H. lia.
  - intros Hlt.
    destruct (hex_digits_length 7 16 off EmptyString) as [H | H];
      [| | discriminate].
    + change (16 ^ Z.of_nat 8) with two32. lia.
    + cbn [String.length] in H. lia.
Qed.

Lemma size_add_range (a b : Z) : 0 <= size_add a b < two64.
Proof. unfold size_add. apply Z.mod_pos_bound. reflexivity. Qed.

Lemma spec_hex_column_length (row : list byte) :
  (1 <= List.length row <= 16)%nat ->
  (String.length (spec_hex_column row) <= 48)%nat.
Proof.
  intros Hrow. pose proof (hex_text_length row Hrow) as H.
  rewrite (hex_text_spec row Hrow), length_append in H.
  cbn [String.length] in H.
  destruct (8 <? List.length row)%nat; lia.
Qed.

(** Padding to one more column adds a blank. *)
Lemma pad_right_succ (w : nat) (s : string) :
  (String.length s <= w)%nat ->
  pad_right (S w) s = (pad_right w s ++ " ")%string.
Proof.
  intros H. unfold pad_right.
  replace (S w - String.length s)%nat with (S (w - String.length s)) by lia.
  rewrite append_assoc. f_equal.
  now rewrite repeat_char_snoc.
Qed.

(** A row as the program writes it: the hex column fills 50 characters. *)
Lemma spec_row_code_form (off : Z) (row : list byte) :
  (1 <= List.length row <= 16)%nat ->
  spec_row off row =
  (pad_zero 8 (fmt_lx off) ++ "  " ++
   pad_right 50 (spec_hex_column row) ++ "|" ++
   pad_right 16 (spec_ascii_column row) ++ "|" ++ nl)%string.
Proof.
  intros Hrow. pose proof (spec_hex_column_length row Hrow) as Hh.
  unfold spec_row. change (16 * 3 + 1)%nat with 49%nat.
  rewrite (pad_right_succ 49) by lia.
  rewrite !append_assoc. reflexivity.
Qed.

(** Every row, short or full, is 71 bytes and the label long, one byte more
    than the row of the specification. *)
Lemma spec_row_length (off : Z) (row : list byte) :
  (1 <= List.length row <= 16)%nat ->
  String.length (spec_row off row) =
    (71 + String.length (pad_zero 8 (fmt_lx off)))%nat /\
  String.length (spec_row off row) = S (String.length (claimed_row off row)).
Proof.
  intros Hrow. destruct (spec_row_widths off row Hrow) as (H1 & H2 & _).
  unfold spec_row, claimed_row. rewrite !length_append, H1, H2.
  cbn [String.length nl]. lia.
Qed.

(** * The rows and the separator *)

(** C3: every row the dump writes is made of the row offset in
    zero-padded lowercase hex digits, eight of them exactly when the row
    offset is below [2 ^ 32] and nine to sixteen from there on, two spaces,
    the hex column (two-digit tokens separated by single spaces, one extra
    space between the 8th and the 9th) padded to 50 characters, so that at
    least two blanks stand before the bar, a bar, the ASCII column (a dot
    for a byte that is not printable) padded to 16 characters, a bar and a
    newline.  That is 71 bytes and the label, one byte more than the full
    row format of the specification.  Every line written is such a row or
    the star. *)
Theorem hexdump_row_format (st : out_state) (fh : FILE) (vlevel : Z)
  (datap : list byte) (offset : Z) :
  out_fh st = Some fh ->
  vlevel <= out_vlevel st ->
  datap <> [] ->
  exists (lines : list string) (n : Z),
    lines <> [] /\
    (forall sep : Z,
       outv_hexdump st vlevel datap offset sep =
       Some (set_written st
               (written st ++ on_stream fh lines ++ sep_writes fh sep n))) /\
    forall s : string,
      In s lines ->
      s = star_line \/
      exists curr : nat,
        let off := size_add (Z.of_nat curr) offset in
        let row := firstn 16 (skipn curr datap) in
        let label := pad_zero 8 (fmt_lx off) in
        (curr < List.length datap)%nat /\
        (1 <= List.length row <= 16)%nat /\
        s = (label ++ "  " ++
             pad_right 50 (spec_hex_column row) ++ "|" ++
             pad_right 16 (spec_ascii_column row) ++ "|" ++ nl)%string /\
        (String.length (spec_hex_column row) <= 48)%nat /\
        String.length (pad_right 50 (spec_hex_column row)) = 50%nat /\
        String.length (pad_right 16 (spec_ascii_column row)) = 16%nat /\
        (8 <= String.length label <= 16)%nat /\
        (String.length label = 8%nat <-> off < two32) /\
        String.length s = (71 + String.length label)%nat /\
        String.length s = S (String.length (claimed_row off row)).
Proof.
  intros Hfh Hgate Hne.
  destruct (outv_hexdump_shape datap offset st fh vlevel Hfh Hgate Hne)
    as (first & rest & n & Hrun & _ & Hall & _).
  exists (first :: rest), n. split; [discriminate |]. split; [exact Hrun |].
  intros s Hin. rewrite Forall_forall in Hall.
  destruct (Hall s Hin) as [Hs | (curr & Hlt & _ & Hs)]; [now left | right].
  exists curr. cbv zeta.
  set (off := size_add (Z.of_nat curr) offset) in *.
  set (row := firstn 16 (skipn curr datap)) in *.
  assert (Hrow : (1 <= List.length row <= 16)%nat)
    by (unfold row; rewrite length_firstn, length_skipn; lia).
  pose proof (spec_hex_column_length row Hrow) as Hh.
  destruct (spec_row_widths off row Hrow) as (_ & Hw2 & _).
  destruct (label_length off (size_add_range _ _)) as (Hl1 & Hl2).
  destruct (spec_row_length off row Hrow) as (Hs1 & Hs2).
  split; [exact Hlt |]. split; [exact Hrow |].
  split; [rewrite Hs; now apply spec_row_code_form |].
  split; [exact Hh |].
  split; [rewrite pad_right_length; lia |].
  split; [exact Hw2 |]. split; [exact Hl1 |]. split; [exact Hl2 |].
  rewrite Hs. split; [exact Hs1 | exact Hs2].
Qed.

Lemma hexdump_row_format_witness :
  out_fh st0 = Some stdout /\ 0 <= out_vlevel st0 /\
  [x48; x65; x6c; x6c; x6f; x0a] <> [] /\
  exists (lines : list string) (n : Z),
    forall sep : Z,
      outv_hexdump st0 0 [x48; x65; x6c; x6c; x6f; x0a] 256 sep =
      Some (set_written st0
              (written st0 ++ on_stream stdout lines ++
               sep_writes stdout sep n)).
Proof.
  assert (H1 : out_fh st0 = Some stdout) by reflexivity.
  assert (H2 : 0 <= out_vlevel st0) by (cbn; lia).
  assert (H3 : [x48; x65; x6c; x6c; x6f; x0a] <> []) by discriminate.
  split; [exact H1 |]. split; [exact H2 |]. split; [exact H3 |].
  destruct (hexdump_row_format st0 stdout 0 [x48; x65; x6c; x6c; x6f; x0a]
              256 H1 H2 H3) as (lines & n & _ & Hrun & _).
  exists lines, n. exact Hrun.
Defined.

(** The six bytes of [Hello] and a newline at offset 0x100: the program
    writes the bar in column 60 and 79 bytes in all, where the row of the
    specification has the bar in column 59 and 78 bytes.  At offset
    [2 ^ 32] the label has nine digits and the line 80 bytes. *)
Lemma hexdump_row_wider_than_claimed :
  let row := [x48; x65; x6c; x6c; x6f; x0a] in
  dumped (outv_hexdump st0 0 row 256 0) =
    Some ("00000100  48 65 6c 6c 6f 0a                                 |Hello.          |" ++ nl)%string /\
  claimed_row 256 row =
    ("00000100  48 65 6c 6c 6f 0a                                |Hello.          |" ++ nl)%string /\
  dumped (outv_hexdump st0 0 row 256 0) <> Some (claimed_row 256 row) /\
  dumped (outv_hexdump st0 0 [x00] two32 0) =
    Some ("100000000  00                                                |.               |" ++ nl)%string /\
  String.length (pad_zero 8 (fmt_lx two32)) = 9%nat.
Proof.
  cbv zeta. split; [vm_compute; reflexivity |].
  split; [vm_compute; reflexivity |].
  split; [vm_compute; discriminate |].
  split; vm_compute; reflexivity.
Qed.

(** C4: when [sep] is not zero and the dump wrote a row, one more line
    follows the dump: [N - 1] dashes and a newline, where [N] is the byte
    count of the last row written.  A short last row is as wide as a full
    row with the same offset label: 71 bytes and the label, which makes 79
    exactly when the offset of the last row is below [2 ^ 32].  When [sep]
    is zero nothing follows the rows, and when no row was written, because
    the gate is closed or the region is empty, nothing is written at
    all. *)
Theorem hexdump_separator_line (st : out_state) (fh : FILE) (vlevel : Z)
  (datap : list byte) (offset : Z) :
  out_fh st = Some fh ->
  (vlevel <= out_vlevel st -> datap <> [] ->
   let off := size_add (Z.of_nat (last_start datap)) offset in
   let last := spec_row off (skipn (last_start datap) datap) in
   exists (pre : list string),
     outv_hexdump st vlevel datap offset 0 =
     Some (set_written st (written st ++ on_stream fh (pre ++ [last]))) /\
     (forall sep : Z,
        sep <> 0 ->
        outv_hexdump st vlevel datap offset sep =
        Some (set_written st
                (written st ++ on_stream fh (pre ++ [last]) ++
                 repeat (fh, String SEPARATOR_CHAR EmptyString)
                   (String.length last - 1) ++
                 [(fh, nl)]))) /\
     String.length last =
       (71 + String.length (pad_zero 8 (fmt_lx off)))%nat /\
     (forall full : list byte,
        List.length full = 16%nat ->
        String.length last = String.length (spec_row off full)) /\
     (String.length last = 79%nat <-> off < two32)) /\
  (out_vlevel st < vlevel \/ datap = [] ->
   forall sep : Z, outv_hexdump st vlevel datap offset sep = Some st).
Proof.
  intros Hfh. split.
  - intros Hgate Hne. cbv zeta.
    destruct (outv_hexdump_first_last datap offset st fh vlevel Hfh Hgate Hne)
      as (rest & pre & Heq & Hrun).
    unfold first_row, last_row in *. rewrite Heq in Hrun.
    set (off := size_add (Z.of_nat (last_start datap)) offset) in *.
    set (last := spec_row off (skipn _ _)) in *.
    assert (Hlen : (49 <= String.length last)%nat) by apply spec_row_long.
    assert (Hrow : (1 <= List.length (skipn (last_start datap) datap) <= 16)%nat).
    { rewrite length_skipn. unfold last_start.
      assert (Hl : (0 < List.length datap)%nat)
        by (destruct datap; [congruence | cbn; lia]).
      pose proof (Nat.div_mod_eq (List.length datap - 1) 16) as Hd.
      pose proof (Nat.mod_upper_bound (List.length datap - 1) 16) as Hm.
      lia. }
    destruct (spec_row_length off _ Hrow) as (Hw & _). fold last in Hw.
    destruct (label_length off (size_add_range _ _)) as (_ & Hl8).
    exists pre. split; [| split; [| split; [| split]]].
    + rewrite (Hrun 0). unfold sep_writes. cbn [truthy Z.eqb negb andb].
      now rewrite app_nil_r.
    + intros sep Hsep. rewrite (Hrun sep). unfold sep_writes.
      assert (Ht : truthy sep && truthy (slen last) = true).
      { unfold truthy. apply andb_true_iff.
        split; apply negb_true_iff, Z.eqb_neq; [exact Hsep | unfold slen; lia]. }
      rewrite Ht. unfold slen.
      replace (Z.to_nat (Z.of_nat (String.length last) - 1))
        with (String.length last - 1)%nat by lia.
      reflexivity.
    + exact Hw.
    + intros full Hfull.
      destruct (spec_row_length off full ltac:(lia)) as (Hf & _). lia.
    + rewrite <- Hl8. lia.
  - intros H sep. now apply outv_hexdump_closed.
Qed.

Lemma hexdump_separator_line_witness :
  out_fh st0 = Some stdout /\ 0 <= out_vlevel st0 /\
  repeat x00 17 <> [] /\
  exists (pre : list string),
    forall sep : Z,
      sep <> 0 ->
      outv_hexdump st0 0 (repeat x00 17) 0 sep =
      Some (set_written st0
              (written st0 ++
               on_stream stdout
                 (pre ++ [spec_row (size_add (Z.of_nat (last_start (repeat x00 17))) 0)
                            (skipn (last_start (repeat x00 17)) (repeat x00 17))]) ++
               repeat (stdout, String SEPARATOR_CHAR EmptyString)
                 (String.length
                    (spec_row (size_add (Z.of_nat (last_start (repeat x00 17))) 0)
                       (skipn (last_start (repeat x00 17)) (repeat x00 17))) - 1) ++
               [(stdout, nl)])).
Proof.
  assert (H1 : out_fh st0 = Some stdout) by reflexivity.
  assert (H2 : 0 <= out_vlevel st0) by (cbn; lia).
  assert (H3 : repeat x00 17 <> []) by discriminate.
  split; [exact H1 |]. split; [exact H2 |]. split; [exact H3 |].
  destruct (proj1 (hexdump_separator_line st0 stdout 0 (repeat x00 17) 0 H1)
              H2 H3) as (pre & _ & Hsep & _).
  exists pre. exact Hsep.
Defined.

(** Seventeen zero bytes dumped from offset [2 ^ 32 - 16] with the
    separator: the full row is 79 bytes, the last row, whose label has
    nine digits, is 80 bytes, and 79 dashes follow.  The count [N] is 80,
    not the width of the full line of this dump. *)
Lemma hexdump_separator_wider_than_full_row :
  let full := ("fffffff0  00 00 00 00 00 00 00 00  00 00 00 00 00 00 00 00  |................|" ++ nl)%string in
  let last := ("100000000  00                                                |.               |" ++ nl)%string in
  outv_hexdump st0 0 (repeat x00 17) (two32 - 16) 1 =
    Some (set_written st0
            (on_stream stdout [full; last] ++
             repeat (stdout, String SEPARATOR_CHAR EmptyString) 79 ++
             [(stdout, nl)])) /\
  String.length full = 79%nat /\ String.length last = 80%nat /\
  String.length last <> String.length full.
Proof.
  cbv zeta. split; [vm_compute; reflexivity |].
  split; [reflexivity |]. split; [reflexivity | discriminate].
Qed.

(** C10: in the lines one dump writes, the first is a formatted row and
    not the star, every star comes right after a formatted row, and so no
    two stars are next to each other. *)
Theorem hexdump_star_follows_row (st : out_state) (fh : FILE) (vlevel : Z)
  (datap : list byte) (offset : Z) :
  out_fh st = Some fh ->
  vlevel <= out_vlevel st ->
  datap <> [] ->
  exists (first : string) (rest : list string) (n : Z),
    (forall sep : Z,
       outv_hexdump st vlevel datap offset sep =
       Some (set_written st
               (written st ++ on_stream fh (first :: rest) ++
                sep_writes fh sep n))) /\
    is_row_line datap offset first /\ first <> star_line /\
    (forall pre post,
       first :: rest = pre ++ star_line :: post ->
       exists pre' r,
         pre = pre' ++ [r] /\ is_row_line datap offset r /\ r <> star_line) /\
    (forall pre post, first :: rest <> pre ++ star_line :: star_line :: post).
Proof.
  intros Hfh Hgate Hne.
  destruct (outv_hexdump_shape datap offset st fh vlevel Hfh Hgate Hne)
    as (first & rest & n & Hrun & Hfirst & _ & Hstars).
  exists first, rest, n. split; [exact Hrun |]. split; [exact Hfirst |].
  split; [now apply (is_row_line_not_star datap offset) |].
  split.
  - intros pre post Heq. destruct (Hstars pre post Heq) as (pre' & r & Hp & Hr).
    exists pre', r. split; [exact Hp |]. split; [exact Hr |].
    now apply (is_row_line_not_star datap offset).
  - intros pre post Heq.
    change (pre ++ star_line :: star_line :: post)
      with (pre ++ [star_line] ++ star_line :: post) in Heq.
    rewrite app_assoc in Heq.
    destruct (Hstars _ _ Heq) as (pre' & r & Hp & Hr).
    apply app_inj_tail in Hp as [_ Hp]. subst r.
    now apply (is_row_line_not_star datap offset star_line).
Qed.

Lemma hexdump_star_follows_row_witness :
  out_fh st0 = Some stdout /\ 0 <= out_vlevel st0 /\
  repeat xff 48 <> [] /\
  exists (first : string) (rest : list string),
    is_row_line (repeat xff 48) 0 first /\
    forall pre post, first :: rest <> pre ++ star_line :: star_line :: post.
Proof.
  assert (H1 : out_fh st0 = Some stdout) by reflexivity.
  assert (H2 : 0 <= out_vlevel st0) by (cbn; lia).
  assert (H3 : repeat xff 48 <> []) by discriminate.
  split; [exact H1 |]. split; [exact H2 |]. split; [exact H3 |].
  destruct (hexdump_star_follows_row st0 stdout 0 (repeat xff 48) 0 H1 H2 H3)
    as (first & rest & n & _ & Hf & _ & _ & Hss).
  exists first, rest. split; [exact Hf | exact Hss].
Defined.

(** * The row assemblers *)

Lemma snprintf_returns (buf : cbuf) (pos n : Z) (s : string) (buf' : cbuf)
  (r : Z) :
  snprintf buf pos n s = Some (buf', r) -> r = slen s.
Proof.
  unfold snprintf. destruct (n =? 0); [congruence |].
  cbv zeta. destruct (_ && _); congruence.
Qed.





(** The row branch taken alone, on a row of 17 bytes, which the loop of
    [outv_hexdump] never passes to it: the hex assembler returns -1, the
    test [ra && rh] takes it for true, and the row is written with
    whatever the hex buffer held. *)
Lemma hexdump_row_written_after_failure :
  let v := mk_hd_vars (zero_buf HEXDUMP_ROW_HEX_LEN)
             (zero_buf HEXDUMP_ROW_ASCII_LEN) 0 0 0 0 in
  let row := repeat xff 17 in
  out_get_hex_str (hd_row_hex_str v) HEXDUMP_ROW_HEX_LEN row =
    Some (zero_buf HEXDUMP_ROW_HEX_LEN, -1) /\
  truthy (-1) = true /\
  exists v',
    hexdump_row HEXDUMP_ROW_HEX_LEN HEXDUMP_ROW_ASCII_LEN HEXDUMP_ROW_WIDTH
      st0 v row 0 =
    Some (v', set_written st0
                [(stdout,
                  ("00000000                                                    |................|"
                   ++ nl)%string)]).
Proof.
  cbv zeta. split; [reflexivity |]. split; [reflexivity |].
  eexists. vm_compute. reflexivity.
Qed.

(** * The dump as a function of the rows *)

Lemma byte_eqb_eq (a b : byte) : Byte.eqb a b = true <-> a = b.
Proof. split; [apply Byte.byte_dec_bl | apply Byte.byte_dec_lb]. Qed.

Lemma byte_val_inj (a b : byte) : byte_val a = byte_val b -> a = b.
Proof.
  unfold byte_val. intros H. apply N2Z.inj in H.
  pose proof (Byte.of_to_N a) as Ha. rewrite H, Byte.of_to_N in Ha.
  congruence.
Qed.

Lemma bytes_eqb_eq (p : list byte) :
  forall q, bytes_eqb p q = true <-> p = q.
Proof.
  induction p as [|a p IH]; intros [|b q]; cbn [bytes_eqb];
    try (split; [discriminate | discriminate]); [tauto |].
  rewrite andb_true_iff, byte_eqb_eq, IH.
  split; [intros [-> ->]; reflexivity | intros H; injection H; auto].
Qed.

(** [memcmp] over [k] bytes that both regions hold is zero exactly when
    the regions agree on them. *)
Lemma memcmp_zero (k : nat) :
  forall p q : list byte,
    (k <= List.length p)%nat -> (k <= List.length q)%nat ->
    (memcmp p q k = 0 <-> firstn k p = firstn k q).
Proof.
  induction k as [|k IH]; intros p q Hp Hq; [cbn; tauto |].
  destruct p as [|a p]; [cbn in Hp; lia |].
  destruct q as [|b q]; [cbn in Hq; lia |].
  cbn [memcmp firstn]. cbn [List.length] in Hp, Hq.
  destruct (Byte.eqb a b) eqn:E.
  - apply byte_eqb_eq in E. subst b. rewrite IH by lia.
    split; [intros ->; reflexivity | intros H; injection H; auto].
  - apply Byte.eqb_false in E. split.
    + intros H. exfalso. apply E, byte_val_inj. lia.
    + intros H. injection H as H _. contradiction.
Qed.

Lemma dump_lines_unfold (datap : list byte) (offset : Z) (i k : nat)
  (elided : bool) :
  dump_lines datap offset i (S k) elided =
  if Nat.ltb 0 i && Nat.ltb 0 k &&
     bytes_eqb (nth_row datap (i - 1)) (nth_row datap i)
  then
    (if elided then [] else [star_line]) ++
    dump_lines datap offset (S i) k true
  else
    spec_row (size_add (Z.of_nat (16 * i)) offset) (nth_row datap i) ::
    dump_lines datap offset (S i) k false.
Proof. reflexivity. Qed.

(** The test of the loop is the test of [dump_lines]. *)
Lemma same_as_prev_rows (datap : list byte) (len curr prev : nat) :
  (0 < len)%nat -> (curr + len = List.length datap)%nat ->
  Nat.modulo curr 16 = 0%nat ->
  ((0 < curr)%nat ->
   (prev + 16 <= curr)%nat /\
   firstn 16 (skipn prev datap) = nth_row datap (curr / 16 - 1)) ->
  same_as_prev datap len (Nat.min len row_width) curr prev =
  Nat.ltb 0 (curr / 16) && Nat.ltb 0 ((len - Nat.min len row_width + 15) / 16) &&
  bytes_eqb (nth_row datap (curr / 16 - 1)) (nth_row datap (curr / 16)).
Proof.
  intros Hpos Hlen Hmod Hprev. unfold same_as_prev, row_width.
  change (Z.to_nat HEXDUMP_ROW_WIDTH) with 16%nat.
  pose proof (Nat.div_mod_eq curr 16) as Hc. rewrite Hmod in Hc.
  destruct (Nat.eqb curr 0) eqn:E0.
  - apply Nat.eqb_eq in E0. subst curr. cbn [Nat.div negb andb].
    rewrite andb_false_r. reflexivity.
  - apply Nat.eqb_neq in E0.
    assert (Hi : Nat.ltb 0 (curr / 16) = true) by (apply Nat.ltb_lt; lia).
    rewrite Hi. cbn [negb andb]. rewrite andb_true_r.
    destruct (Nat.le_gt_cases len 16) as [Hs | Hb].
    + rewrite Nat.min_l by lia. rewrite Nat.eqb_refl, Nat.sub_diag.
      reflexivity.
    + rewrite Nat.min_r by lia.
      replace (Nat.eqb len 16) with false by (symmetry; apply Nat.eqb_neq; lia).
      assert (Hk : Nat.ltb 0 ((len - 16 + 15) / 16) = true).
      { apply Nat.ltb_lt. apply Nat.div_str_pos. lia. }
      rewrite Hk. cbn [negb andb].
      destruct (Hprev ltac:(lia)) as [Hle Hrow].
      unfold nth_row at 2. replace (16 * (curr / 16))%nat with curr by lia.
      rewrite <- Hrow.
      destruct (bytes_eqb (firstn 16 (skipn prev datap))
                  (firstn 16 (skipn curr datap))) eqn:Eb.
      * apply bytes_eqb_eq in Eb.
        apply (memcmp_zero 16) in Eb; [| rewrite length_skipn; lia ..].
        rewrite Eb. reflexivity.
      * unfold truthy. rewrite negb_involutive.
        apply Z.eqb_neq. intros Hm.
        apply (memcmp_zero 16) in Hm; [| rewrite length_skipn; lia ..].
        apply bytes_eqb_eq in Hm. congruence.
Qed.

Lemma dump_lines_none (datap : list byte) (offset : Z) (i : nat)
  (elided : bool) : dump_lines datap offset i 0 elided = [].
Proof. reflexivity. Qed.

Lemma lines_step (datap : list byte) (offset : Z)
  (len curr prev : nat) (rep n : Z) (out : list string) :
  lines_inv datap offset len curr prev rep n out ->
  (0 < len)%nat -> (curr + len = List.length datap)%nat ->
  let curr_len := Nat.min len row_width in
  if same_as_prev datap len curr_len curr prev then
    if negb (truthy rep)
    then lines_inv datap offset (len - curr_len) (curr + curr_len) prev 1 n
           (out ++ [star_line])
    else lines_inv datap offset (len - curr_len) (curr + curr_len) prev rep n
           out
  else
    lines_inv datap offset (len - curr_len) (curr + curr_len) curr 0
      (slen (row_line datap offset curr len))
      (out ++ [row_line datap offset curr len]).
Proof.
  intros (_ & Hmod & Hout & Hprev & _) Hpos Hlen. cbv zeta.
  specialize (Hmod Hpos).
  rewrite (same_as_prev_rows datap len curr prev Hpos Hlen Hmod)
    by (intros Hc; now apply Hprev).
  pose proof (Nat.div_mod_eq curr 16) as Hc. rewrite Hmod in Hc.
  set (i := (curr / 16)%nat) in *.
  set (cl := Nat.min len row_width) in *.
  assert (Hcl : cl = Nat.min len 16) by reflexivity.
  assert (Hk : ((len + 15) / 16 = S ((len - cl + 15) / 16))%nat).
  { destruct (Nat.le_gt_cases len 16) as [Hs | Hb].
    - rewrite Hcl, Nat.min_l, Nat.sub_diag by lia.
      change ((0 + 15) / 16)%nat with 0%nat.
      symmetry. apply (Nat.div_unique _ 16 1 (len - 1)); lia.
    - rewrite Hcl, Nat.min_r by lia.
      replace (len + 15)%nat with ((len - 16 + 15) + 1 * 16)%nat by lia.
      rewrite Nat.div_add by lia. lia. }
  rewrite Hk, dump_lines_unfold in Hout.
  assert (Hnext : (0 < len - cl)%nat -> ((curr + cl) / 16 = S i)%nat /\ cl = 16%nat).
  { intros Hrest. assert (cl = 16%nat) by lia. split; [| assumption].
    subst cl. replace (curr + Nat.min len row_width)%nat with (16 + curr)%nat by lia.
    rewrite Hc at 1. replace (16 + (16 * i + 0))%nat with ((1 + i) * 16)%nat by lia.
    now rewrite Nat.div_mul by lia. }
  assert (Hmod' : (0 < len - cl)%nat -> Nat.modulo (curr + cl) 16 = 0%nat).
  { intros Hrest. destruct (Hnext Hrest) as [_ ->].
    rewrite <- Nat.Div0.add_mod_idemp_l, Hmod. reflexivity. }
  assert (Hrow : firstn 16 (skipn curr datap) = nth_row datap i).
  { unfold nth_row. now replace (16 * i)%nat with curr by lia. }
  destruct (Nat.ltb 0 i && Nat.ltb 0 ((len - cl + 15) / 16) &&
            bytes_eqb (nth_row datap (i - 1)) (nth_row datap i)) eqn:Ec.
  - apply andb_true_iff in Ec as [Ec Heq].
    apply andb_true_iff in Ec as [Hi Hk'].
    apply Nat.ltb_lt in Hi, Hk'. apply bytes_eqb_eq in Heq.
    assert (Hrest : (0 < len - cl)%nat).
    { destruct (len - cl)%nat; [cbn in Hk'; lia | lia]. }
    destruct (Hnext Hrest) as [Hidx Hcl16].
    destruct (Hprev ltac:(lia) Hpos) as [Hle Hprow].
    destruct (negb (truthy rep)) eqn:Er.
    + apply negb_true_iff in Er. rewrite Er in Hout.
      split; [lia |]. split; [exact Hmod' |]. split.
      { rewrite Hidx. change (truthy 1) with true.
        rewrite <- app_assoc. exact Hout. }
      split; [| intros; lia].
      intros _ _. split; [lia |]. rewrite Hidx.
      replace (S i - 1)%nat with i by lia. congruence.
    + apply negb_false_iff in Er. rewrite Er in Hout.
      split; [lia |]. split; [exact Hmod' |]. split.
      { rewrite Hidx, Er. exact Hout. }
      split; [| intros; lia].
      intros _ _. split; [lia |]. rewrite Hidx.
      replace (S i - 1)%nat with i by lia. congruence.
  - rewrite (row_line_spec datap offset curr len Hpos Hlen), Hrow.
    replace (Z.of_nat curr) with (Z.of_nat (16 * i)) by lia.
    split; [lia |]. split; [exact Hmod' |]. split.
    { rewrite <- app_assoc. cbn [app]. change (truthy 0) with false.
      destruct (Nat.eq_dec (len - cl) 0) as [Hz | Hnz].
      - rewrite Hz in *. change ((0 + 15) / 16)%nat with 0%nat in *.
        rewrite dump_lines_none in *. exact Hout.
      - destruct (Hnext ltac:(lia)) as [Hidx _]. rewrite Hidx. exact Hout. }
    split.
    { intros _ Hrest. destruct (Hnext Hrest) as [Hidx Hcl16].
      split; [lia |]. rewrite Hidx.
      replace (S i - 1)%nat with i by lia. exact Hrow. }
    intros Hend.
    destruct (firstn_skipn_last datap curr len) as [Hl Hf]; [lia | lia | exact Hmod |].
    unfold last_row. rewrite <- Hl, <- Hf, Hrow.
    replace (Z.of_nat curr) with (Z.of_nat (16 * i)) by lia. reflexivity.
Qed.

(** The invariant [lines_inv] at the exit of the loop gives all the lines
    of a dump. *)
Lemma outv_hexdump_written (st : out_state) (fh : FILE) (vlevel : Z)
  (datap : list byte) (offset : Z) :
  out_fh st = Some fh ->
  vlevel <= out_vlevel st ->
  datap <> [] ->
  forall sep : Z,
    outv_hexdump st vlevel datap offset sep =
    Some (set_written st
            (written st ++
             on_stream fh (dump_lines datap offset 0 (row_count datap) false) ++
             sep_writes fh sep (slen (last_row datap offset)))).
Proof.
  intros Hfh Hgate Hne.
  destruct (outv_hexdump_rule datap offset fh (lines_inv datap offset)
              (lines_step datap offset))
    with (st := st) (vlevel := vlevel)
    as (lines & curr & prev & rep & n & Hrun & HI); try assumption.
  - split; [lia |]. split; [intros _; reflexivity |].
    split; [reflexivity |]. split; [intros H; inversion H |].
    intros H. destruct datap; [congruence | discriminate].
  - destruct HI as (_ & _ & Hout & _ & Hn).
    change ((0 + 15) / 16)%nat with 0%nat in Hout.
    rewrite dump_lines_none, app_nil_r in Hout. cbn [app] in Hout.
    rewrite (Hn eq_refl), Hout in Hrun. exact Hrun.
Qed.

(** With the gate open, the lines of a dump are [dump_lines] of the region:
    rows are written in order, and a row that is neither the first nor the
    last and equals the row right before it is replaced by one star per run
    of such rows.  The separator, when asked for, follows. *)
Theorem outv_hexdump_lines (st : out_state) (fh : FILE) (vlevel : Z)
  (datap : list byte) (offset : Z) :
  out_fh st = Some fh ->
  vlevel <= out_vlevel st ->
  datap <> [] ->
  forall sep : Z,
    outv_hexdump st vlevel datap offset sep =
    Some (set_written st
            (written st ++
             on_stream fh (dump_lines datap offset 0 (row_count datap) false) ++
             sep_writes fh sep (slen (last_row datap offset)))).
Proof.
  intros Hfh Hgate Hne.
  destruct (outv_hexdump_rule datap offset fh (lines_inv datap offset)
              (lines_step datap offset))
    with (st := st) (vlevel := vlevel)
    as (lines & curr & prev & rep & n & Hrun & HI); try assumption.
  - split; [lia |]. split; [intros _; reflexivity |].
    split; [reflexivity |]. split; [intros H; inversion H |].
    intros H. destruct datap; [congruence | discriminate].
  - destruct HI as (_ & _ & Hout & _ & Hn).
    change ((0 + 15) / 16)%nat with 0%nat in Hout.
    rewrite dump_lines_none, app_nil_r in Hout. cbn [app] in Hout.
    rewrite (Hn eq_refl), Hout in Hrun. exact Hrun.
Qed.

Lemma outv_hexdump_lines_witness :
  out_fh st0 = Some stdout /\ 0 <= out_vlevel st0 /\
  repeat xff 48 <> [] /\
  outv_hexdump st0 0 (repeat xff 48) 0 0 =
  Some (set_written st0
          (written st0 ++
           on_stream stdout
             (dump_lines (repeat xff 48) 0 0 (row_count (repeat xff 48)) false) ++
           sep_writes stdout 0 (slen (last_row (repeat xff 48) 0)))).
Proof.
  assert (H1 : out_fh st0 = Some stdout) by reflexivity.
  assert (H2 : 0 <= out_vlevel st0) by (cbn; lia).
  assert (H3 : repeat xff 48 <> []) by discriminate.
  split; [exact H1 |]. split; [exact H2 |]. split; [exact H3 |].
  exact (outv_hexdump_lines st0 stdout 0 (repeat xff 48) 0 H1 H2 H3 0).
Defined.

Lemma dump_lines_all_rows (datap : list byte) (offset : Z) (k : nat) :
  forall i : nat,
    (forall j : nat,
       (i <= j)%nat -> (0 < j)%nat -> (j + 1 < i + k)%nat ->
       nth_row datap (j - 1) <> nth_row datap j) ->
    dump_lines datap offset i k false = all_rows datap offset i k.
Proof.
  induction k as [|k IH]; intros i Hne; [reflexivity |].
  rewrite dump_lines_unfold.
  destruct (Nat.ltb 0 i && Nat.ltb 0 k &&
            bytes_eqb (nth_row datap (i - 1)) (nth_row datap i)) eqn:Ec.
  - apply andb_true_iff in Ec as [Ec Heq].
    apply andb_true_iff in Ec as [Hi Hk].
    apply Nat.ltb_lt in Hi, Hk. apply bytes_eqb_eq in Heq.
    exfalso. apply (Hne i); [lia | lia | lia | exact Heq].
  - unfold all_rows. cbn [seq map]. f_equal.
    apply IH. intros j H1 H2 H3. apply Hne; lia.
Qed.

(** A dump leaves no row out when the region has at most two rows, and
    more generally when no row between the first and the last equals the
    row before it: every row is written, in order, and no star. *)
Theorem outv_hexdump_complete (st : out_state) (fh : FILE) (vlevel : Z)
  (datap : list byte) (offset : Z) :
  out_fh st = Some fh ->
  vlevel <= out_vlevel st ->
  datap <> [] ->
  ((List.length datap <= 32)%nat \/
   forall j : nat,
     (0 < j)%nat -> (j + 1 < row_count datap)%nat ->
     nth_row datap (j - 1) <> nth_row datap j) ->
  forall sep : Z,
    outv_hexdump st vlevel datap offset sep =
    Some (set_written st
            (written st ++
             on_stream fh (all_rows datap offset 0 (row_count datap)) ++
             sep_writes fh sep (slen (last_row datap offset)))).
Proof.
  intros Hfh Hgate Hne Hrows sep.
  rewrite (outv_hexdump_written st fh vlevel datap offset Hfh Hgate Hne).
  rewrite dump_lines_all_rows; [reflexivity |].
  intros j _ Hj Hlast. destruct Hrows as [Hshort | Hall].
  - exfalso. unfold row_count in Hlast.
    assert (((List.length datap + 15) / 16 < 3)%nat).
    { apply Nat.Div0.div_lt_upper_bound. lia. }
    lia.
  - now apply Hall.
Qed.

Lemma outv_hexdump_complete_witness :
  out_fh st0 = Some stdout /\ 0 <= out_vlevel st0 /\
  repeat x00 32 <> [] /\
  ((List.length (repeat x00 32) <= 32)%nat \/
   forall j : nat,
     (0 < j)%nat -> (j + 1 < row_count (repeat x00 32))%nat ->
     nth_row (repeat x00 32) (j - 1) <> nth_row (repeat x00 32) j) /\
  outv_hexdump st0 0 (repeat x00 32) 0 0 =
  Some (set_written st0
          (written st0 ++
           on_stream stdout
             (all_rows (repeat x00 32) 0 0 (row_count (repeat x00 32))) ++
           sep_writes stdout 0 (slen (last_row (repeat x00 32) 0)))).
Proof.
  assert (H1 : out_fh st0 = Some stdout) by reflexivity.
  assert (H2 : 0 <= out_vlevel st0) by (cbn; lia).
  assert (H3 : repeat x00 32 <> []) by discriminate.
  assert (H4 : (List.length (repeat x00 32) <= 32)%nat \/
               forall j : nat,
                 (0 < j)%nat -> (j + 1 < row_count (repeat x00 32))%nat ->
                 nth_row (repeat x00 32) (j - 1) <> nth_row (repeat x00 32) j)
    by (left; rewrite repeat_length; lia).
  split; [exact H1 |]. split; [exact H2 |]. split; [exact H3 |].
  split; [exact H4 |].
  exact (outv_hexdump_complete st0 stdout 0 (repeat x00 32) 0 H1 H2 H3 H4 0).
Defined.

(** The dump does not look at the prefix or at the column width: it writes
    the same lines whatever they are, and no line gets the prefix. *)
Theorem outv_hexdump_ignores_prefix (st : out_state) (fh : FILE)
  (vlevel : Z) (datap : list byte) (offset sep : Z)
  (prefix : option string) (col_width : Z) :
  out_fh st = Some fh ->
  outv_hexdump (out_set_col_width (out_set_prefix st prefix) col_width)
    vlevel datap offset sep =
  option_map (fun s => out_set_col_width (out_set_prefix s prefix) col_width)
    (outv_hexdump st vlevel datap offset sep).
Proof.
  intros Hfh.
  destruct (Z.lt_ge_cases (out_vlevel st) vlevel) as [Hclosed | Hopen].
  - rewrite !outv_hexdump_closed by (left; exact Hclosed). reflexivity.
  - destruct datap as [|b rest].
    + rewrite !outv_hexdump_closed by (right; reflexivity). reflexivity.
    + rewrite (outv_hexdump_written st fh vlevel (b :: rest) offset Hfh Hopen)
        by discriminate.
      rewrite (outv_hexdump_written
                 (out_set_col_width (out_set_prefix st prefix) col_width)
                 fh vlevel (b :: rest) offset Hfh Hopen) by discriminate.
      reflexivity.
Qed.

Lemma outv_hexdump_ignores_prefix_witness :
  out_fh st0 = Some stdout /\
  outv_hexdump (out_set_col_width (out_set_prefix st0 (Some "pmempool"%string)) 8)
    0 [x48; x69] 0 0 =
  option_map
    (fun s => out_set_col_width (out_set_prefix s (Some "pmempool"%string)) 8)
    (outv_hexdump st0 0 [x48; x69] 0 0).
Proof.
  assert (H1 : out_fh st0 = Some stdout) by reflexivity.
  split; [exact H1 |].
  exact (outv_hexdump_ignores_prefix st0 stdout 0 [x48; x69] 0 0
           (Some "pmempool"%string) 8 H1).
Defined.

(** * Streams *)

Lemma stream_bytes_app (f : FILE) (w1 w2 : list write) :
  stream_bytes f (w1 ++ w2) =
  (stream_bytes f w1 ++ stream_bytes f w2)%string.
Proof.
  induction w1 as [|[g s] w1 IH]; [reflexivity |].
  cbn [app stream_bytes]. rewrite IH.
  destruct f as [| |a], g as [| |b]; try reflexivity;
    try (symmetry; apply append_assoc).
  destruct (Nat.eqb a b); [symmetry; apply append_assoc | reflexivity].
Qed.

Lemma stream_bytes_own (f : FILE) (s : string) (w : list write) :
  stream_bytes f ((f, s) :: w) = (s ++ stream_bytes f w)%string.
Proof.
  destruct f as [| |a]; cbn [stream_bytes]; try reflexivity.
  now rewrite Nat.eqb_refl.
Qed.

Lemma stream_bytes_other (f g : FILE) (s : string) (w : list write) :
  f <> g -> stream_bytes f ((g, s) :: w) = stream_bytes f w.
Proof.
  intros Hne. destruct f as [| |a], g as [| |b]; cbn [stream_bytes];
    try reflexivity; try congruence.
  destruct (Nat.eqb a b) eqn:E; [| reflexivity].
  apply Nat.eqb_eq in E. congruence.
Qed.

Lemma append_nil_r (s : string) : (s ++ "")%string = s.
Proof. induction s as [|c s IH]; cbn; [reflexivity | now rewrite IH]. Qed.

(** [out_err] writes the text [error: ] and the message to standard error,
    whatever the verbosity and the configured stream are, also when no
    stream was ever set; no other stream receives anything and the
    configuration is left alone. *)
Theorem out_err_goes_to_stderr (st : out_state) (msg : string) :
  exists st',
    out_err st msg = Some st' /\
    stream_bytes stderr (written st') =
      (stream_bytes stderr (written st) ++ "error: " ++ msg)%string /\
    (forall f, f <> stderr ->
               stream_bytes f (written st') = stream_bytes f (written st)) /\
    out_vlevel st' = out_vlevel st /\ out_fh st' = out_fh st /\
    out_prefix st' = out_prefix st /\
    out_column_width st' = out_column_width st.
Proof.
  eexists. split; [reflexivity |]. cbn [written set_written].
  split; [| split; [| repeat split]].
  - rewrite <- app_assoc, !stream_bytes_app. cbn [app].
    rewrite !stream_bytes_own. cbn [stream_bytes].
    now rewrite (append_nil_r msg).
  - intros f Hf. rewrite <- app_assoc, stream_bytes_app. cbn [app].
    rewrite !stream_bytes_other by exact Hf. cbn [stream_bytes].
    apply append_nil_r.
Qed.

Lemma on_stream_bytes (f : FILE) (lines : list string) :
  stream_bytes f (on_stream f lines) = String.concat "" lines.
Proof.
  induction lines as [|s rest IH]; [reflexivity |].
  cbn [on_stream map]. rewrite stream_bytes_own.
  fold (on_stream f rest). rewrite IH.
  destruct rest; [cbn; apply append_nil_r | reflexivity].
Qed.

Lemma on_stream_other (f g : FILE) (lines : list string) :
  f <> g -> stream_bytes f (on_stream g lines) = EmptyString.
Proof.
  intros Hne. induction lines as [|s rest IH]; [reflexivity |].
  cbn [on_stream map]. rewrite stream_bytes_other by exact Hne. exact IH.
Qed.

Lemma prefix_append (s t : string) : String.prefix s (s ++ t) = true.
Proof.
  induction s as [|c s IH]; cbn [append prefix].
  - destruct t; reflexivity.
  - destruct (ascii_dec c c) as [_ | H]; [exact IH | congruence].
Qed.

(** [outv_field] with the gate open adds one line to the configured
    stream: the prefix, the field name left-justified in the column width
    and never cut, a colon between spaces, the value and a newline.  With
    the gate closed it changes nothing.  The column width is taken to fit
    the [int] that [%-*s] reads. *)
Theorem outv_field_line (st : out_state) (fh : FILE) (vlevel : Z)
  (field msg : string) :
  out_fh st = Some fh ->
  0 <= out_column_width st < 2 ^ 31 ->
  exists st',
    outv_field st vlevel field msg = Some st' /\
    (out_vlevel st < vlevel -> st' = st) /\
    (vlevel <= out_vlevel st ->
     stream_bytes fh (written st') =
       (stream_bytes fh (written st) ++ prefix_text st ++
        pad_right (Z.to_nat (out_column_width st)) field ++ " : " ++
        msg ++ nl)%string /\
     (forall f, f <> fh ->
                stream_bytes f (written st') = stream_bytes f (written st)) /\
     String.length (pad_right (Z.to_nat (out_column_width st)) field) =
       Nat.max (Z.to_nat (out_column_width st)) (String.length field) /\
     String.prefix field
       (pad_right (Z.to_nat (out_column_width st)) field) = true).
Proof.
  intros Hfh Hw. unfold outv_field, outv_check.
  destruct (vlevel <=? out_vlevel st) eqn:Eg.
  - apply Z.leb_le in Eg. cbn [c_bool truthy Z.eqb negb].
    set (label := (pad_right (Z.to_nat (out_column_width st)) field ++ " : ")%string).
    assert (Hpre : exists st1,
              _out_prefix st = Some st1 /\ out_fh st1 = Some fh /\
              out_column_width st1 = out_column_width st /\
              written st1 = written st ++ prefix_writes st fh).
    { unfold _out_prefix, prefix_writes. destruct (out_prefix st) as [p |].
      - rewrite Hfh. cbn [fprintf]. eexists. split; [reflexivity |].
        cbn. auto.
      - exists st. rewrite app_nil_r. auto. }
    destruct Hpre as (st1 & E1 & Hfh1 & Hw1 & Hwr1).
    rewrite E1, Hfh1, Hw1. cbn [fprintf out_fh set_written].
    rewrite Hfh1. cbn [fprintf out_fh set_written written].
    rewrite Hfh1. cbn [fprintf].
    eexists. split; [reflexivity |]. split; [intros; lia |].
    intros _. cbn [written set_written]. rewrite Hwr1.
    fold label.
    replace ((((written st ++ prefix_writes st fh) ++ [(fh, label)]) ++
              [(fh, msg)]) ++ [(fh, nl)])
      with (written st ++ prefix_writes st fh ++
            on_stream fh [label; msg; nl])
      by (cbn [on_stream map]; now rewrite <- !app_assoc).
    split; [| split; [| split]].
    + rewrite !stream_bytes_app, on_stream_bytes.
      unfold prefix_writes, prefix_text, label.
      destruct (out_prefix st) as [p |].
      * rewrite stream_bytes_own. cbn [stream_bytes String.concat].
        rewrite (append_nil_r (p ++ ": ")), !append_assoc. reflexivity.
      * cbn [stream_bytes String.concat append].
        rewrite !append_assoc. reflexivity.
    + intros f Hf. rewrite !stream_bytes_app, on_stream_other by exact Hf.
      unfold prefix_writes. destruct (out_prefix st) as [p |].
      * rewrite stream_bytes_other by exact Hf. cbn [stream_bytes].
        now rewrite !append_nil_r.
      * cbn [stream_bytes]. now rewrite !append_nil_r.
    + apply pad_right_length.
    + apply prefix_append.
  - apply Z.leb_gt in Eg. cbn [c_bool truthy Z.eqb negb].
    exists st. split; [reflexivity |]. split; [reflexivity | intros; lia].
Qed.

Lemma outv_field_line_witness :
  out_fh st0 = Some stdout /\ 0 <= out_column_width st0 < 2 ^ 31 /\
  exists st',
    outv_field st0 0 "UUID" "none" = Some st' /\
    stream_bytes stdout (written st') =
      ("UUID                 : none" ++ nl)%string.
Proof.
  assert (H1 : out_fh st0 = Some stdout) by reflexivity.
  assert (H2 : 0 <= out_column_width st0 < 2 ^ 31) by (cbn; lia).
  split; [exact H1 |]. split; [exact H2 |].
  destruct (outv_field_line st0 stdout 0 "UUID" "none" H1 H2)
    as (st' & Hrun & _ & Hopen).
  exists st'. split; [exact Hrun |].
  destruct Hopen as (Hb & _); [cbn; lia |]. rewrite Hb. reflexivity.
Defined.

(** * The stream is bound by [out_set_vlevel] *)

Lemma outv_returns (st : out_state) (fh : FILE) (vlevel : Z) (msg : string) :
  out_fh st = Some fh -> outv st vlevel msg <> None.
Proof.
  intros Hfh. unfold outv. destruct (truthy (outv_check st vlevel));
    [| discriminate].
  unfold _out_prefix. destruct (out_prefix st);
    rewrite Hfh; cbn [fprintf out_fh set_written]; rewrite ?Hfh;
    discriminate.
Qed.

Lemma outv_field_returns (st : out_state) (fh : FILE) (vlevel : Z)
  (field msg : string) :
  out_fh st = Some fh -> outv_field st vlevel field msg <> None.
Proof.
  intros Hfh. unfold outv_field. destruct (truthy (outv_check st vlevel));
    [| discriminate].
  unfold _out_prefix. destruct (out_prefix st);
    rewrite Hfh; cbn [fprintf out_fh set_written]; rewrite ?Hfh;
    cbn [fprintf out_fh set_written]; rewrite ?Hfh;
    cbn [fprintf out_fh set_written]; rewrite ?Hfh; discriminate.
Qed.

Lemma outv_hexdump_returns (st : out_state) (fh : FILE) (vlevel : Z)
  (datap : list byte) (offset sep : Z) :
  out_fh st = Some fh -> outv_hexdump st vlevel datap offset sep <> None.
Proof.
  intros Hfh.
  destruct (Z.lt_ge_cases (out_vlevel st) vlevel) as [Hclosed | Hopen].
  - rewrite outv_hexdump_closed by (left; exact Hclosed). discriminate.
  - destruct datap as [|b rest].
    + rewrite outv_hexdump_closed by (right; reflexivity). discriminate.
    + rewrite (outv_hexdump_written st fh vlevel (b :: rest) offset Hfh Hopen)
        by discriminate.
      discriminate.
Qed.

(** [out_set_vlevel] binds the stream to standard output only when none is
    set and keeps a stream that was set before.  After it, and after any
    further change of prefix or column width, no printer fails on a NULL
    stream, whatever it is asked to print. *)
Theorem out_set_vlevel_binds_stream (st : out_state) (v : Z)
  (prefix : option string) (col_width : Z) :
  let st1 := out_set_vlevel st v in
  let st2 := out_set_col_width (out_set_prefix st1 prefix) col_width in
  out_vlevel st1 = v /\
  out_fh st1 = Some (match out_fh st with Some f => f | None => stdout end) /\
  forall (vlevel : Z) (field msg : string) (datap : list byte)
         (offset sep : Z),
    outv st2 vlevel msg <> None /\
    outv_field st2 vlevel field msg <> None /\
    outv_hexdump st2 vlevel datap offset sep <> None.
Proof.
  cbv zeta. split; [reflexivity |].
  assert (Hfh : out_fh (out_set_vlevel st v) =
                Some (match out_fh st with Some f => f | None => stdout end))
    by (unfold out_set_vlevel; cbn [out_fh]; destruct (out_fh st); reflexivity).
  split; [exact Hfh |].
  intros vlevel field msg datap offset sep.
  split; [| split].
  - eapply outv_returns. cbn [out_fh out_set_col_width out_set_prefix]. exact Hfh.
  - eapply outv_field_returns. cbn [out_fh out_set_col_width out_set_prefix].
    exact Hfh.
  - eapply outv_hexdump_returns. cbn [out_fh out_set_col_width out_set_prefix].
    exact Hfh.
Qed.

(** * The row assemblers on any buffer *)

Lemma ascii_loop_returns (datap : list byte) :
  forall (str : cbuf) (str_len c : Z) (str' : cbuf) (r : Z),
    ascii_loop str str_len datap c = Some (str', r) -> r = c + blen datap.
Proof.
  induction datap as [|b rest IH]; intros str str_len c str' r H.
  - cbn in H. injection H as _ H. unfold blen. cbn. lia.
  - cbn [ascii_loop] in H.
    destruct (snprintf str c (size_sub str_len c) _) as [[str1 r1] |] eqn:E;
      [| discriminate].
    apply snprintf_returns in E. apply IH in H. rewrite blen_cons.
    change (slen (String (out_get_printable_ascii (char_of_byte b)) ""))
      with 1 in E. lia.
Qed.

Lemma hex_loop_returns (datap : list byte) :
  forall (str : cbuf) (str_len i c : Z) (str' : cbuf) (r : Z),
    hex_loop str str_len datap i c = Some (str', r) ->
    r = c + slen (hex_text datap i).
Proof.
  induction datap as [|b rest IH]; intros str str_len i c str' r H.
  - cbn in H. injection H as _ H. unfold slen. cbn. lia.
  - cbn [hex_loop hex_text] in *. cbv zeta.
    destruct (truthy i && (i mod 8 =? 0)).
    + destruct (snprintf str c (size_sub str_len c) " ") as [[str1 r1] |] eqn:E1;
        [| discriminate].
      destruct (snprintf str1 (c + r1) _ _) as [[str2 r2] |] eqn:E2;
        [| discriminate].
      apply snprintf_returns in E1, E2. apply IH in H.
      rewrite !slen_append in *. change (slen " ") with 1 in *. lia.
    + destruct (snprintf str c _ _) as [[str2 r2] |] eqn:E2; [| discriminate].
      apply snprintf_returns in E2. apply IH in H.
      rewrite !slen_append in *. change (slen "") with 0. lia.
Qed.

(** The number of characters of the hex text of [len] bytes: three per
    byte and one more for every eighth byte after the first. *)
Lemma hex_text_slen (datap : list byte) :
  forall i : Z,
    0 <= i -> datap <> [] ->
    slen (hex_text datap i) =
    3 * blen datap + ((i + blen datap - 1) / 8 - (Z.max i 1 - 1) / 8).
Proof.
  induction datap as [|b rest IH]; intros i Hi Hne; [congruence |].
  cbn [hex_text]. cbv zeta. rewrite !slen_append, blen_cons.
  assert (Htok : slen (fmt_02x (byte_val b)) = 2)
    by (rewrite fmt_02x_form; reflexivity).
  rewrite Htok. change (slen " ") with 1.
  assert (Hgap : slen (if truthy i && (i mod 8 =? 0) then " "%string
                       else EmptyString) =
                 (Z.max i 1) / 8 - (Z.max i 1 - 1) / 8).
  { unfold truthy. destruct (i =? 0) eqn:E0.
    - apply Z.eqb_eq in E0. subst i. reflexivity.
    - apply Z.eqb_neq in E0. cbn [negb andb].
      rewrite Z.max_l by lia.
      destruct (i mod 8 =? 0) eqn:Em.
      + apply Z.eqb_eq in Em. change (slen " ") with 1.
        pose proof (Z.div_mod i 8 ltac:(lia)) as Hd.
        assert (Hq : (i - 1) / 8 = i / 8 - 1).
        { symmetry. apply (Z.div_unique _ 8 _ 7); lia. }
        lia.
      + apply Z.eqb_neq in Em. change (slen "") with 0.
        pose proof (Z.div_mod i 8 ltac:(lia)) as Hd.
        pose proof (Z.mod_pos_bound i 8 ltac:(lia)) as Hb.
        assert (Hq : (i - 1) / 8 = i / 8).
        { symmetry. apply (Z.div_unique _ 8 _ (i mod 8 - 1)); lia. }
        lia. }
  rewrite Hgap.
  destruct rest as [|b' rest'].
  - change (slen (hex_text [] (i + 1))) with 0. change (blen (@nil byte)) with 0.
    replace (i + (0 + 1) - 1) with i by lia.
    destruct (Z.eq_dec i 0) as [-> | Hnz]; [reflexivity |].
    rewrite Z.max_l by lia. lia.
  - rewrite (IH (i + 1)) by (lia || discriminate).
    rewrite (Z.max_l (i + 1) 1) by lia.
    replace (i + 1 - 1) with i by lia.
    replace (i + 1 + blen (b' :: rest') - 1) with (i + (blen (b' :: rest') + 1) - 1)
      by lia.
    destruct (Z.eq_dec i 0) as [-> | Hnz].
    + change (Z.max 0 1 / 8) with 0. change ((Z.max 0 1 - 1) / 8) with 0.
      change (0 / 8) with 0. lia.
    + rewrite Z.max_l by lia. lia.
Qed.

(** The value a row assembler returns is -1 when its size test fails, and
    otherwise the length of the whole text of the row, whether or not all
    of it found room: [len] for the ASCII string, three per byte plus one
    for every eighth byte after the first for the hex string. *)
Theorem row_assemblers_return_length :
  (forall (str : cbuf) (str_len : Z) (datap : list byte) (str' : cbuf)
          (r : Z),
      out_get_hex_str str str_len datap = Some (str', r) ->
      (str_len < 3 * blen datap + 1 /\ r = -1 /\ str' = str) \/
      (3 * blen datap + 1 <= str_len /\
       r = slen (hex_text datap 0) /\
       r = 3 * blen datap +
           (if blen datap =? 0 then 0 else (blen datap - 1) / 8))) /\
  (forall (str : cbuf) (str_len : Z) (datap : list byte) (str' : cbuf)
          (r : Z),
      out_get_ascii_str str str_len datap = Some (str', r) ->
      (str_len < blen datap /\ r = -1 /\ str' = str) \/
      (blen datap <= str_len /\ r = blen datap)).
Proof.
  split.
  - intros str str_len datap str' r H. unfold out_get_hex_str in H.
    destruct (str_len <? 3 * blen datap + 1) eqn:E.
    + apply Z.ltb_lt in E. injection H as H1 H2. left. auto.
    + apply Z.ltb_ge in E. apply hex_loop_returns in H. right.
      split; [exact E |]. split; [lia |]. rewrite H, Z.add_0_l.
      destruct datap as [|b rest]; [reflexivity |].
      rewrite hex_text_slen by (lia || discriminate).
      replace (blen (b :: rest) =? 0) with false
        by (symmetry; apply Z.eqb_neq; rewrite blen_cons; unfold blen; lia).
      change ((Z.max 0 1 - 1) / 8) with 0. rewrite Z.add_0_l. lia.
  - intros str str_len datap str' r H. unfold out_get_ascii_str in H.
    destruct (str_len <? blen datap) eqn:E.
    + apply Z.ltb_lt in E. injection H as H1 H2. left. auto.
    + apply Z.ltb_ge in E. apply ascii_loop_returns in H. right.
      split; [exact E | lia].
Qed.

Lemma terminated_tail (tail : cbuf) :
  hd_error tail = Some NUL -> exists t, tail = NUL :: t.
Proof.
  destruct tail as [|c t]; [discriminate |].
  intros H. cbn in H. injection H as ->. now exists t.
Qed.

(** A buffer with room for the whole text and its terminator gets the
    whole text: the hex string needs [3 * len + (len - 1) / 8 + 1] bytes,
    the ASCII string [len + 1]. *)
Theorem row_assemblers_with_room (str : cbuf) (datap : list byte) :
  datap <> [] ->
  blen str < two64 ->
  (3 * blen datap + (blen datap - 1) / 8 + 1 <= blen str ->
   exists str',
     out_get_hex_str str (blen str) datap =
       Some (str', 3 * blen datap + (blen datap - 1) / 8) /\
     c_str str' = hex_text datap 0 /\ blen str' = blen str) /\
  (blen datap + 1 <= blen str ->
   exists str',
     out_get_ascii_str str (blen str) datap = Some (str', blen datap) /\
     c_str str' = ascii_text datap /\ blen str' = blen str).
Proof.
  intros Hne Hcap.
  assert (Hlen : 0 < blen datap)
    by (destruct datap; [congruence | rewrite blen_cons; unfold blen; lia]).
  split.
  - intros Hroom.
    assert (Hs : slen (hex_text datap 0) =
                 3 * blen datap + (blen datap - 1) / 8).
    { rewrite hex_text_slen by (lia || assumption).
      change ((Z.max 0 1 - 1) / 8) with 0. rewrite Z.add_0_l. lia. }
    assert (Hq : 0 <= (blen datap - 1) / 8) by (apply Z.div_pos; lia).
    unfold out_get_hex_str.
    replace (blen str <? 3 * blen datap + 1) with false
      by (symmetry; apply Z.ltb_ge; lia).
    destruct (hex_loop_fits (blen str) datap Hcap 0 [] str eq_refl)
      as (tail' & Hrun & Hl & Hd); [lia |].
    cbn [app] in Hrun. change (blen (@nil ascii)) with 0 in Hrun.
    rewrite Hrun, Z.add_0_l, Hs.
    destruct (terminated_tail tail') as [t ->]; [apply Hd; now left |].
    eexists. split; [reflexivity |]. split.
    + apply c_str_stored, hex_text_no_nul.
    + rewrite blen_app, blen_chars, Hl. lia.
  - intros Hroom.
    assert (Hs : slen (ascii_text datap) = blen datap)
      by (unfold slen, blen; now rewrite ascii_text_length).
    unfold out_get_ascii_str.
    replace (blen str <? blen datap) with false
      by (symmetry; apply Z.ltb_ge; lia).
    destruct (ascii_loop_fits (blen str) datap Hcap [] str eq_refl)
      as (tail' & Hrun & Hl & Hd); [lia |].
    cbn [app] in Hrun. change (blen (@nil ascii)) with 0 in Hrun.
    rewrite Hrun, Z.add_0_l, Hs.
    destruct (terminated_tail tail') as [t ->]; [apply Hd; now left |].
    eexists. split; [reflexivity |]. split.
    + apply c_str_stored, ascii_text_no_nul.
    + rewrite blen_app, blen_chars, Hl. lia.
Qed.

Lemma row_assemblers_with_room_witness :
  [x48; x69] <> [] /\ blen (zero_buf 7) < two64 /\
  exists str',
    out_get_hex_str (zero_buf 7) (blen (zero_buf 7)) [x48; x69] =
      Some (str', 3 * blen [x48; x69] + (blen [x48; x69] - 1) / 8) /\
    c_str str' = hex_text [x48; x69] 0.
Proof.
  assert (H1 : [x48; x69] <> []) by discriminate.
  assert (H2 : blen (zero_buf 7) < two64) by reflexivity.
  split; [exact H1 |]. split; [exact H2 |].
  destruct (proj1 (row_assemblers_with_room (zero_buf 7) [x48; x69] H1 H2))
    as (str' & Hrun & Hstr & _); [vm_compute; discriminate |].
  exists str'. split; [exact Hrun | exact Hstr].
Defined.

Lemma ascii_loop_app (l1 l2 : list byte) :
  forall (str : cbuf) (str_len c : Z),
    ascii_loop str str_len (l1 ++ l2) c =
    match ascii_loop str str_len l1 c with
    | Some (str1, c1) => ascii_loop str1 str_len l2 c1
    | None => None
    end.
Proof.
  induction l1 as [|b rest IH]; intros str str_len c; [reflexivity |].
  cbn [app ascii_loop].
  destruct (snprintf str c (size_sub str_len c) _) as [[str1 r1] |];
    [apply IH | reflexivity].
Qed.

(** The size test of [out_get_ascii_str] lets a buffer of exactly [len]
    bytes pass, which has no room for the terminator: the call returns
    [len] as if all went well, but the string it leaves lacks the last
    character of the row. *)
Theorem out_get_ascii_str_exact_capacity (str : cbuf) (datap : list byte) :
  datap <> [] ->
  blen str = blen datap ->
  blen str < two64 ->
  exists str',
    out_get_ascii_str str (blen datap) datap = Some (str', blen datap) /\
    c_str str' = ascii_text (removelast datap) /\
    slen (c_str str') = blen datap - 1.
Proof.
  intros Hne Hsize Hcap.
  destruct (exists_last Hne) as (init & b & ->).
  rewrite removelast_last.
  assert (Hlen : blen (init ++ [b]) = blen init + 1)
    by (rewrite blen_app; reflexivity).
  assert (Hs : slen (ascii_text init) = blen init)
    by (unfold slen, blen; now rewrite ascii_text_length).
  pose proof (slen_nonneg (ascii_text init)) as Hnn.
  unfold out_get_ascii_str. rewrite Z.ltb_irrefl, ascii_loop_app.
  rewrite <- Hsize.
  destruct (ascii_loop_fits (blen str) init Hcap [] str eq_refl)
    as (tail' & Hrun & Hl & _); [lia |].
  cbn [app] in Hrun. change (blen (@nil ascii)) with 0 in Hrun.
  rewrite Hrun, Z.add_0_l, Hs. cbn [ascii_loop].
  set (pre := list_ascii_of_string (ascii_text init)).
  assert (Hpre : blen pre = blen init)
    by (unfold pre; now rewrite blen_chars).
  assert (Htail : exists c, tail' = [c]).
  { assert (Hl1 : blen tail' = 1) by lia.
    destruct tail' as [|c [|c' t]].
    - discriminate Hl1.
    - now exists c.
    - rewrite !blen_cons in Hl1. pose proof (blen_cons c' t).
      assert (0 <= blen t) by (unfold blen; lia). lia. }
  destruct Htail as [c0 ->].
  unfold snprintf, size_sub.
  replace ((blen str - blen init) mod two64) with 1
    by (rewrite Z.mod_small; unfold two64; lia).
  change (1 =? 0) with false. change (Z.to_nat (1 - 1)) with 0%nat.
  cbv zeta. cbn [firstn app]. change (blen [NUL]) with 1.
  replace ((0 <=? blen init) && (blen init + 1 <=? blen (pre ++ [c0])))
    with true.
  2: { symmetry. apply andb_true_iff.
       split; apply Z.leb_le; [unfold blen; lia |].
       rewrite blen_app, Hpre. change (blen [c0]) with 1. lia. }
  replace (Z.to_nat (blen init)) with (List.length pre)
    by (rewrite <- Hpre; unfold blen; lia).
  rewrite store_chars_at_end by (cbn; lia).
  cbn [List.length skipn app].
  change (slen (String (out_get_printable_ascii (char_of_byte b)) "")) with 1.
  eexists. split; [do 2 f_equal; lia |].
  split.
  - unfold pre. apply c_str_stored, ascii_text_no_nul.
  - unfold pre. rewrite c_str_stored by apply ascii_text_no_nul. lia.
Qed.

Lemma out_get_ascii_str_exact_capacity_witness :
  [x48; x69; x21] <> [] /\ blen (zero_buf 3) = blen [x48; x69; x21] /\
  blen (zero_buf 3) < two64 /\
  exists str',
    out_get_ascii_str (zero_buf 3) (blen [x48; x69; x21]) [x48; x69; x21] =
      Some (str', blen [x48; x69; x21]) /\
    c_str str' = "Hi"%string.
Proof.
  assert (H1 : [x48; x69; x21] <> []) by discriminate.
  assert (H2 : blen (zero_buf 3) = blen [x48; x69; x21]) by reflexivity.
  assert (H3 : blen (zero_buf 3) < two64) by reflexivity.
  split; [exact H1 |]. split; [exact H2 |]. split; [exact H3 |].
  destruct (out_get_ascii_str_exact_capacity (zero_buf 3) [x48; x69; x21]
              H1 H2 H3) as (str' & Hrun & Hstr & _).
  exists str'. split; [exact Hrun | exact Hstr].
Defined.

(** * Size strings in human form *)

Lemma double_of_u64_exact (n : Z) :
  0 <= n < 2 ^ 53 -> double_of_u64 n = mk_double n 0.
Proof.
  intros Hn. unfold double_of_u64. cbv zeta.
  destruct (n =? 0) eqn:E0; [reflexivity |].
  apply Z.eqb_neq in E0.
  assert (Hl : Z.log2 n < 53) by (apply Z.log2_lt_pow2; lia).
  replace (Z.log2 n + 1 <=? 53) with true by (symmetry; apply Z.leb_le; lia).
  reflexivity.
Qed.

Lemma scaled_ge_1024 (n : Z) (t : nat) :
  double_ge_1024 (scaled n t) = (1024 ^ (Z.of_nat t + 1) <=? n).
Proof.
  unfold double_ge_1024, scaled. cbn [d_exp d_num].
  destruct t as [|t].
  - cbn [Z.of_nat Z.mul Z.opp Z.leb Z.compare]. cbn. now rewrite Z.mul_1_r.
  - replace (0 <=? - (10 * Z.of_nat (S t))) with false
      by (symmetry; apply Z.leb_gt; lia).
    rewrite Z.opp_involutive.
    replace (1024 ^ (Z.of_nat (S t) + 1))
      with (1024 * 2 ^ (10 * Z.of_nat (S t))); [reflexivity |].
    rewrite Z.pow_add_r, Z.pow_1_r by lia.
    rewrite Z.pow_mul_r by lia. change (2 ^ 10) with 1024. lia.
Qed.

Lemma scaled_div (n : Z) (t : nat) :
  double_div_1024 (scaled n t) = scaled n (S t).
Proof. unfold double_div_1024, scaled. cbn [d_num d_exp]. f_equal. lia. Qed.

Lemma size_loop_unfold (fuel : nat) (csize dsize : double) (i : Z) :
  size_loop (S fuel) csize dsize i =
  if double_ge_1024 csize && (i <? nunits) then
    size_loop fuel (double_div_1024 csize) (double_div_1024 dsize) (i + 1)
  else (csize, dsize, i).
Proof. reflexivity. Qed.

(** The loop divides as long as the size is at least the next power of
    1024: a size below [1024 ^ (J + 1)], and not below [1024 ^ J] unless
    [J] is 0, is divided [J] times, for [J <= 5]. *)
Lemma size_loop_run (n : Z) (J : nat) :
  (J <= 5)%nat ->
  ((0 < J)%nat -> 1024 ^ Z.of_nat J <= n) ->
  n < 1024 ^ (Z.of_nat J + 1) ->
  forall (d t fuel : nat),
    (t + d = J)%nat -> (d < fuel)%nat ->
    size_loop fuel (scaled n t) (scaled n t) (Z.of_nat t - 1) =
    (scaled n J, scaled n J, Z.of_nat J - 1).
Proof.
  intros HJ Hlow Hn. induction d as [|d IH]; intros t fuel Ht Hfuel.
  - assert (t = J) by lia. subst t.
    destruct fuel as [|fuel]; [lia |].
    rewrite size_loop_unfold, scaled_ge_1024.
    replace (1024 ^ (Z.of_nat J + 1) <=? n) with false
      by (symmetry; apply Z.leb_gt; lia).
    reflexivity.
  - destruct fuel as [|fuel]; [lia |].
    rewrite size_loop_unfold, scaled_ge_1024.
    assert (Hle : 1024 ^ (Z.of_nat t + 1) <= n).
    { apply Z.le_trans with (1024 ^ Z.of_nat J); [| apply Hlow; lia].
      apply Z.pow_le_mono_r; lia. }
    replace (1024 ^ (Z.of_nat t + 1) <=? n) with true
      by (symmetry; apply Z.leb_le; exact Hle).
    replace (Z.of_nat t - 1 <? nunits) with true
      by (symmetry; apply Z.ltb_lt; change nunits with 5; lia).
    cbn [andb]. rewrite scaled_div.
    replace (Z.of_nat t - 1 + 1) with (Z.of_nat (S t) - 1) by lia.
    apply IH; lia.
Qed.

Lemma fmt_1f_plain (d : double) :
  no_nul (fmt_1f d) = true /\ (String.length (fmt_1f d) <= 22)%nat.
Proof.
  unfold fmt_1f. cbv zeta. split.
  - rewrite !no_nul_append. rewrite !digits_no_nul by reflexivity. reflexivity.
  - rewrite !length_append.
    match goal with
    | |- (String.length (digits 10 20 ?a _) + (_ + String.length (digits 10 1 ?b _)) <= _)%nat =>
        pose proof (digits_length_le 10 20 a EmptyString);
        pose proof (digits_length_le 10 1 b EmptyString)
    end.
    cbn [String.length] in *. lia.
Qed.

(** [%.1f] of a scaled size: the tenths printed are the nearest integer to
    ten times the size over [1024 ^ t]. *)
Lemma fmt_1f_scaled (n : Z) (t : nat) :
  0 <= n -> (0 < t)%nat ->
  exists tenths : Z,
    fmt_1f (scaled n t) =
      (digits 10 20 (tenths / 10) EmptyString ++ "." ++
       digits 10 1 (tenths mod 10) EmptyString)%string /\
    2 * Z.abs (10 * n - tenths * 1024 ^ Z.of_nat t) <= 1024 ^ Z.of_nat t.
Proof.
  intros Hn Ht. unfold fmt_1f, scaled. cbn [d_num d_exp].
  replace (0 <=? - (10 * Z.of_nat t)) with false
    by (symmetry; apply Z.leb_gt; lia).
  rewrite Z.opp_involutive.
  assert (Hden : 2 ^ (10 * Z.of_nat t) = 1024 ^ Z.of_nat t)
    by (rewrite Z.pow_mul_r by lia; reflexivity).
  rewrite Hden. set (den := 1024 ^ Z.of_nat t).
  assert (Hpos : 0 < den) by (apply Z.pow_pos_nonneg; lia).
  cbv zeta.
  pose proof (Z.div_mod (n * 10) den ltac:(lia)) as Hdm.
  pose proof (Z.mod_pos_bound (n * 10) den Hpos) as Hb.
  set (q := n * 10 / den) in *. set (r := (n * 10) mod den) in *.
  eexists. split; [reflexivity |].
  destruct ((den <? 2 * r) || ((2 * r =? den) && Z.odd q)) eqn:E.
  - assert (den <= 2 * r).
    { apply orb_true_iff in E as [E | E].
      - apply Z.ltb_lt in E. lia.
      - apply andb_true_iff in E as [E _]. apply Z.eqb_eq in E. lia. }
    replace (10 * n - (q + 1) * den) with (r - den) by lia. lia.
  - apply orb_false_iff in E as [E _]. apply Z.ltb_ge in E.
    replace (10 * n - q * den) with r by lia. lia.
Qed.

Lemma out_get_size_str_loop (n : Z) (J : nat) :
  (J <= 4)%nat ->
  0 <= n ->
  ((0 < J)%nat -> 1024 ^ Z.of_nat J <= n) ->
  n < 1024 ^ (Z.of_nat J + 1) ->
  size_loop (Z.to_nat (nunits + 1)) (double_of_u64 n) (double_of_u64 n) (-1) =
  (scaled n J, scaled n J, Z.of_nat J - 1).
Proof.
  intros HJ H0 Hlow Hn.
  assert (H53 : 0 <= n < 2 ^ 53).
  { split; [exact H0 |].
    apply Z.lt_le_trans with (1024 ^ (Z.of_nat J + 1)); [lia |].
    apply Z.le_trans with (1024 ^ 5); [| discriminate].
    apply Z.pow_le_mono_r; lia. }
  rewrite double_of_u64_exact by exact H53.
  change (mk_double n 0) with (scaled n 0).
  apply (size_loop_run n J ltac:(lia) Hlow Hn J 0); [lia |].
  change (Z.to_nat (nunits + 1)) with 6%nat. lia.
Qed.

(** Below 1024 every mode gives the size in decimal. *)
Theorem out_get_size_str_below_1024 (size human : Z) :
  0 <= size < 1024 -> out_get_size_str size human = fmt_lu size.
Proof.
  intros Hs. destruct (Z.eq_dec human 0) as [-> | Hh].
  - apply out_get_size_str_bytes_small.
    split; [lia | apply Z.lt_trans with 1024; [lia | reflexivity]].
  - unfold out_get_size_str.
    replace (negb (truthy human)) with false
      by (unfold truthy; rewrite negb_involutive; symmetry; now apply Z.eqb_neq).
    cbv zeta.
    rewrite (out_get_size_str_loop size 0)
      by (try lia; change (1024 ^ (Z.of_nat 0 + 1)) with 1024; lia).
    cbn [Z.of_nat Z.sub Z.leb Z.compare andb Z.add Z.opp Z.pos_sub].
    assert (E : fmt_ld size = fmt_lu size).
    { unfold fmt_ld, fmt_lu. cbv zeta.
      rewrite Z.mod_small
        by (split; [lia | apply Z.lt_trans with 1024; [lia | reflexivity]]).
      replace (size <? two63) with true
        by (symmetry; apply Z.ltb_lt, Z.lt_trans with 1024; [lia | reflexivity]).
      reflexivity. }
    rewrite E. apply str_buff_result_id; apply fmt_lu_plain.
Qed.

Lemma out_get_size_str_below_1024_witness :
  0 <= 1023 < 1024 /\ out_get_size_str 1023 2 = fmt_lu 1023.
Proof.
  assert (H : 0 <= 1023 < 1024) by lia.
  split; [exact H | exact (out_get_size_str_below_1024 1023 2 H)].
Defined.

(** From 1024 up to [1024 ^ 5] the human form is the size over
    [1024 ^ (j + 1)], rounded to the nearest tenth, followed by the
    [j]-th letter of K, M, G, T, where [1024 ^ (j + 1)] is the largest
    power of 1024 not above the size.  Any mode other than 0 and 1 gives
    the same followed by the size in decimal between brackets. *)
Theorem out_get_size_str_units (size : Z) (j : nat) :
  (j < 4)%nat ->
  1024 ^ (Z.of_nat j + 1) <= size < 1024 ^ (Z.of_nat j + 2) ->
  exists tenths : Z,
    2 * Z.abs (10 * size - tenths * 1024 ^ (Z.of_nat j + 1))
      <= 1024 ^ (Z.of_nat j + 1) /\
    let number :=
      (digits 10 20 (tenths / 10) EmptyString ++ "." ++
       digits 10 1 (tenths mod 10) EmptyString)%string in
    let unit := String (nth j unit_letters NUL) EmptyString in
    out_get_size_str size 1 = (number ++ unit)%string /\
    forall human : Z,
      human <> 0 -> human <> 1 ->
      out_get_size_str size human =
      (number ++ unit ++ " [" ++ fmt_lu size ++ "]")%string.
Proof.
  intros Hj Hs.
  assert (Hpow : 0 < 1024 ^ (Z.of_nat j + 1)) by (apply Z.pow_pos_nonneg; lia).
  assert (H0 : 0 <= size) by lia.
  assert (Hloop :
    size_loop (Z.to_nat (nunits + 1)) (double_of_u64 size)
      (double_of_u64 size) (-1) =
    (scaled size (S j), scaled size (S j), Z.of_nat j)).
  { assert (Hlow : (0 < S j)%nat -> 1024 ^ Z.of_nat (S j) <= size).
    { intros _. replace (Z.of_nat (S j)) with (Z.of_nat j + 1) by lia. lia. }
    assert (Hup : size < 1024 ^ (Z.of_nat (S j) + 1)).
    { replace (Z.of_nat (S j) + 1) with (Z.of_nat j + 2) by lia. lia. }
    rewrite (out_get_size_str_loop size (S j) ltac:(lia) H0 Hlow Hup).
    f_equal. lia. }
  destruct (fmt_1f_scaled size (S j) H0 ltac:(lia)) as (tenths & Hfmt & Hround).
  replace (Z.of_nat (S j)) with (Z.of_nat j + 1) in Hround by lia.
  exists tenths. split; [exact Hround |]. cbv zeta. rewrite <- Hfmt.
  assert (Hunit : nth (Z.to_nat (Z.of_nat j)) units NUL = nth j unit_letters NUL).
  { rewrite Nat2Z.id. do 4 (destruct j as [|j]; [reflexivity |]). lia. }
  assert (Hletter : is_nul (nth j unit_letters NUL) = false).
  { do 4 (destruct j as [|j]; [reflexivity |]). lia. }
  assert (Hrange : (0 <=? Z.of_nat j) && (Z.of_nat j <? nunits) = true).
  { apply andb_true_iff. split; [apply Z.leb_le; lia |].
    apply Z.ltb_lt. change nunits with 5. lia. }
  destruct (fmt_1f_plain (scaled size (S j))) as [Hnn Hlen].
  destruct (fmt_lu_plain size) as [Hnn' _].
  pose proof (digits_length_le 10 20 (size mod two64) EmptyString) as Hlen'.
  fold (fmt_lu size) in Hlen'. cbn [String.length] in Hlen'.
  split.
  - unfold out_get_size_str. cbn [truthy Z.eqb negb]. cbv zeta.
    rewrite Hloop, Hrange, Hunit. cbn [Z.eqb Pos.eqb].
    apply str_buff_result_id.
    + rewrite no_nul_append, Hnn. cbn [no_nul]. now rewrite Hletter.
    + rewrite length_append. cbn [String.length]. lia.
  - intros human Hh0 Hh1. unfold out_get_size_str.
    replace (negb (truthy human)) with false
      by (unfold truthy; rewrite negb_involutive; symmetry; now apply Z.eqb_neq).
    cbv zeta. rewrite Hloop, Hrange, Hunit.
    replace (human =? 1) with false by (symmetry; now apply Z.eqb_neq).
    rewrite str_buff_result_id.
    + reflexivity.
    + rewrite !no_nul_append, Hnn, Hnn'. cbn [no_nul]. now rewrite Hletter.
    + rewrite !length_append. cbn [String.length]. lia.
Qed.

Lemma out_get_size_str_units_witness :
  (0 < 4)%nat /\
  1024 ^ (Z.of_nat 0 + 1) <= 1536 < 1024 ^ (Z.of_nat 0 + 2) /\
  exists tenths : Z,
    2 * Z.abs (10 * 1536 - tenths * 1024 ^ (Z.of_nat 0 + 1))
      <= 1024 ^ (Z.of_nat 0 + 1) /\
    out_get_size_str 1536 1 =
      ((digits 10 20 (tenths / 10) EmptyString ++ "." ++
        digits 10 1 (tenths mod 10) EmptyString) ++
       String (nth 0 unit_letters NUL) EmptyString)%string.
Proof.
  assert (H1 : (0 < 4)%nat) by lia.
  assert (H2 : 1024 ^ (Z.of_nat 0 + 1) <= 1536 < 1024 ^ (Z.of_nat 0 + 2))
    by (cbn; lia).
  split; [exact H1 |]. split; [exact H2 |].
  destruct (out_get_size_str_units 1536 0 H1 H2) as (tenths & Hr & Hh & _).
  exists tenths. split; [exact Hr | exact Hh].
Defined.

(** * BTT map entries *)

Example btt_map_entry_samples :
  out_get_btt_map_entry 1073741823 2147483648 1073741824 3221225472
    (1073741824 + 4660) = "0x00001234 state: error"%string /\
  out_get_btt_map_entry 1073741823 2147483648 1073741824 3221225472
    4660 = "0x00001234 state: init"%string /\
  out_get_btt_map_entry 1073741823 2147483648 1073741824 3221225472
    (3221225472 + 1) = "0x00000001 state: normal"%string.
Proof. vm_compute. repeat split. Qed.

(** The two top bits of a 32-bit value, in place. *)
Lemma land_top_bits (m : Z) :
  0 <= m < two32 ->
  Z.land m (Z.shiftl (Z.ones 2) 30) = 2 ^ 30 * (m / 2 ^ 30).
Proof.
  intros Hm.
  replace (2 ^ 30 * (m / 2 ^ 30)) with (Z.shiftl (Z.shiftr m 30) 30)
    by (rewrite Z.shiftl_mul_pow2, Z.shiftr_div_pow2 by (intro; discriminate);
        apply Z.mul_comm).
  apply Z.bits_inj'. intros n Hn.
  rewrite Z.land_spec, !Z.shiftl_spec by lia.
  destruct (Z.lt_ge_cases n 30) as [Hlow | Hhigh].
  - rewrite (Z.testbit_neg_r (Z.ones 2)), (Z.testbit_neg_r (Z.shiftr m 30))
      by lia.
    apply andb_false_r.
  - rewrite Z.shiftr_spec by lia. replace (n - 30 + 30) with n by lia.
    destruct (Z.lt_ge_cases n 32) as [H32 | H32].
    + rewrite Z.ones_spec_low by lia. apply andb_true_r.
    + rewrite Z.ones_spec_high by lia. rewrite andb_false_r.
      symmetry. destruct (Z.eq_dec m 0) as [-> | Hnz];
        [apply Z.bits_0 |].
      apply Z.bits_above_log2; [lia |].
      apply Z.lt_le_trans with 32; [| exact H32].
      apply Z.log2_lt_pow2; [lia | exact (proj2 Hm)].
Qed.

(** With the 30-bit LBA mask and the three state codes on the two top bits,
    every map entry is shown as its low 30 bits in eight hex digits and one
    of the states init, zero, error and normal; the state is init exactly
    when both top bits are clear, and the fallback [unknown] is never
    reached. *)
Theorem out_get_btt_map_entry_states
  (BTT_MAP_ENTRY_LBA_MASK BTT_MAP_ENTRY_ZERO BTT_MAP_ENTRY_ERROR
     BTT_MAP_ENTRY_NORMAL : Z) (map : Z) :
  BTT_MAP_ENTRY_LBA_MASK = 2 ^ 30 - 1 ->
  0 <= BTT_MAP_ENTRY_ZERO < two32 ->
  0 <= BTT_MAP_ENTRY_ERROR < two32 ->
  0 <= BTT_MAP_ENTRY_NORMAL < two32 ->
  (forall q : Z,
     1 <= q <= 3 ->
     2 ^ 30 * q = BTT_MAP_ENTRY_ZERO \/ 2 ^ 30 * q = BTT_MAP_ENTRY_ERROR \/
     2 ^ 30 * q = BTT_MAP_ENTRY_NORMAL) ->
  exists tag : string,
    In tag ["init"; "zero"; "error"; "normal"]%string /\
    out_get_btt_map_entry BTT_MAP_ENTRY_LBA_MASK BTT_MAP_ENTRY_ZERO
      BTT_MAP_ENTRY_ERROR BTT_MAP_ENTRY_NORMAL map =
    ("0x" ++ fmt_08x (u32 map mod 2 ^ 30) ++ " state: " ++ tag)%string /\
    (tag = "init"%string <-> u32 map < 2 ^ 30).
Proof.
  intros Hmask Hz He Hn Hcodes.
  assert (Hm : 0 <= u32 map < two32)
    by (unfold u32; apply Z.mod_pos_bound; reflexivity).
  set (m := u32 map) in *.
  assert (Hflags : Z.land m (u32_not BTT_MAP_ENTRY_LBA_MASK) =
                   2 ^ 30 * (m / 2 ^ 30)).
  { subst BTT_MAP_ENTRY_LBA_MASK. rewrite <- land_top_bits by exact Hm.
    reflexivity. }
  assert (Hlba : Z.land m (u32 BTT_MAP_ENTRY_LBA_MASK) = m mod 2 ^ 30).
  { subst BTT_MAP_ENTRY_LBA_MASK. rewrite <- Z.land_ones by lia. reflexivity. }
  assert (Hq : 0 <= m / 2 ^ 30 <= 3).
  { split; [apply Z.div_pos; lia |].
    apply Z.lt_succ_r. apply Z.div_lt_upper_bound; [lia |].
    change (2 ^ 30 * Z.succ 3) with two32. lia. }
  assert (Hout : forall tag : string,
            no_nul tag = true -> (String.length tag <= 10)%nat ->
            str_buff_result ("0x" ++ fmt_08x (m mod 2 ^ 30) ++ " state: " ++ tag)
            = ("0x" ++ fmt_08x (m mod 2 ^ 30) ++ " state: " ++ tag)%string).
  { intros tag Hnn Hl. apply str_buff_result_id.
    - now rewrite !no_nul_append, fmt_08x_no_nul, Hnn.
    - rewrite !length_append, fmt_08x_length. cbn [String.length]. lia. }
  unfold out_get_btt_map_entry. cbv zeta. fold m. rewrite Hflags, Hlba.
  assert (Hu : forall c : Z, 0 <= c < two32 -> u32 c = c)
    by (intros c Hc; apply Z.mod_small; exact Hc).
  rewrite (Hu _ Hz), (Hu _ He), (Hu _ Hn).
  destruct (2 ^ 30 * (m / 2 ^ 30) =? 0) eqn:E0.
  - apply Z.eqb_eq in E0. exists "init"%string.
    split; [cbn; auto |]. split; [apply Hout; [reflexivity | cbn; lia] |].
    split; [intros _ | reflexivity].
    assert (m / 2 ^ 30 = 0) by lia.
    apply Z.div_small_iff in H; lia.
  - apply Z.eqb_neq in E0.
    assert (Hge : 2 ^ 30 <= m).
    { destruct (Z.lt_ge_cases m (2 ^ 30)) as [Hlt | Hge]; [| exact Hge].
      rewrite Z.div_small in E0 by lia. lia. }
    destruct (2 ^ 30 * (m / 2 ^ 30) =? BTT_MAP_ENTRY_ZERO) eqn:Ez.
    { exists "zero"%string. split; [cbn; auto |].
      split; [apply Hout; [reflexivity | cbn; lia] |].
      split; [discriminate | lia]. }
    destruct (2 ^ 30 * (m / 2 ^ 30) =? BTT_MAP_ENTRY_ERROR) eqn:Ee.
    { exists "error"%string. split; [cbn; auto |].
      split; [apply Hout; [reflexivity | cbn; lia] |].
      split; [discriminate | lia]. }
    destruct (2 ^ 30 * (m / 2 ^ 30) =? BTT_MAP_ENTRY_NORMAL) eqn:En.
    { exists "normal"%string. split; [cbn; auto 6 |].
      split; [apply Hout; [reflexivity | cbn; lia] |].
      split; [discriminate | lia]. }
    exfalso. apply Z.eqb_neq in Ez, Ee, En.
    destruct (Hcodes (m / 2 ^ 30)) as [H | [H | H]]; try contradiction.
    lia.
Qed.

Lemma out_get_btt_map_entry_states_witness :
  1073741823 = 2 ^ 30 - 1 /\
  0 <= 2147483648 < two32 /\ 0 <= 1073741824 < two32 /\
  0 <= 3221225472 < two32 /\
  (forall q : Z,
     1 <= q <= 3 ->
     2 ^ 30 * q = 2147483648 \/ 2 ^ 30 * q = 1073741824 \/
     2 ^ 30 * q = 3221225472) /\
  exists tag : string,
    In tag ["init"; "zero"; "error"; "normal"]%string /\
    out_get_btt_map_entry 1073741823 2147483648 1073741824 3221225472
      (1073741824 + 4660) =
    ("0x" ++ fmt_08x (u32 (1073741824 + 4660) mod 2 ^ 30) ++ " state: " ++ tag)%string.
Proof.
  assert (H1 : 1073741823 = 2 ^ 30 - 1) by reflexivity.
  assert (H2 : 0 <= 2147483648 < two32) by (split; [lia | reflexivity]).
  assert (H3 : 0 <= 1073741824 < two32) by (split; [lia | reflexivity]).
  assert (H4 : 0 <= 3221225472 < two32) by (split; [lia | reflexivity]).
  assert (H5 : forall q : Z,
            1 <= q <= 3 ->
            2 ^ 30 * q = 2147483648 \/ 2 ^ 30 * q = 1073741824 \/
            2 ^ 30 * q = 3221225472).
  { intros q Hq. change (2 ^ 30) with 1073741824.
    assert (q = 1 \/ q = 2 \/ q = 3) as [-> | [-> | ->]] by lia;
      [right; left | left | right; right]; reflexivity. }
  split; [exact H1 |]. split; [exact H2 |]. split; [exact H3 |].
  split; [exact H4 |]. split; [exact H5 |].
  destruct (out_get_btt_map_entry_states 1073741823 2147483648 1073741824
              3221225472 (1073741824 + 4660) H1 H2 H3 H4 H5)
    as (tag & Hin & Hout & _).
  exists tag. split; [exact Hin | exact Hout].
Defined.

(** * Constant regions *)

Lemma nth_row_repeat (b : byte) (n i : nat) :
  (16 * i + 16 <= n)%nat -> nth_row (repeat b n) i = repeat b 16.
Proof.
  intros H. unfold nth_row.
  replace n with (16 * i + (16 + (n - 16 * i - 16)))%nat by lia.
  rewrite repeat_app, skipn_app, repeat_length.
  rewrite skipn_all2 by (rewrite repeat_length; lia).
  replace (16 * i - 16 * i)%nat with 0%nat by lia.
  cbn [app skipn]. rewrite repeat_app, firstn_app, repeat_length.
  rewrite firstn_all2 by (rewrite repeat_length; lia).
  replace (16 - 16)%nat with 0%nat by lia.
  cbn [firstn]. apply app_nil_r.
Qed.

Lemma row_count_last_start (datap : list byte) :
  datap <> [] -> (16 * (row_count datap - 1))%nat = last_start datap.
Proof.
  intros Hne. unfold row_count, last_start.
  assert (Hl : (0 < List.length datap)%nat)
    by (destruct datap; [congruence | cbn; lia]).
  replace (List.length datap + 15)%nat
    with ((List.length datap - 1) + 1 * 16)%nat by lia.
  rewrite Nat.div_add by lia. lia.
Qed.

(** In a constant region the rows after the first come out as at most one
    star and the last row. *)
Lemma dump_lines_repeat (b : byte) (n : nat) (offset : Z) (k : nat) :
  forall (i : nat) (elided : bool),
    (0 < i)%nat -> (i + S k = row_count (repeat b n))%nat ->
    dump_lines (repeat b n) offset i (S k) elided =
    (if elided || Nat.eqb k 0 then [] else [star_line]) ++
    [spec_row (size_add (Z.of_nat (16 * (row_count (repeat b n) - 1))) offset)
       (nth_row (repeat b n) (row_count (repeat b n) - 1))].
Proof.
  induction k as [|k IH]; intros i elided Hi Hrows.
  - rewrite dump_lines_unfold.
    cbn [Nat.ltb Nat.leb andb]. rewrite andb_false_r. cbn [andb].
    rewrite dump_lines_none, orb_true_r.
    replace (row_count (repeat b n) - 1)%nat with i by lia. reflexivity.
  - rewrite dump_lines_unfold.
    assert (Hn : (16 * i + 16 < n)%nat).
    { unfold row_count in Hrows. rewrite repeat_length in Hrows.
      pose proof (Nat.div_mod_eq (n + 15) 16) as Hd.
      pose proof (Nat.mod_upper_bound (n + 15) 16) as Hm. lia. }
    rewrite (nth_row_repeat b n i) by lia.
    rewrite (nth_row_repeat b n (i - 1)) by lia.
    replace (Nat.ltb 0 i) with true by (symmetry; apply Nat.ltb_lt; exact Hi).
    replace (Nat.ltb 0 (S k)) with true by (symmetry; apply Nat.ltb_lt; lia).
    replace (bytes_eqb (repeat b 16) (repeat b 16)) with true
      by (symmetry; apply bytes_eqb_eq; reflexivity).
    cbn [andb]. rewrite (IH (S i) true) by lia.
    cbn [orb Nat.eqb]. rewrite orb_false_r. reflexivity.
Qed.

(** A region of more than two rows that holds one byte value throughout is
    dumped as three lines whatever its length: the first row, one star and
    the last row. *)
Theorem outv_hexdump_constant_region (st : out_state) (fh : FILE)
  (vlevel : Z) (b : byte) (n : nat) (offset : Z) :
  out_fh st = Some fh ->
  vlevel <= out_vlevel st ->
  (32 < n)%nat ->
  forall sep : Z,
    outv_hexdump st vlevel (repeat b n) offset sep =
    Some (set_written st
            (written st ++
             on_stream fh [first_row (repeat b n) offset; star_line;
                           last_row (repeat b n) offset] ++
             sep_writes fh sep (slen (last_row (repeat b n) offset)))).
Proof.
  intros Hfh Hgate Hn sep.
  assert (Hne : repeat b n <> []) by (destruct n; [lia | discriminate]).
  rewrite (outv_hexdump_written st fh vlevel (repeat b n) offset Hfh Hgate Hne).
  do 4 f_equal.
  assert (Hrows : (3 <= row_count (repeat b n))%nat).
  { unfold row_count. rewrite repeat_length.
    replace (n + 15)%nat with ((n - 33) + 3 * 16)%nat by lia.
    rewrite Nat.div_add by lia. lia. }
  assert (Hk : exists k : nat, row_count (repeat b n) = S (S (S k)))
    by (exists (row_count (repeat b n) - 3)%nat; lia).
  destruct Hk as [k Hk].
  replace (dump_lines (repeat b n) offset 0 (row_count (repeat b n)) false)
    with (dump_lines (repeat b n) offset 0 (S (S (S k))) false)
    by (rewrite Hk; reflexivity).
  rewrite dump_lines_unfold. cbn [Nat.ltb Nat.leb andb].
  rewrite (dump_lines_repeat b n offset (S k) 1 false) by lia.
  cbn [orb Nat.eqb app].
  rewrite row_count_last_start by exact Hne.
  unfold first_row, last_row.
  replace (nth_row (repeat b n) 0) with (firstn 16 (repeat b n)) by reflexivity.
  replace (nth_row (repeat b n) (row_count (repeat b n) - 1))
    with (skipn (last_start (repeat b n)) (repeat b n)).
  - reflexivity.
  - unfold nth_row. rewrite row_count_last_start by exact Hne.
    symmetry. apply firstn_all2. rewrite length_skipn.
    unfold last_start.
    pose proof (Nat.div_mod_eq (List.length (repeat b n) - 1) 16) as Hd.
    pose proof (Nat.mod_upper_bound (List.length (repeat b n) - 1) 16) as Hm.
    lia.
Qed.

Lemma outv_hexdump_constant_region_witness :
  out_fh st0 = Some stdout /\ 0 <= out_vlevel st0 /\ (32 < 100)%nat /\
  outv_hexdump st0 0 (repeat x00 100) 4096 1 =
  Some (set_written st0
          (written st0 ++
           on_stream stdout [first_row (repeat x00 100) 4096; star_line;
                             last_row (repeat x00 100) 4096] ++
           sep_writes stdout 1 (slen (last_row (repeat x00 100) 4096)))).
Proof.
  assert (H1 : out_fh st0 = Some stdout) by reflexivity.
  assert (H2 : 0 <= out_vlevel st0) by (cbn; lia).
  assert (H3 : (32 < 100)%nat) by lia.
  split; [exact H1 |]. split; [exact H2 |]. split; [exact H3 |].
  exact (outv_hexdump_constant_region st0 stdout 0 x00 100 4096 H1 H2 H3 1).
Defined.

(** * The bytes mode of size strings *)

Lemma digit_char_not_minus (d : Z) : digit_char d <> "-"%char.
Proof.
  unfold digit_char. generalize (Z.to_nat d). intros k.
  do 17 (destruct k as [|k]; [discriminate |]). discriminate.
Qed.

(** A number printed with at least one digit starts with a digit. *)
Lemma digits_head (base : Z) (fuel : nat) :
  forall (v : Z) (acc : string),
    exists (d : Z) (rest : string),
      digits base (S fuel) v acc = String (digit_char d) rest.
Proof.
  induction fuel as [|fuel IH]; intros v acc.
  - exists (v mod base), acc. cbn [digits]. cbv zeta.
    destruct (v / base =? 0); reflexivity.
  - change (digits base (S (S fuel)) v acc)
      with (if v / base =? 0 then String (digit_char (v mod base)) acc
            else digits base (S fuel) (v / base)
                   (String (digit_char (v mod base)) acc)).
    destruct (v / base =? 0); [now exists (v mod base), acc | apply IH].
Qed.

(** Without the human form the size is printed as a signed number: the
    decimal size below [2 ^ 63], and from there on a minus sign and the
    decimal of [2 ^ 64 - size].  So the string is the size exactly for the
    sizes below [2 ^ 63]. *)
Theorem out_get_size_str_bytes_mode (size : Z) :
  0 <= size < two64 ->
  (size < two63 -> out_get_size_str size 0 = fmt_lu size) /\
  (two63 <= size ->
   out_get_size_str size 0 = String "-"%char (fmt_lu (two64 - size))) /\
  (out_get_size_str size 0 = fmt_lu size <-> size < two63).
Proof.
  intros Hs.
  assert (Hlow : size < two63 -> out_get_size_str size 0 = fmt_lu size)
    by (intros H; apply out_get_size_str_bytes_small; lia).
  assert (Hhigh : two63 <= size ->
                  out_get_size_str size 0 =
                  String "-"%char (fmt_lu (two64 - size))).
  { intros H. unfold out_get_size_str. cbn [truthy Z.eqb negb].
    assert (E : fmt_ld size = String "-"%char (fmt_lu (two64 - size))).
    { unfold fmt_ld, fmt_lu. cbv zeta.
      rewrite (Z.mod_small size) by exact Hs.
      rewrite (Z.mod_small (two64 - size))
        by (unfold two63, two64 in *; lia).
      destruct (size <? two63) eqn:E; [apply Z.ltb_lt in E; lia | reflexivity]. }
    rewrite E. apply str_buff_result_id.
    - cbn [no_nul]. destruct (fmt_lu_plain (two64 - size)) as [Hn _].
      rewrite Hn. reflexivity.
    - cbn [String.length].
      pose proof (digits_length_le 10 20 ((two64 - size) mod two64) EmptyString)
        as Hl.
      unfold fmt_lu. cbn [String.length] in Hl. lia. }
  split; [exact Hlow |]. split; [exact Hhigh |].
  split; [| exact Hlow].
  intros Heq. destruct (Z.lt_ge_cases size two63) as [Hlt | Hge]; [exact Hlt |].
  exfalso. rewrite (Hhigh Hge) in Heq.
  destruct (digits_head 10 19 (size mod two64) EmptyString) as (d & rest & Hd).
  assert (Hc : String "-"%char (fmt_lu (two64 - size)) =
               String (digit_char d) rest) by exact (eq_trans Heq Hd).
  apply (digit_char_not_minus d).
  exact (f_equal (fun s => match s with
                           | String c _ => c
                           | EmptyString => "-"%char
                           end) (eq_sym Hc)).
Qed.

Lemma out_get_size_str_bytes_mode_witness :
  0 <= two63 < two64 /\
  out_get_size_str two63 0 = "-9223372036854775808"%string.
Proof.
  assert (H : 0 <= two63 < two64) by (split; [discriminate | reflexivity]).
  split; [exact H |].
  destruct (out_get_size_str_bytes_mode two63 H) as (_ & Hhigh & _).
  rewrite (Hhigh (Z.le_refl two63)). reflexivity.
Defined.

Lemma row_assemblers_return_length_witness :
  exists (str' : cbuf) (r : Z),
    out_get_ascii_str (zero_buf 17) 17 [x48; x69] = Some (str', r) /\
    r = blen [x48; x69].
Proof.
  destruct (out_get_ascii_str (zero_buf 17) 17 [x48; x69])
    as [[str' r] |] eqn:E; [| vm_compute in E; discriminate].
  exists str', r. split; [reflexivity |].
  destruct (proj2 row_assemblers_return_length _ _ _ _ _ E)
    as [(Hlt & _) | (_ & Hr)]; [vm_compute in Hlt; discriminate | exact Hr].
Defined.
